(** * Miscalibrated: ingestion pipeline, shallow embedding

    The Python sources embedded here:
    - [backend/kafka/consumers/news_consumer.py]    (chunk_text, process_article, run)
    - [backend/kafka/consumers/markets_consumer.py] (normalize_*, upsert_market, run)
    - [backend/kafka/producers/*.py]                (create_producer, run)
    - [model/scripts/scrapeAllCategories.py]        (extract_series_ticker, get_category,
                                                     category_slug, get_with_retry,
                                                     get_writer, candle_passes)
    - [backend/app/models/edge.py]                  (Edge)

    Python [int] is [Z]; a [float] is the rational it stands for, an
    infinity or [nan], and the results of [float()] and of float arithmetic
    are rounded to binary64 (a negative zero is the zero); a [str] is a
    [string], whose characters are the code points below 256, and a list of
    characters where it is sliced; dictionaries read from JSON are
    association lists;
    exceptions are results; the effects of a process are a trace of events.
    Loops that may not terminate take fuel and return [None] when it runs
    out. *)

From stdpp Require Import base list strings gmap.
From Stdlib Require Import Ascii ZArith QArith Qabs Qround Lia Lqa.

Local Open Scope Z_scope.
Set Warnings "-register-all".

(** ** Python slicing *)

Module PySlice.
Section Slice.
Context {A : Type}.

Definition len (l : list A) : Z := Z.of_nat (length l).

(** Index normalisation of a slice bound (step 1): a negative bound counts
    from the end, and every bound is clamped to [0, len]. *)
Definition slice_index (n i : Z) : Z :=
  if i <? 0 then Z.max 0 (i + n) else Z.min i n.

(** [l[start:stop]] *)
Definition py_slice (l : list A) (start stop : Z) : list A :=
  let s := slice_index (len l) start in
  let e := slice_index (len l) stop in
  take (Z.to_nat (e - s)) (drop (Z.to_nat s) l).

(** [l[start:]] *)
Definition py_slice_from (l : list A) (start : Z) : list A :=
  py_slice l start (len l).

(** [l[:stop]] *)
Definition py_slice_to (l : list A) (stop : Z) : list A :=
  py_slice l 0 stop.

Lemma len_nonneg (l : list A) : 0 <= len l.
Proof. unfold len. lia. Qed.

Lemma slice_index_range n i : 0 <= n -> 0 <= slice_index n i <= n.
Proof. unfold slice_index. destruct (Z.ltb_spec i 0); lia. Qed.

Lemma slice_index_id n i : 0 <= i <= n -> slice_index n i = i.
Proof. unfold slice_index. destruct (Z.ltb_spec i 0); lia. Qed.

(** Inside the bounds a slice is a [take] of a [drop]. *)
Lemma py_slice_inner (l : list A) (s e : Z) :
  0 <= s -> s <= e -> e <= len l ->
  py_slice l s e = take (Z.to_nat (e - s)) (drop (Z.to_nat s) l).
Proof.
  intros Hs Hse He. unfold py_slice.
  rewrite !slice_index_id by lia. reflexivity.
Qed.

Lemma py_slice_length (l : list A) (s e : Z) :
  0 <= s -> s <= e -> e <= len l ->
  len (py_slice l s e) = e - s.
Proof.
  intros Hs Hse He. rewrite py_slice_inner by lia.
  unfold len in *. rewrite length_take, length_drop. lia.
Qed.

(** A slice is a contiguous part of the list. *)
Lemma py_slice_substring (l : list A) (s e : Z) :
  exists pre post, l = pre ++ py_slice l s e ++ post.
Proof.
  unfold py_slice.
  set (i := Z.to_nat (slice_index (len l) s)).
  set (k := Z.to_nat (slice_index (len l) e - slice_index (len l) s)).
  exists (take i l), (drop k (drop i l)).
  rewrite (take_drop k (drop i l)), (take_drop i l). reflexivity.
Qed.

(** Slice of a slice, for bounds inside the inner slice. *)
Lemma py_slice_slice (l : list A) (s e s' e' : Z) :
  0 <= s -> s <= e -> e <= len l ->
  0 <= s' -> s' <= e' -> e' <= e - s ->
  py_slice (py_slice l s e) s' e' = py_slice l (s + s') (s + e').
Proof.
  intros Hs Hse He Hs' Hse' He'.
  rewrite (py_slice_inner (py_slice l s e)); try lia.
  2:{ rewrite py_slice_length; lia. }
  rewrite (py_slice_inner l s e), (py_slice_inner l (s + s') (s + e')) by lia.
  apply list_eq; intros i.
  rewrite !lookup_take, !lookup_drop, lookup_take.
  repeat case_decide; try lia; try reflexivity.
  rewrite lookup_drop. f_equal; lia.
Qed.

(** [l[-k:]] on a list of at least [k] elements. *)
Lemma py_slice_from_neg (l : list A) (k : Z) :
  0 < k -> k <= len l ->
  py_slice_from l (- k) = py_slice l (len l - k) (len l).
Proof.
  intros Hk Hl. unfold py_slice_from, py_slice.
  assert (slice_index (len l) (- k) = len l - k) as ->.
  { unfold slice_index. destruct (Z.ltb_spec (- k) 0); lia. }
  rewrite !slice_index_id by lia. reflexivity.
Qed.

(** [l[-k:]] on a shorter list is the whole list. *)
Lemma py_slice_from_neg_short (l : list A) (k : Z) :
  len l <= k -> 0 < k -> py_slice_from l (- k) = l.
Proof.
  intros Hl Hk. unfold py_slice_from, py_slice.
  assert (slice_index (len l) (- k) = 0) as ->.
  { unfold slice_index. destruct (Z.ltb_spec (- k) 0); lia. }
  rewrite slice_index_id by (pose proof (len_nonneg l); lia).
  simpl. rewrite drop_0. apply take_ge. unfold len. lia.
Qed.

(** [l[:k]] on a list of at most [k] elements is the whole list. *)
Lemma py_slice_to_short (l : list A) (k : Z) :
  len l <= k -> py_slice_to l k = l.
Proof.
  intros Hl. unfold py_slice_to, py_slice. pose proof (len_nonneg l).
  assert (slice_index (len l) k = len l) as ->.
  { unfold slice_index. destruct (Z.ltb_spec k 0); lia. }
  rewrite slice_index_id by lia. simpl. rewrite drop_0.
  apply take_ge. unfold len. lia.
Qed.
End Slice.
End PySlice.

(** ** news_consumer.py: chunk_text *)

Module Chunker.
Import PySlice.

(** [CHUNK_SIZE = 2000], the default of the [chunk_size] argument. *)
Definition CHUNK_SIZE : Z := 2000.
(** [overlap = 200], a local constant of [chunk_text]. *)
Definition overlap : Z := 200.

Section ChunkText.
Context {A : Type}.
Implicit Types (text : list A) (chunk_size : Z).

(** The variables of the [while] loop. *)
Record loop_state := LoopState { start : Z; chunks : list (list A) }.

(** [while start < len(text)] *)
Definition loop_guard text (st : loop_state) : bool :=
  start st <? len text.

(** [end = min(start + chunk_size, len(text));
     chunks.append(text[start:end]); start += chunk_size - overlap] *)
Definition loop_body text chunk_size (st : loop_state) : loop_state :=
  let end_ := Z.min (start st + chunk_size) (len text) in
  {| start := start st + (chunk_size - overlap);
     chunks := chunks st ++ [py_slice text (start st) end_] |}.

(** The loop; [fuel] bounds the number of tests of the guard. *)
Fixpoint chunk_loop (fuel : nat) text chunk_size (st : loop_state)
  : option (list (list A)) :=
  match fuel with
  | O => None
  | S fuel' =>
      if loop_guard text st
      then chunk_loop fuel' text chunk_size (loop_body text chunk_size st)
      else Some (chunks st)
  end.

Definition chunk_text_fuel (fuel : nat) text chunk_size
  : option (list (list A)) :=
  chunk_loop fuel text chunk_size {| start := 0; chunks := [] |}.

(** [chunk_text(text, chunk_size)] returns [r]. *)
Definition chunk_text_returns text chunk_size (r : list (list A)) : Prop :=
  exists fuel, chunk_text_fuel fuel text chunk_size = Some r.

(** [chunk_text(text, chunk_size)] never leaves its loop. *)
Definition chunk_text_diverges text chunk_size : Prop :=
  forall fuel, chunk_text_fuel fuel text chunk_size = None.

(** The [k]-th chunk cut by a loop that starts at [s]. *)
Definition chunk_at text chunk_size (s : Z) (k : nat) : list A :=
  let s_k := s + Z.of_nat k * (chunk_size - overlap) in
  py_slice text s_k (Z.min (s_k + chunk_size) (len text)).

(** Number of iterations of a loop that starts at [s], for a positive stride. *)
Definition iterations text chunk_size (s : Z) : nat :=
  let d := chunk_size - overlap in
  if s <? len text then Z.to_nat ((len text - s + d - 1) / d) else O.

Lemma chunk_loop_more_fuel fuel fuel' text chunk_size st r :
  chunk_loop fuel text chunk_size st = Some r ->
  (fuel <= fuel')%nat ->
  chunk_loop fuel' text chunk_size st = Some r.
Proof.
  revert fuel' st. induction fuel as [|fuel IH]; intros fuel' st; simpl.
  - discriminate.
  - intros Hr Hle. destruct fuel' as [|fuel']; [lia|]. simpl.
    destruct (loop_guard text st); [|assumption].
    apply IH; [assumption | lia].
Qed.

Lemma chunk_text_returns_unique text chunk_size r1 r2 :
  chunk_text_returns text chunk_size r1 ->
  chunk_text_returns text chunk_size r2 ->
  r1 = r2.
Proof.
  intros [f1 H1] [f2 H2]. unfold chunk_text_fuel in *.
  apply (chunk_loop_more_fuel _ (Nat.max f1 f2)) in H1; [|lia].
  apply (chunk_loop_more_fuel _ (Nat.max f1 f2)) in H2; [|lia].
  congruence.
Qed.

Lemma chunk_text_returns_not_diverges text chunk_size r :
  chunk_text_returns text chunk_size r ->
  ~ chunk_text_diverges text chunk_size.
Proof. intros [f Hf] Hd. rewrite Hd in Hf. discriminate. Qed.

(** After [n] iterations the loop has appended the chunks [0 .. n-1]. *)
Lemma chunk_loop_closed_form text chunk_size (n : nat) : forall st,
  overlap < chunk_size ->
  len text <= start st + Z.of_nat n * (chunk_size - overlap) ->
  (n = O \/ start st + (Z.of_nat n - 1) * (chunk_size - overlap) < len text) ->
  chunk_loop (S n) text chunk_size st =
    Some (chunks st ++ map (chunk_at text chunk_size (start st)) (seq 0 n)).
Proof.
  induction n as [|n IH]; intros st Hd Hstop Hlast.
  - simpl. unfold loop_guard.
    destruct (Z.ltb_spec (start st) (len text)); [lia|].
    rewrite app_nil_r. reflexivity.
  - destruct Hlast as [Hn|Hlast]; [discriminate|].
    assert (start st < len text) as Hlt by nia.
    change (chunk_loop (S (S n)) text chunk_size st)
      with (if loop_guard text st
            then chunk_loop (S n) text chunk_size (loop_body text chunk_size st)
            else Some (chunks st)).
    unfold loop_guard at 1.
    destruct (Z.ltb_spec (start st) (len text)); [|lia].
    rewrite IH; simpl start; simpl chunks; try lia.
    rewrite <- app_assoc. do 2 f_equal. simpl.
    f_equal.
    + unfold chunk_at. simpl. f_equal; f_equal; lia.
    + rewrite <- seq_shift, map_map. apply map_ext. intros k.
      unfold chunk_at. f_equal; [|f_equal]; lia.
Qed.

Lemma iterations_stop text chunk_size s :
  overlap < chunk_size ->
  len text <= s + Z.of_nat (iterations text chunk_size s) * (chunk_size - overlap).
Proof.
  intros Hd. unfold iterations.
  destruct (Z.ltb_spec s (len text)) as [Hlt|Hge]; [|simpl; lia].
  set (d := chunk_size - overlap) in *. assert (0 < d) by (unfold d; lia).
  rewrite Z2Nat.id by (apply Z.div_pos; lia).
  pose proof (Z.mul_div_le (len text - s + d - 1) d ltac:(lia)).
  pose proof (Z.mod_pos_bound (len text - s + d - 1) d ltac:(lia)).
  pose proof (Z.div_mod (len text - s + d - 1) d ltac:(lia)). nia.
Qed.

Lemma iterations_last text chunk_size s :
  overlap < chunk_size ->
  iterations text chunk_size s = O \/
  s + (Z.of_nat (iterations text chunk_size s) - 1) * (chunk_size - overlap)
    < len text.
Proof.
  intros Hd. unfold iterations.
  destruct (Z.ltb_spec s (len text)) as [Hlt|Hge]; [right|left; reflexivity].
  set (d := chunk_size - overlap) in *. assert (0 < d) by (unfold d; lia).
  rewrite Z2Nat.id by (apply Z.div_pos; lia).
  pose proof (Z.mul_div_le (len text - s + d - 1) d ltac:(lia)). nia.
Qed.

Lemma iterations_bound text chunk_size s :
  overlap < chunk_size -> 0 <= s ->
  (iterations text chunk_size s <= length text)%nat.
Proof.
  intros Hd Hs. unfold iterations.
  destruct (Z.ltb_spec s (len text)) as [Hlt|Hge]; [|lia].
  set (d := chunk_size - overlap) in *. assert (0 < d) by (unfold d; lia).
  assert ((len text - s + d - 1) / d <= len text); [|unfold len in *; lia].
  apply Z.div_le_upper_bound; [lia|]. nia.
Qed.

(** For a chunk size above the overlap the function returns, and its
    result is the list of the chunks [0 .. iterations-1]. *)
Lemma chunk_text_closed_form text chunk_size :
  overlap < chunk_size ->
  chunk_text_fuel (S (iterations text chunk_size 0)) text chunk_size =
    Some (map (chunk_at text chunk_size 0)
              (seq 0 (iterations text chunk_size 0))).
Proof.
  intros Hd. unfold chunk_text_fuel.
  rewrite chunk_loop_closed_form; simpl start; simpl chunks; try assumption.
  - reflexivity.
  - apply iterations_stop; assumption.
  - apply iterations_last; assumption.
Qed.

Lemma chunk_text_returns_closed_form text chunk_size r :
  overlap < chunk_size ->
  chunk_text_returns text chunk_size r ->
  r = map (chunk_at text chunk_size 0) (seq 0 (iterations text chunk_size 0)).
Proof.
  intros Hd Hr. eapply chunk_text_returns_unique; [exact Hr|].
  eexists. apply chunk_text_closed_form; assumption.
Qed.

(** With a chunk size at most the overlap the start index never moves
    forward, so the guard of the loop stays true on a non-empty text. *)
Lemma chunk_loop_stuck text chunk_size (fuel : nat) : forall st,
  chunk_size <= overlap -> start st <= 0 -> 0 < len text ->
  chunk_loop fuel text chunk_size st = None.
Proof.
  induction fuel as [|fuel IH]; intros st Hcs Hst Hlen; [reflexivity|].
  simpl. unfold loop_guard.
  destruct (Z.ltb_spec (start st) (len text)); [|lia].
  apply IH; simpl; lia.
Qed.

(** Text of the chunks at the default size, for a text of 4500 characters. *)
Lemma chunk_text_4500_shape text r :
  length text = 4500%nat ->
  chunk_text_returns text CHUNK_SIZE r ->
  r = [py_slice text 0 2000; py_slice text 1800 3800; py_slice text 3600 4500].
Proof.
  intros Hlen Hr.
  assert (len text = 4500) as HL by (unfold len; lia).
  apply chunk_text_returns_closed_form in Hr; [|reflexivity].
  subst r. unfold iterations, chunk_at. rewrite HL. reflexivity.
Qed.

(** The [i]-th chunk of the result, its length and the next start. *)
Lemma chunk_text_lookup text chunk_size r (i : nat) c :
  overlap < chunk_size ->
  chunk_text_returns text chunk_size r ->
  r !! i = Some c ->
  c = chunk_at text chunk_size 0 i /\
  Z.of_nat i * (chunk_size - overlap) < len text.
Proof.
  intros Hd Hr Hi.
  apply chunk_text_returns_closed_form in Hr; [|assumption]. subst r.
  apply list_lookup_fmap_Some in Hi as (k & Hc & Hk).
  apply lookup_seq in Hk as [-> Hlt]. simpl in Hc. split; [assumption|].
  destruct (iterations_last text chunk_size 0 Hd) as [H0|Hlast]; [lia|].
  assert (Z.of_nat i <= Z.of_nat (iterations text chunk_size 0) - 1) by lia.
  nia.
Qed.

Lemma chunk_at_length text chunk_size (i : nat) :
  overlap < chunk_size ->
  Z.of_nat i * (chunk_size - overlap) < len text ->
  len (chunk_at text chunk_size 0 i) =
    Z.min chunk_size (len text - Z.of_nat i * (chunk_size - overlap)).
Proof.
  intros Hd Hi. unfold chunk_at. unfold overlap in *.
  assert (0 <= Z.of_nat i * (chunk_size - 200)) by nia.
  rewrite py_slice_length; lia.
Qed.

(** Two neighbouring chunks: the head of the second one, up to [overlap]
    characters, is the tail of the first one. *)
Lemma chunk_at_overlap text chunk_size (i : nat) :
  overlap < chunk_size ->
  Z.of_nat (S i) * (chunk_size - overlap) < len text ->
  let c := chunk_at text chunk_size 0 i in
  let c' := chunk_at text chunk_size 0 (S i) in
  py_slice_from c (- Z.min overlap (len c')) = py_slice_to c' overlap.
Proof.
  intros Hd Hi c c'.
  assert (Z.of_nat i * (chunk_size - overlap) < len text) as Hi0 by nia.
  pose proof (chunk_at_length text chunk_size i Hd Hi0) as Hc.
  pose proof (chunk_at_length text chunk_size (S i) Hd Hi) as Hc'.
  fold c in Hc. fold c' in Hc'.
  set (s := Z.of_nat i * (chunk_size - overlap)) in *.
  assert (Z.of_nat (S i) * (chunk_size - overlap) = s + (chunk_size - overlap))
    as Hs by (unfold s; lia).
  rewrite Hs in *. unfold overlap in *.
  assert (0 <= s) as Hs0 by (unfold s; nia).
  destruct (Z.le_gt_cases 200 (len c')) as [Hbig|Hsmall].
  - (* the second chunk has 200 characters or more *)
    rewrite Z.min_l by assumption.
    rewrite py_slice_from_neg by lia.
    unfold py_slice_to. rewrite Hc.
    unfold c, c', chunk_at, overlap. fold s. rewrite Hs.
    rewrite !Z.add_0_l.
    rewrite !py_slice_slice by lia.
    f_equal; lia.
  - (* the second chunk is shorter: it is the tail of the first one *)
    rewrite Z.min_r by lia.
    rewrite py_slice_to_short by lia.
    rewrite py_slice_from_neg by lia.
    rewrite Hc, Hc'.
    unfold c, c', chunk_at, overlap. fold s. rewrite Hs.
    rewrite !Z.add_0_l.
    rewrite py_slice_slice by lia.
    f_equal; lia.
Qed.

(** [chunk_text(text)] at the default chunk size, with fuel enough for
    the loop to end. *)
Definition chunk_text text : list (list A) :=
  match chunk_text_fuel (S (length text)) text CHUNK_SIZE with
  | Some r => r
  | None => []
  end.

Lemma chunk_text_returns_default text :
  chunk_text_returns text CHUNK_SIZE (chunk_text text).
Proof.
  assert (overlap < CHUNK_SIZE) as Hd by reflexivity.
  pose proof (chunk_text_closed_form text CHUNK_SIZE Hd) as Hcf.
  apply (chunk_loop_more_fuel _ (S (length text))) in Hcf.
  - exists (S (length text)). unfold chunk_text, chunk_text_fuel in *.
    rewrite Hcf. reflexivity.
  - pose proof (iterations_bound text CHUNK_SIZE 0 Hd ltac:(lia)). lia.
Qed.
End ChunkText.
End Chunker.


(** ** Rounding to binary64 *)

Module Binary64.

(** The integer nearest to a rational, a tie going to the even one. *)
Definition round_half_even (x : Q) : Z :=
  let f := Qfloor x in
  match (x - inject_Z f ?= 1 # 2)%Q with
  | Lt => f
  | Gt => f + 1
  | Eq => if Z.even f then f else f + 1
  end.

(** Every finite binary64 number is a multiple of [2^-1074]: a magnitude
    in these units. *)
Definition units (a : Q) : Q := (a * inject_Z (2 ^ 1074))%Q.

(** The number of low bits that do not fit the 53 bits of the
    significand, for a magnitude of [x] units. *)
Definition dropped_bits (x : Q) : Z := Z.max (Z.log2 (Qfloor x) - 52) 0.

(** The magnitude [x], in units, rounded to 53 significant bits. *)
Definition round_units (x : Q) : Z :=
  let s := dropped_bits x in
  round_half_even (x / inject_Z (2 ^ s)) * 2 ^ s.

(** [2^1024], the first magnitude that is not finite, in units. *)
Definition OVERFLOW_UNITS : Z := 2 ^ 2098.

(** The finite binary64 magnitude nearest to [a >= 0], when there is
    one. *)
Definition round_magnitude (a : Q) : option Q :=
  let m := round_units (units a) in
  if m <? OVERFLOW_UNITS then Some (Qred (inject_Z m / inject_Z (2 ^ 1074)))
  else None.

Arguments OVERFLOW_UNITS : simpl never.
Arguments round_magnitude : simpl never.

Lemma round_half_even_bounds x :
  Qfloor x <= round_half_even x <= Qfloor x + 1.
Proof.
  unfold round_half_even.
  destruct (x - inject_Z (Qfloor x) ?= 1 # 2)%Q; [|lia|lia].
  destruct (Z.even (Qfloor x)); lia.
Qed.

Lemma round_half_even_Z z : round_half_even (inject_Z z) = z.
Proof.
  unfold round_half_even. rewrite Qfloor_Z.
  destruct (Qcompare_spec (inject_Z z - inject_Z z) (1 # 2)) as [H|H|H];
    [exfalso; lra | reflexivity | exfalso; lra].
Qed.

Lemma round_half_even_mono x y :
  (x <= y)%Q -> round_half_even x <= round_half_even y.
Proof.
  intros Hxy. pose proof (Qfloor_resp_le x y Hxy) as Hf.
  pose proof (round_half_even_bounds x) as Hx.
  pose proof (round_half_even_bounds y) as Hy.
  destruct (Z.eq_dec (Qfloor x) (Qfloor y)) as [Heq|Hne]; [|lia].
  clear Hx Hy Hf. unfold round_half_even. rewrite <- Heq.
  destruct (Qcompare_spec (x - inject_Z (Qfloor x)) (1 # 2)) as [H|H|H];
    destruct (Qcompare_spec (y - inject_Z (Qfloor x)) (1 # 2)) as [H'|H'|H'];
    try lia; try (destruct (Z.even (Qfloor x)); lia); exfalso; lra.
Qed.

Lemma round_half_even_le x k :
  (x <= inject_Z k)%Q -> round_half_even x <= k.
Proof.
  intros H. rewrite <- (round_half_even_Z k). apply round_half_even_mono, H.
Qed.

Lemma round_half_even_ge x k :
  (inject_Z k <= x)%Q -> k <= round_half_even x.
Proof.
  intros H. rewrite <- (round_half_even_Z k). apply round_half_even_mono, H.
Qed.

Lemma pow2_pos n : 0 <= n -> (0 < inject_Z (2 ^ n))%Q.
Proof.
  intros H. change 0%Q with (inject_Z 0). rewrite <- Zlt_Qlt.
  apply Z.pow_pos_nonneg; lia.
Qed.

Lemma dropped_bits_nonneg x : 0 <= dropped_bits x.
Proof. unfold dropped_bits. lia. Qed.

(** A magnitude lies below the power of two after its leading bit. *)
Lemma below_next_power x :
  (x < inject_Z (2 ^ (Z.log2 (Qfloor x) + 1)))%Q.
Proof.
  eapply Qlt_le_trans; [apply Qlt_floor|]. rewrite <- Zle_Qle.
  destruct (Z.lt_ge_cases 0 (Qfloor x)) as [Hpos|Hneg].
  - pose proof (Z.log2_spec _ Hpos) as [_ H].
    rewrite <- Z.add_1_r in H. lia.
  - rewrite Z.log2_nonpos by exact Hneg. simpl. lia.
Qed.

(** It reaches the power of two of its leading bit. *)
Lemma above_leading_power x :
  0 < Z.log2 (Qfloor x) -> (inject_Z (2 ^ Z.log2 (Qfloor x)) <= x)%Q.
Proof.
  intros HL. eapply Qle_trans; [|apply Qfloor_le]. rewrite <- Zle_Qle.
  destruct (Z.lt_ge_cases 0 (Qfloor x)) as [Hpos|Hneg].
  - apply Z.log2_spec, Hpos.
  - rewrite Z.log2_nonpos in HL by exact Hneg. lia.
Qed.

Lemma round_units_nonneg x : (0 <= x)%Q -> 0 <= round_units x.
Proof.
  intros Hx. unfold round_units.
  pose proof (dropped_bits_nonneg x) as Hs.
  apply Z.mul_nonneg_nonneg; [|apply Z.pow_nonneg; lia].
  apply round_half_even_ge. apply Qle_shift_div_l; [apply pow2_pos, Hs|].
  change (inject_Z 0) with 0%Q. lra.
Qed.

(** Rounding keeps the order of magnitudes. *)
Lemma round_units_mono x y :
  (x <= y)%Q -> round_units x <= round_units y.
Proof.
  intros Hxy. unfold round_units.
  pose proof (dropped_bits_nonneg x) as Hsx.
  pose proof (dropped_bits_nonneg y) as Hsy.
  pose proof (Z.log2_le_mono _ _ (Qfloor_resp_le x y Hxy)) as HL.
  pose proof (Z.log2_nonneg (Qfloor x)) as HLx.
  destruct (Z.eq_dec (dropped_bits x) (dropped_bits y)) as [Heq|Hne].
  - rewrite <- Heq. apply Z.mul_le_mono_nonneg_r; [apply Z.pow_nonneg; lia|].
    apply round_half_even_mono. unfold Qdiv.
    apply Qmult_le_compat_r; [exact Hxy|].
    apply Qlt_le_weak, Qinv_lt_0_compat, pow2_pos, Hsx.
  - assert (dropped_bits x < dropped_bits y) as Hlt
      by (unfold dropped_bits in *; lia).
    assert (dropped_bits y = Z.log2 (Qfloor y) - 52) as Hy
      by (unfold dropped_bits in *; lia).
    assert (Z.log2 (Qfloor x) + 1 <= Z.log2 (Qfloor y)) as Hgap
      by (unfold dropped_bits in *; lia).
    transitivity (2 ^ Z.log2 (Qfloor y)).
    + replace (2 ^ Z.log2 (Qfloor y))
        with (2 ^ (Z.log2 (Qfloor y) - dropped_bits x) * 2 ^ dropped_bits x)
        by (rewrite <- Z.pow_add_r by lia; f_equal; lia).
      apply Z.mul_le_mono_nonneg_r; [apply Z.pow_nonneg; lia|].
      apply round_half_even_le.
      apply Qle_shift_div_r; [apply pow2_pos, Hsx|].
      rewrite <- inject_Z_mult, <- Z.pow_add_r by lia.
      replace (Z.log2 (Qfloor y) - dropped_bits x + dropped_bits x)
        with (Z.log2 (Qfloor y)) by lia.
      apply Qlt_le_weak. eapply Qlt_le_trans; [apply below_next_power|].
      rewrite <- Zle_Qle. apply Z.pow_le_mono_r; lia.
    + replace (2 ^ Z.log2 (Qfloor y)) with (2 ^ 52 * 2 ^ dropped_bits y)
        by (rewrite <- Z.pow_add_r by lia; f_equal; lia).
      apply Z.mul_le_mono_nonneg_r; [apply Z.pow_nonneg; lia|].
      apply round_half_even_ge.
      apply Qle_shift_div_l; [apply pow2_pos, Hsy|].
      rewrite <- inject_Z_mult, <- Z.pow_add_r by lia.
      replace (52 + dropped_bits y) with (Z.log2 (Qfloor y)) by lia.
      apply above_leading_power. lia.
Qed.

Lemma units_mono a b : (a <= b)%Q -> (units a <= units b)%Q.
Proof.
  intros H. unfold units. apply Qmult_le_compat_r; [exact H|].
  apply Qlt_le_weak, pow2_pos. lia.
Qed.

Lemma units_nonneg a : (0 <= a)%Q -> (0 <= units a)%Q.
Proof.
  intros H. unfold units. apply Qmult_le_0_compat; [exact H|].
  apply Qlt_le_weak, pow2_pos. lia.
Qed.

(** What [round_magnitude] returns, as a rational. *)
Lemma round_magnitude_value a r :
  round_magnitude a = Some r ->
  (r == inject_Z (round_units (units a)) / inject_Z (2 ^ 1074))%Q.
Proof.
  unfold round_magnitude.
  destruct (round_units (units a) <? OVERFLOW_UNITS); [|discriminate].
  intros H. injection H as <-. apply Qred_correct.
Qed.

Lemma round_magnitude_mono a b :
  (a <= b)%Q ->
  match round_magnitude a, round_magnitude b with
  | Some r, Some r' => (r <= r')%Q
  | None, Some _ => False
  | _, None => True
  end.
Proof.
  intros Hab.
  pose proof (round_units_mono _ _ (units_mono a b Hab)) as Hm.
  destruct (round_magnitude a) as [r|] eqn:Ha,
           (round_magnitude b) as [r'|] eqn:Hb; try exact I.
  - rewrite (round_magnitude_value a r Ha), (round_magnitude_value b r' Hb).
    unfold Qdiv. apply Qmult_le_compat_r.
    + rewrite <- Zle_Qle. exact Hm.
    + apply Qlt_le_weak, Qinv_lt_0_compat, pow2_pos. lia.
  - unfold round_magnitude in Ha, Hb.
    destruct (Z.ltb_spec (round_units (units a)) OVERFLOW_UNITS);
      [discriminate|].
    destruct (Z.ltb_spec (round_units (units b)) OVERFLOW_UNITS);
      [lia | discriminate].
Qed.

Lemma round_magnitude_nonneg a r :
  (0 <= a)%Q -> round_magnitude a = Some r -> (0 <= r)%Q.
Proof.
  intros Ha Hr. rewrite (round_magnitude_value a r Hr).
  apply Qle_shift_div_l; [apply pow2_pos; lia|].
  rewrite Qmult_0_l. change 0%Q with (inject_Z 0). rewrite <- Zle_Qle.
  apply round_units_nonneg, units_nonneg, Ha.
Qed.
End Binary64.

(** ** Python values, exceptions and effects *)

Module Py.

(** The exception classes the sources raise, catch or let through. *)
Inductive exn_class :=
| Exception
| LookupError | KeyError | IndexError
| TypeError | AttributeError
| ValueError | JSONDecodeError | UnicodeDecodeError
| ArithmeticError | OverflowError
| KafkaException | HTTPStatusError | RequestException.

#[global] Instance exn_class_eq_dec : EqDecision exn_class.
Proof. solve_decision. Defined.

(** The nearest base class among these; [Exception] is the root. *)
Definition base (c : exn_class) : option exn_class :=
  match c with
  | Exception => None
  | KeyError | IndexError => Some LookupError
  | JSONDecodeError | UnicodeDecodeError => Some ValueError
  | OverflowError => Some ArithmeticError
  | LookupError | TypeError | AttributeError | ValueError | ArithmeticError
  | KafkaException | HTTPStatusError | RequestException => Some Exception
  end.

(** [issubclass(c, k)]; the hierarchy is three levels deep. *)
Definition issubclass (c k : exn_class) : bool :=
  bool_decide (c = k)
  || match base c with
     | None => false
     | Some b =>
         bool_decide (b = k)
         || match base b with
            | None => false
            | Some bb => bool_decide (bb = k)
            end
     end.

(** [except (k1, k2, ...)] catches [c]. *)
Definition caught_by (handled : list exn_class) (c : exn_class) : bool :=
  existsb (issubclass c) handled.

(** Outcome of an evaluation: a value or a raised exception. *)
Inductive res (A : Type) :=
| Ok (a : A)
| Raise (e : exn_class).
Arguments Ok {A} a.
Arguments Raise {A} e.

Definition res_bind {A B} (r : res A) (k : A -> res B) : res B :=
  match r with
  | Ok a => k a
  | Raise e => Raise e
  end.

(** Python floats. A finite float is represented by the rational it stands
    for; the zero stands for both zeros. *)
Inductive pyfloat :=
| FNum (q : Q)
| FInf (negative : bool)
| FNan.

(** Values read by [json.loads]: [None], [bool], [int], [float], [str],
    [list] and [dict] with string keys (an association list whose first
    binding of a key is the dictionary's). *)
Inductive value :=
| VNone
| VBool (b : bool)
| VInt (z : Z)
| VFloat (f : pyfloat)
| VStr (s : string)
| VList (l : list value)
| VDict (d : list (string * value)).

Fixpoint dict_get (d : list (string * value)) (k : string) : option value :=
  match d with
  | [] => None
  | (k', v) :: d' => if String.eqb k' k then Some v else dict_get d' k
  end.

(** [v[k]] for a string key [k]. *)
Definition subscript (v : value) (k : string) : res value :=
  match v with
  | VDict d =>
      match dict_get d k with
      | Some x => Ok x
      | None => Raise KeyError
      end
  | _ => Raise TypeError
  end.

(** [v[0]]. A dictionary read from JSON has no key [0]. *)
Definition subscript0 (v : value) : res value :=
  match v with
  | VList [] => Raise IndexError
  | VList (x :: _) => Ok x
  | VStr EmptyString => Raise IndexError
  | VStr (String c _) => Ok (VStr (String c EmptyString))
  | VDict _ => Raise KeyError
  | _ => Raise TypeError
  end.

(** [v.get(k, default)]: only a dictionary has the method. *)
Definition get (v : value) (k : string) (default : value) : res value :=
  match v with
  | VDict d =>
      match dict_get d k with
      | Some x => Ok x
      | None => Ok default
      end
  | _ => Raise AttributeError
  end.

(** Truth value of an object. *)
Definition truthy (v : value) : bool :=
  match v with
  | VNone => false
  | VBool b => b
  | VInt z => negb (z =? 0)
  | VFloat (FNum q) => negb (Qeq_bool q 0)
  | VFloat _ => true
  | VStr s => negb (String.eqb s "")
  | VList l => match l with [] => false | _ => true end
  | VDict d => match d with [] => false | _ => true end
  end.

(** [x or y] *)
Definition py_or (x y : value) : value := if truthy x then x else y.

(** *** Arithmetic *)

(** The binary64 number nearest to a rational, a tie going to the even
    significand; beyond the largest finite number, an infinity. *)
Definition round64 (q : Q) : pyfloat :=
  match Binary64.round_magnitude (Qabs q) with
  | Some r => FNum (if Qle_bool 0 q then r else - r)
  | None => FInf (negb (Qle_bool 0 q))
  end.

Arguments round64 : simpl never.

(** [a <= b] on floats; false when either is [nan]. *)
Definition float_le (a b : pyfloat) : bool :=
  match a, b with
  | FNan, _ | _, FNan => false
  | FInf true, _ => true
  | _, FInf false => true
  | FInf false, _ => false
  | _, FInf true => false
  | FNum x, FNum y => Qle_bool x y
  end.

(** An [int] converts to a [float] when it rounds to a finite binary64
    number, that is below [2^1024 - 2^970] in absolute value. *)
Definition FLOAT_LIMIT : Z := 2 ^ 1024 - 2 ^ 970.

Lemma FLOAT_LIMIT_large : 1000 < FLOAT_LIMIT.
Proof. reflexivity. Qed.

Arguments FLOAT_LIMIT : simpl never.

Definition float_of_int (z : Z) : res pyfloat :=
  if Z.abs z <? FLOAT_LIMIT then Ok (round64 (inject_Z z))
  else Raise OverflowError.

Definition float_add (a b : pyfloat) : pyfloat :=
  match a, b with
  | FNan, _ | _, FNan => FNan
  | FInf s, FInf s' => if Bool.eqb s s' then FInf s else FNan
  | FInf s, FNum _ | FNum _, FInf s => FInf s
  | FNum x, FNum y => round64 (x + y)
  end.

Definition float_sub (a b : pyfloat) : pyfloat :=
  match a, b with
  | FNan, _ | _, FNan => FNan
  | FInf s, FInf s' => if Bool.eqb s s' then FNan else FInf s
  | FInf s, FNum _ => FInf s
  | FNum _, FInf s => FInf (negb s)
  | FNum x, FNum y => round64 (x - y)
  end.

(** [f / n] for a positive integer constant [n]. *)
Definition float_div_const (f : pyfloat) (n : positive) : pyfloat :=
  match f with
  | FNum x => round64 (x * (1 # n))
  | FInf s => FInf s
  | FNan => FNan
  end.

(** The [int] a number stands for in arithmetic ([bool] is a subclass of
    [int]). *)
Definition as_int (v : value) : option Z :=
  match v with
  | VInt z => Some z
  | VBool b => Some (if b then 1 else 0)
  | _ => None
  end.

Definition is_number (v : value) : bool :=
  match v with
  | VInt _ | VBool _ | VFloat _ => true
  | _ => false
  end.

(** [a + b] *)
Definition add (a b : value) : res value :=
  match as_int a, as_int b with
  | Some x, Some y => Ok (VInt (x + y))
  | Some x, None =>
      match b with
      | VFloat g => res_bind (float_of_int x) (fun f => Ok (VFloat (float_add f g)))
      | _ => Raise TypeError
      end
  | None, Some y =>
      match a with
      | VFloat f => res_bind (float_of_int y) (fun g => Ok (VFloat (float_add f g)))
      | _ => Raise TypeError
      end
  | None, None =>
      match a, b with
      | VFloat f, VFloat g => Ok (VFloat (float_add f g))
      | VStr s, VStr t => Ok (VStr (s +:+ t))
      | VList l, VList m => Ok (VList (l ++ m))
      | _, _ => Raise TypeError
      end
  end.

(** [a / n] for a positive integer constant [n]: true division, whose
    result is a [float]. The quotient of an [int] is rounded once, and the
    division raises when it is out of the range of floats. *)
Definition truediv_const (a : value) (n : positive) : res pyfloat :=
  match as_int a with
  | Some x =>
      if Z.abs x <? Z.pos n * FLOAT_LIMIT then Ok (round64 (x # n))
      else Raise OverflowError
  | None =>
      match a with
      | VFloat f => Ok (float_div_const f n)
      | _ => Raise TypeError
      end
  end.

(** [0 <= f <= 1]; false for [nan] and the infinities. *)
Definition in_unit_interval (f : pyfloat) : bool :=
  match f with
  | FNum q => Qle_bool 0 q && Qle_bool q 1
  | _ => false
  end.

(** [f] is the finite float that stands for the rational [q]. *)
Definition float_is (f : pyfloat) (q : Q) : Prop :=
  match f with
  | FNum p => (p == q)%Q
  | _ => False
  end.

(** *** [float(s)] on strings

    The grammar of the language reference:
    [floatvalue ::= [sign] (floatnumber | "inf" | "infinity" | "nan")],
    [floatnumber ::= number [exponent]],
    [number ::= [digitpart] "." digitpart | digitpart ["."]],
    [digitpart ::= digit (["_"] digit)*],
    [exponent ::= ("e" | "E") [sign] digitpart], with surrounding white space
    removed and the names matched without regard to case. *)

(** The white space that [float()] removes: the characters 9 to 13 and 32
    and, of those from 128 on, the next-line character and the no-break
    space. *)
Definition is_space (c : ascii) : bool :=
  let n := nat_of_ascii c in
  ((9 <=? n) && (n <=? 13) || (n =? 32) || (n =? 133) || (n =? 160))%nat.

Definition digit_of (c : ascii) : option Z :=
  let n := nat_of_ascii c in
  if ((48 <=? n) && (n <=? 57))%nat then Some (Z.of_nat n - 48) else None.

(** [c.lower()]: the capital letters are 65 to 90 and, from 128 on, 192 to
    222 without the multiplication sign 215. *)
Definition lower (c : ascii) : ascii :=
  let n := nat_of_ascii c in
  if ((65 <=? n) && (n <=? 90)
      || (192 <=? n) && (n <=? 222) && negb (n =? 215))%nat
  then ascii_of_nat (n + 32) else c.

Fixpoint lstrip (s : list ascii) : list ascii :=
  match s with
  | c :: s' => if is_space c then lstrip s' else s
  | [] => []
  end.

Definition strip (s : list ascii) : list ascii :=
  rev (lstrip (rev (lstrip s))).

(** The digits after the first digit of a digitpart: [acc] is the value of
    the digits read so far, [n] their number. Returns the value, the number
    of digits and the rest of the input. *)
Fixpoint more_digits (s : list ascii) (acc : Z) (n : Z)
  : Z * Z * list ascii :=
  match s with
  | c :: s' =>
      match digit_of c with
      | Some d => more_digits s' (10 * acc + d) (n + 1)
      | None =>
          if Ascii.eqb c "_" then
            match s' with
            | c' :: s'' =>
                match digit_of c' with
                | Some d => more_digits s'' (10 * acc + d) (n + 1)
                | None => (acc, n, s)
                end
            | [] => (acc, n, s)
            end
          else (acc, n, s)
      end
  | [] => (acc, n, s)
  end.

(** A digitpart continuing the digits [acc] (of which there are [n]). *)
Definition digitpart (s : list ascii) (acc n : Z)
  : option (Z * Z * list ascii) :=
  match s with
  | c :: s' =>
      match digit_of c with
      | Some d => Some (more_digits s' (10 * acc + d) (n + 1))
      | None => None
      end
  | [] => None
  end.

Definition sign_of (s : list ascii) : bool * list ascii :=
  match s with
  | c :: s' =>
      if Ascii.eqb c "-" then (true, s')
      else if Ascii.eqb c "+" then (false, s')
      else (false, s)
  | [] => (false, s)
  end.

(** [number]: mantissa digits as an integer and the number of digits after
    the point. *)
Definition number (s : list ascii) : option (Z * Z * list ascii) :=
  match digitpart s 0 0 with
  | Some (m, _, rest) =>
      match rest with
      | c :: rest' =>
          if Ascii.eqb c "." then
            match digitpart rest' m 0 with
            | Some r => Some r
            | None => Some (m, 0, rest')
            end
          else Some (m, 0, rest)
      | [] => Some (m, 0, rest)
      end
  | None =>
      match s with
      | c :: rest' =>
          if Ascii.eqb c "." then digitpart rest' 0 0 else None
      | [] => None
      end
  end.

(** [exponent], when one follows; [None] when the input is malformed. *)
Definition exponent (s : list ascii) : option (Z * list ascii) :=
  match s with
  | c :: s' =>
      if Ascii.eqb (lower c) "e" then
        let '(neg, s'') := sign_of s' in
        match digitpart s'' 0 0 with
        | Some (e, _, rest) => Some (if neg then - e else e, rest)
        | None => None
        end
      else Some (0, s)
  | [] => Some (0, s)
  end.

(** [m * 10^e] as a rational. *)
Definition scale10 (m e : Z) : Q :=
  if 0 <=? e then inject_Z (m * 10 ^ e) else m # Z.to_pos (10 ^ (- e)).

(** What a string denotes for [float()], before rounding. *)
Inductive literal :=
| LNum (q : Q)
| LInf (negative : bool)
| LNan.

Definition read_float (str : string) : option literal :=
  let s := strip (String.list_ascii_of_string str) in
  let '(neg, body) := sign_of s in
  let name := String.string_of_list_ascii (map lower body) in
  if String.eqb name "inf" || String.eqb name "infinity" then Some (LInf neg)
  else if String.eqb name "nan" then Some LNan
  else
    match number body with
    | Some (m, frac, rest) =>
        match exponent rest with
        | Some (e, []) =>
            let q := scale10 m (e - frac) in
            Some (LNum (if neg then - q else q)%Q)
        | _ => None
        end
    | None => None
    end.

(** The float of a literal: the number is rounded, so that a number too
    large becomes an infinity and one too small a zero. *)
Definition float_of_literal (l : literal) : pyfloat :=
  match l with
  | LNum q => round64 q
  | LInf negative => FInf negative
  | LNan => FNan
  end.

(** [float(str)], when the string is well formed. *)
Definition parse_float (str : string) : option pyfloat :=
  option_map float_of_literal (read_float str).

(** [float(v)] *)
Definition to_float (v : value) : res pyfloat :=
  match v with
  | VFloat f => Ok f
  | VInt z => float_of_int z
  | VBool b => Ok (FNum (if b then 1 else 0))
  | VStr s =>
      match parse_float s with
      | Some f => Ok f
      | None => Raise ValueError
      end
  | VNone | VList _ | VDict _ => Raise TypeError
  end.

(** *** Effects: a state of the outside world and exceptions *)

Section Monad.
Context {W : Type}.

(** A computation reads and changes the world and returns or raises; what
    it did to the world before raising stays done. *)
Definition M (A : Type) : Type := W -> res A * W.

Definition ret {A} (a : A) : M A := fun w => (Ok a, w).

Definition raise {A} (e : exn_class) : M A := fun w => (Raise e, w).

Definition bind {A B} (m : M A) (k : A -> M B) : M B :=
  fun w =>
    match m w with
    | (Ok a, w') => k a w'
    | (Raise e, w') => (Raise e, w')
    end.

(** A pure evaluation inside a computation. *)
Definition lift {A} (r : res A) : M A := fun w => (r, w).

(** [try: body  except handled: handler] *)
Definition try_except {A} (body : M A) (handled : list exn_class)
    (handler : exn_class -> M A) : M A :=
  fun w =>
    match body w with
    | (Ok a, w') => (Ok a, w')
    | (Raise e, w') =>
        if caught_by handled e then handler e w' else (Raise e, w')
    end.

(** [try: body  finally: cleanup] *)
Definition try_finally {A} (body : M A) (cleanup : M unit) : M A :=
  fun w =>
    match body w with
    | (r, w') =>
        match cleanup w' with
        | (Ok _, w'') => (r, w'')
        | (Raise e, w'') => (Raise e, w'')
        end
    end.
End Monad.

Arguments M W A : clear implicits.

(** Sequencing is written with the monad notations [x ← m; k] and
    [m ;; k]. *)
#[global] Instance M_ret {W} : MRet (M W) := fun A a => ret a.
#[global] Instance M_bind {W} : MBind (M W) := fun A B k m => bind m k.

End Py.

(** ** Facts about rounding *)

Module FloatFacts.
Import Py.

(** The least float above 1, [1 + 2^-52], and the least positive float,
    [2^-1074]. *)
Definition ONE_PLUS_ULP : Q := 4503599627370497 # 4503599627370496.
Definition MIN_SUBNORMAL : Q := 1 # Z.to_pos (2 ^ 1074).

Arguments MIN_SUBNORMAL : simpl never.

Lemma round64_not_nan q : round64 q <> FNan.
Proof.
  unfold round64. destruct (Binary64.round_magnitude (Qabs q)); discriminate.
Qed.

(** Rounding keeps the order. *)
Lemma round64_mono p q :
  (p <= q)%Q -> float_le (round64 p) (round64 q) = true.
Proof.
  intros Hpq. unfold round64.
  destruct (Qle_bool 0 p) eqn:Hp, (Qle_bool 0 q) eqn:Hq.
  - apply Qle_bool_iff in Hp, Hq.
    assert (Qabs p <= Qabs q)%Q as Habs
      by (rewrite (Qabs_pos p Hp), (Qabs_pos q Hq); exact Hpq).
    pose proof (Binary64.round_magnitude_mono _ _ Habs) as Hm.
    destruct (Binary64.round_magnitude (Qabs p)) as [r|],
             (Binary64.round_magnitude (Qabs q)) as [r'|];
      cbn [float_le negb]; try reflexivity; [|contradiction].
    apply Qle_bool_iff. exact Hm.
  - apply Qle_bool_iff in Hp.
    assert (~ (0 <= q)%Q) as Hn
      by (intros H; apply Qle_bool_iff in H; congruence).
    exfalso. apply Hn. lra.
  - apply Qle_bool_iff in Hq.
    pose proof (Binary64.round_magnitude_nonneg (Qabs p)) as Hrp.
    pose proof (Binary64.round_magnitude_nonneg (Qabs q)) as Hrq.
    pose proof (Qabs_nonneg p) as Hap. pose proof (Qabs_nonneg q) as Haq.
    destruct (Binary64.round_magnitude (Qabs p)) as [r|],
             (Binary64.round_magnitude (Qabs q)) as [r'|];
      cbn [float_le negb]; try reflexivity.
    apply Qle_bool_iff.
    specialize (Hrp r Hap eq_refl). specialize (Hrq r' Haq eq_refl). lra.
  - assert (~ (0 <= p)%Q) as Hnp
      by (intros H; apply Qle_bool_iff in H; congruence).
    assert (~ (0 <= q)%Q) as Hnq
      by (intros H; apply Qle_bool_iff in H; congruence).
    assert (Qabs q <= Qabs p)%Q as Habs.
    { rewrite (Qabs_neg p), (Qabs_neg q) by lra. lra. }
    pose proof (Binary64.round_magnitude_mono _ _ Habs) as Hm.
    destruct (Binary64.round_magnitude (Qabs p)) as [r|],
             (Binary64.round_magnitude (Qabs q)) as [r'|];
      cbn [float_le negb]; try reflexivity; [|contradiction].
    apply Qle_bool_iff. lra.
Qed.

Lemma round64_0 : round64 0 = FNum 0.
Proof. vm_compute. reflexivity. Qed.

Lemma round64_1 : round64 1 = FNum 1.
Proof. vm_compute. reflexivity. Qed.

Lemma round64_one_plus_ulp : round64 ONE_PLUS_ULP = FNum ONE_PLUS_ULP.
Proof. vm_compute. reflexivity. Qed.

Lemma round64_min_subnormal :
  round64 (- MIN_SUBNORMAL) = FNum (- MIN_SUBNORMAL).
Proof. vm_compute. reflexivity. Qed.

(** A number in [0, 1] rounds into [0, 1]. *)
Lemma round64_unit q :
  (0 <= q <= 1)%Q -> in_unit_interval (round64 q) = true.
Proof.
  intros [H0 H1].
  pose proof (round64_mono 0 q H0) as Hlo.
  pose proof (round64_mono q 1 H1) as Hhi.
  rewrite round64_0 in Hlo. rewrite round64_1 in Hhi.
  destruct (round64 q) as [r|[|]|]; cbn in *; try discriminate.
  rewrite Hlo, Hhi. reflexivity.
Qed.

(** A number from [1 + 2^-52] on, or up to [-2^-1074], rounds out of
    [0, 1]. *)
Lemma round64_not_unit q :
  (q <= - MIN_SUBNORMAL \/ ONE_PLUS_ULP <= q)%Q ->
  in_unit_interval (round64 q) = false.
Proof.
  intros [H|H].
  - pose proof (round64_mono _ _ H) as Hm.
    rewrite round64_min_subnormal in Hm.
    destruct (round64 q) as [r|[|]|]; cbn in *; try reflexivity.
    apply Qle_bool_iff in Hm.
    destruct (Qle_bool 0 r) eqn:Hr; [|reflexivity].
    apply Qle_bool_iff in Hr. exfalso.
    assert (0 < MIN_SUBNORMAL)%Q by reflexivity. lra.
  - pose proof (round64_mono _ _ H) as Hm.
    rewrite round64_one_plus_ulp in Hm.
    destruct (round64 q) as [r|[|]|]; cbn in *; try reflexivity;
      try discriminate.
    apply Qle_bool_iff in Hm.
    destruct (Qle_bool r 1) eqn:Hr; [|apply andb_false_r].
    apply Qle_bool_iff in Hr. exfalso.
    assert (1 < ONE_PLUS_ULP)%Q by reflexivity. lra.
Qed.
End FloatFacts.

(** ** Shared by the consumers and producers: messages, logging levels, the
    observable world *)

Module Kafka.
Import Py.

(** A message handed out by [consumer.poll]; [msg_error] is the code of
    [msg.error()] when there is one. *)
Record message := {
  msg_topic : string;
  msg_partition : Z;
  msg_offset : Z;
  msg_value : list Byte.byte;
  msg_error : option Z
}.

(** A value of the configuration dictionary passed to [Consumer] or
    [Producer]. *)
Inductive setting :=
| SStr (s : string)
| SInt (n : Z)
| SBool (b : bool).

Fixpoint setting_of (conf : list (string * setting)) (k : string)
  : option setting :=
  match conf with
  | [] => None
  | (k', v) :: conf' => if String.eqb k' k then Some v else setting_of conf' k
  end.

(** [KafkaError._PARTITION_EOF] *)
Definition PARTITION_EOF : Z := -191.

Inductive level := DEBUG | INFO | WARNING | ERROR.

Definition level_rank (l : level) : nat :=
  match l with DEBUG => 10 | INFO => 20 | WARNING => 30 | ERROR => 40 end.

(** Every module calls [logging.basicConfig(level=logging.INFO)]: a record
    is emitted when its level is [INFO] or above. *)
Definition enabled (l : level) : bool := (level_rank INFO <=? level_rank l)%nat.

Section World.
Context {T E : Type}.

(** The world of a process: the database table it owns and the trace of
    the actions it has performed, oldest first. *)
Record world := World { table : T; trace : list E }.

Definition extend (w : world) (evs : list E) : world :=
  {| table := table w; trace := trace w ++ evs |}.

Definition emit (e : E) : M world unit := fun w => (Ok tt, extend w [e]).

(** The result of a computation and the world it leaves. *)
Definition result {A} (m : M world A) (w : world) : res A := fst (m w).
Definition after {A} (m : M world A) (w : world) : world := snd (m w).

(** [m] leaves the table alone and adds to the trace only events that
    satisfy [P]. *)
Definition adds {A} (P : E -> Prop) (m : M world A) : Prop :=
  forall w, exists evs, after m w = extend w evs /\ Forall P evs.

Lemma extend_nil w : extend w [] = w.
Proof. destruct w. unfold extend. simpl. rewrite app_nil_r. reflexivity. Qed.

Lemma extend_extend w e1 e2 : extend (extend w e1) e2 = extend w (e1 ++ e2).
Proof. unfold extend. simpl. rewrite app_assoc. reflexivity. Qed.

Lemma adds_ret {A} P (a : A) : adds P (mret a).
Proof. intros w. exists []. split; [symmetry; apply extend_nil | constructor]. Qed.

Lemma adds_raise {A} P e : adds P (raise (A := A) e).
Proof. intros w. exists []. split; [symmetry; apply extend_nil | constructor]. Qed.

Lemma adds_lift {A} P (r : res A) : adds P (lift r).
Proof. intros w. exists []. split; [symmetry; apply extend_nil | constructor]. Qed.

Lemma adds_emit P e : P e -> adds P (emit e).
Proof. intros He w. exists [e]. split; [reflexivity | repeat constructor; exact He]. Qed.

Lemma adds_bind {A B} P (m : M world A) (k : A -> M world B) :
  adds P m -> (forall a, adds P (k a)) -> adds P (m ≫= k).
Proof.
  intros Hm Hk w. destruct (Hm w) as (e1 & H1 & HP1).
  unfold after, mbind, M_bind, bind in *.
  destruct (m w) as [[a|e] w1]; simpl in H1; subst w1.
  - destruct (Hk a (extend w e1)) as (e2 & H2 & HP2).
    exists (e1 ++ e2). unfold after in H2. rewrite H2, extend_extend.
    split; [reflexivity | apply Forall_app; split; assumption].
  - exists e1. split; [reflexivity | assumption].
Qed.

Lemma adds_try_except {A} P (body : M world A) handled handler :
  adds P body -> (forall e, adds P (handler e)) ->
  adds P (try_except body handled handler).
Proof.
  intros Hb Hh w. destruct (Hb w) as (e1 & H1 & HP1).
  unfold after, try_except in *.
  destruct (body w) as [[a|e] w1]; simpl in H1; subst w1.
  - exists e1. split; [reflexivity | assumption].
  - destruct (caught_by handled e).
    + destruct (Hh e (extend w e1)) as (e2 & H2 & HP2).
      exists (e1 ++ e2). unfold after in H2. rewrite H2, extend_extend.
      split; [reflexivity | apply Forall_app; split; assumption].
    + exists e1. split; [reflexivity | assumption].
Qed.

(** A computation followed by one more action [c]: the action comes last
    and only when the computation has returned. *)
Lemma adds_then {A} P (m : M world A) (c : E) :
  adds P m ->
  forall w, exists proc,
    Forall P proc /\
    ((result (m;; emit c) w = Ok tt /\
      after (m;; emit c) w = extend w (proc ++ [c])) \/
     (exists e, result (m;; emit c) w = Raise e /\
                after (m;; emit c) w = extend w proc)).
Proof.
  intros Hm w. destruct (Hm w) as (proc & Hw & HP).
  exists proc. split; [exact HP|].
  unfold result, after, mbind, M_bind, bind, emit in *.
  destruct (m w) as [[a|e] w1]; simpl in *; subst w1.
  - left. rewrite extend_extend. split; reflexivity.
  - right. exists e. split; reflexivity.
Qed.
End World.

Arguments world T E : clear implicits.
End Kafka.

(** ** app/models: the persisted records *)

Module Models.
Import Py.

(** [class MarketPlatform(str, enum.Enum)] *)
Inductive MarketPlatform := KALSHI | POLYMARKET.

(** [class Market(Base)], a row of the table [markets]; [external_id] is
    declared [unique=True]. Time stamps are seconds. *)
Record Market := {
  market_id : Z;
  market_platform : MarketPlatform;
  market_external_id : string;
  market_title : string;
  market_category : option string;
  market_close_time : option Z;
  market_yes_price : option pyfloat;
  market_volume : option pyfloat;
  market_is_open : bool;
  market_created_at : Z;
  market_updated_at : Z
}.

(** [class Edge(Base)], a row of the table [edges]. *)
Record Edge := {
  edge_market_id : Z;
  market_probability : Q;
  model_probability : Q;
  edge_magnitude : Q;
  direction : string;
  alert_sent : bool
}.

(** [alert_sent: Mapped[bool] = mapped_column(default=False)] *)
Definition alert_sent_default : bool := false.
End Models.

(** ** markets_consumer.py *)

Module MarketsConsumer.
Import Py Kafka Models.

Definition TOPICS : list string := ["kalshi.markets"; "polymarket.markets"].
Definition GROUP_ID : string := "markets-consumer".

(** [create_consumer]: the configuration passed to [Consumer]; [servers]
    is [KAFKA_BOOTSTRAP_SERVERS]. Offsets are committed by the loop, not by
    the client. *)
Definition create_consumer (servers : string) : list (string * setting) :=
  [("bootstrap.servers", SStr servers);
   ("group.id", SStr GROUP_ID);
   ("auto.offset.reset", SStr "earliest");
   ("enable.auto.commit", SBool false)].

(** The dictionary built by [normalize_kalshi] and [normalize_polymarket],
    by key. *)
Record normalized := {
  platform : string;
  external_id : value;
  title : value;
  category : value;
  close_time : value;
  yes_price : pyfloat;
  volume : value;
  is_open : value
}.

(** What the process does to the outside, in order. [Call_upsert_market]
    marks an entry into [upsert_market]. *)
Inductive event :=
| Logged (l : level)
| Subscribed (topics : list string)
| Call_upsert_market (n : normalized)
| Committed (msg : message)
| Closed.

(** The consumer owns the table [markets]. *)
Abbreviation world := (Kafka.world (list Market) event).

Definition log (l : level) : M world unit :=
  if enabled l then emit (Logged l) else mret tt.

(** The dictionary display of [normalize_kalshi], evaluated key by key. *)
Definition normalize_kalshi_dict (raw : value) : res normalized :=
  res_bind (subscript raw "ticker") (fun ticker =>
  res_bind (get raw "title" (VStr "")) (fun title_ =>
  res_bind (get raw "category" (VStr "")) (fun category_ =>
  res_bind (get raw "close_time" VNone) (fun close_time_ =>
  res_bind (get raw "yes_bid" (VInt 0)) (fun yes_bid =>
  res_bind (get raw "yes_ask" (VInt 0)) (fun yes_ask =>
  res_bind (add yes_bid yes_ask) (fun total =>
  res_bind (truediv_const total 200) (fun price =>
  res_bind (get raw "volume" (VInt 0)) (fun volume_ =>
  res_bind (get raw "status" VNone) (fun status =>
  Ok {| platform := "kalshi";
        external_id := ticker;
        title := title_;
        category := category_;
        close_time := close_time_;
        yes_price := price;
        volume := volume_;
        is_open := VBool (match status with
                          | VStr s => String.eqb s "open"
                          | _ => false
                          end) |})))))))))).

(** [normalize_kalshi]: [try: return {...}
    except (KeyError, TypeError): log.warning(...); return None] *)
Definition normalize_kalshi (raw : value) : M world (option normalized) :=
  try_except
    (n ← lift (normalize_kalshi_dict raw); mret (Some n))
    [KeyError; TypeError]
    (fun _ => log WARNING;; mret None).

(** The dictionary display of [normalize_polymarket]. *)
Definition normalize_polymarket_dict (raw : value) : res normalized :=
  res_bind (get raw "id" (VStr "")) (fun id_ =>
  res_bind (get raw "conditionId" id_) (fun external_id_ =>
  res_bind (get raw "title" (VStr "")) (fun title0 =>
  res_bind (get raw "question" title0) (fun title_ =>
  res_bind (get raw "category" (VStr "")) (fun category_ =>
  res_bind (get raw "endDate" VNone) (fun close_time_ =>
  res_bind (get raw "outcomePrices" (VList [VStr "0"])) (fun prices =>
  res_bind (subscript0 prices) (fun first =>
  res_bind (to_float first) (fun price =>
  res_bind (get raw "volume" (VInt 0)) (fun volume0 =>
  res_bind (to_float volume0) (fun volume_ =>
  res_bind (get raw "active" (VBool false)) (fun active =>
  Ok {| platform := "polymarket";
        external_id := external_id_;
        title := title_;
        category := category_;
        close_time := close_time_;
        yes_price := price;
        volume := VFloat volume_;
        is_open := active |})))))))))))).

(** [normalize_polymarket]: [try: return {...}
    except (KeyError, TypeError, ValueError): log.warning(...); return None] *)
Definition normalize_polymarket (raw : value) : M world (option normalized) :=
  try_except
    (n ← lift (normalize_polymarket_dict raw); mret (Some n))
    [KeyError; TypeError; ValueError]
    (fun _ => log WARNING;; mret None).

(** [upsert_market]: the body is the single call
    [log.debug(f"TODO upsert: ...")]; the table is not touched. *)
Definition upsert_market (n : normalized) : M world unit :=
  emit (Call_upsert_market n);; log DEBUG.

Section Run.
(** [json.loads(bytes.decode("utf-8"))], of the standard library: it returns
    the value read or raises [UnicodeDecodeError] or [JSONDecodeError]. *)
Variable decode_json : list Byte.byte -> res value.

(** [consumer.commit(message=msg)]; the call is taken to return. *)
Definition commit (msg : message) : M world unit := emit (Committed msg).

(** [if topic == "kalshi.markets": ... elif topic == "polymarket.markets":
    ... else: normalized = None] *)
Definition normalize_by_topic (topic : string) (raw : value)
  : M world (option normalized) :=
  if String.eqb topic "kalshi.markets" then normalize_kalshi raw
  else if String.eqb topic "polymarket.markets" then normalize_polymarket raw
  else mret None.

(** Normalise by topic, then [if normalized: upsert_market(normalized)];
    the dictionary built by the normalisers is never empty, hence true. *)
Definition handle (msg : message) (raw : value) : M world unit :=
  normalized_ ← normalize_by_topic (msg_topic msg) raw;
  match normalized_ with
  | Some n => upsert_market n
  | None => mret tt
  end.

(** The part of the loop body after [raw] has been read. *)
Definition process (msg : message) (raw : value) : M world unit :=
  handle msg raw;; commit msg.

(** One turn of [while running:], given what [consumer.poll] returned. *)
Definition iteration (polled : option message) : M world unit :=
  match polled with
  | None => mret tt
  | Some msg =>
      match msg_error msg with
      | Some code =>
          if code =? PARTITION_EOF then log DEBUG
          else raise KafkaException
      | None =>
          match decode_json (msg_value msg) with
          | Raise e =>
              if caught_by [JSONDecodeError; UnicodeDecodeError] e
              then log ERROR;; commit msg
              else raise e
          | Ok raw => process msg raw
          end
      end
  end.

(** The loop, over what the successive polls return until the shutdown
    flag is set. *)
Fixpoint loop (polls : list (option message)) : M world unit :=
  match polls with
  | [] => mret tt
  | p :: rest => iteration p;; loop rest
  end.

(** [run] *)
Definition run (polls : list (option message)) : M world unit :=
  emit (Subscribed TOPICS);;
  log INFO;;
  try_finally (loop polls) (emit Closed;; log INFO).
End Run.

(** The arguments of the calls of [upsert_market] in a trace. *)
Definition upsert_calls (tr : list event) : list normalized :=
  omap (fun e => match e with Call_upsert_market n => Some n | _ => None end) tr.

(** The rows of the table stored under an external identifier. *)
Definition rows_keyed (key : string) (w : world) : list Market :=
  filter (fun m => market_external_id m = key) (table w).

(** *** Facts about the normalisers *)

(** The value a key has in a dictionary, or a default. *)
Definition field (d : list (string * value)) (k : string) (default : value)
  : value :=
  match dict_get d k with
  | Some x => x
  | None => default
  end.

(** [(yes_bid + yes_ask) / 200] *)
Definition kalshi_price (yes_bid yes_ask : value) : res pyfloat :=
  res_bind (add yes_bid yes_ask) (fun total => truediv_const total 200).

(** [float(outcomePrices[0])] *)
Definition polymarket_price (prices : value) : res pyfloat :=
  res_bind (subscript0 prices) to_float.

(** [float(v)] returns for numbers and for strings that parse. *)
Definition float_convertible (v : value) : bool :=
  match v with
  | VInt _ | VBool _ | VFloat _ => true
  | VStr s => match parse_float s with Some _ => true | None => false end
  | _ => false
  end.

(** Not an [int] too large to be converted to a [float]. *)
Definition in_float_range (v : value) : bool :=
  match v with
  | VInt z => Z.abs z <? FLOAT_LIMIT
  | _ => true
  end.

Lemma get_dict d k default : get (VDict d) k default = Ok (field d k default).
Proof. unfold get, field. destruct (dict_get d k); reflexivity. Qed.

Lemma result_try_except {A} (r : res A) handled (w : world) :
  result (try_except (n ← lift r; mret (Some n)) handled
            (fun _ => log WARNING;; mret None)) w =
  match r with
  | Ok n => Ok (Some n)
  | Raise e => if caught_by handled e then Ok None else Raise e
  end.
Proof.
  unfold result, try_except, mbind, M_bind, bind, lift, mret, M_ret, ret.
  destruct r as [n|e]; simpl; [reflexivity|].
  destruct (caught_by handled e); reflexivity.
Qed.

Lemma normalize_kalshi_result raw w :
  result (normalize_kalshi raw) w =
  match normalize_kalshi_dict raw with
  | Ok n => Ok (Some n)
  | Raise e => if caught_by [KeyError; TypeError] e then Ok None else Raise e
  end.
Proof. apply result_try_except. Qed.

Lemma normalize_polymarket_result raw w :
  result (normalize_polymarket raw) w =
  match normalize_polymarket_dict raw with
  | Ok n => Ok (Some n)
  | Raise e =>
      if caught_by [KeyError; TypeError; ValueError] e then Ok None
      else Raise e
  end.
Proof. apply result_try_except. Qed.

(** On a dictionary only the ticker and the price can fail. *)
Lemma normalize_kalshi_dict_unfold d :
  normalize_kalshi_dict (VDict d) =
  match dict_get d "ticker" with
  | None => Raise KeyError
  | Some ticker =>
      res_bind (kalshi_price (field d "yes_bid" (VInt 0))
                             (field d "yes_ask" (VInt 0)))
        (fun price =>
           Ok {| platform := "kalshi";
                 external_id := ticker;
                 title := field d "title" (VStr "");
                 category := field d "category" (VStr "");
                 close_time := field d "close_time" VNone;
                 yes_price := price;
                 volume := field d "volume" (VInt 0);
                 is_open := VBool (match field d "status" VNone with
                                   | VStr s => String.eqb s "open"
                                   | _ => false
                                   end) |})
  end.
Proof.
  unfold normalize_kalshi_dict, kalshi_price, subscript.
  destruct (dict_get d "ticker"); [|reflexivity]. cbn [res_bind].
  repeat (rewrite get_dict; cbn [res_bind]).
  destruct (add _ _); [|reflexivity]. cbn [res_bind].
  destruct (truediv_const _ _); [|reflexivity]. cbn [res_bind].
  repeat (rewrite get_dict; cbn [res_bind]). reflexivity.
Qed.

Lemma normalize_kalshi_not_dict raw :
  (forall d, raw <> VDict d) -> normalize_kalshi_dict raw = Raise TypeError.
Proof.
  intros H. unfold normalize_kalshi_dict.
  destruct raw; try reflexivity. exfalso. eapply H. reflexivity.
Qed.

(** The price of two numbers is a float, unless an [int] is out of range. *)
Lemma kalshi_price_numbers b a :
  is_number b = true -> is_number a = true ->
  (exists f, kalshi_price b a = Ok f) \/ kalshi_price b a = Raise OverflowError.
Proof.
  unfold kalshi_price, add, truediv_const, float_of_int.
  destruct b, a; try discriminate; intros _ _;
    cbn [as_int res_bind];
    repeat match goal with
      | |- context [if ?c then _ else _] => destruct c; cbn [as_int res_bind]
      end; eauto.
Qed.

Lemma kalshi_price_in_range b a :
  is_number b = true -> is_number a = true ->
  in_float_range b = true -> in_float_range a = true ->
  exists f, kalshi_price b a = Ok f.
Proof.
  pose proof FLOAT_LIMIT_large as Hbig.
  unfold kalshi_price, add, truediv_const, float_of_int, in_float_range.
  destruct b as [|b|x|f| | |], a as [|a|y|g| | |];
    try discriminate; intros _ _ Hb Ha;
    try apply Z.ltb_lt in Hb; try apply Z.ltb_lt in Ha;
    cbn [as_int res_bind];
    try destruct b; try destruct a;
    repeat match goal with
      | |- context [Z.abs ?z <? ?l] =>
          destruct (Z.ltb_spec (Z.abs z) l);
            [cbn [as_int res_bind] | exfalso; lia]
      end; eauto.
Qed.

(** Anything else is a [TypeError]. *)
Lemma kalshi_price_not_numbers b a :
  is_number b && is_number a = false ->
  kalshi_price b a = Raise TypeError.
Proof.
  unfold kalshi_price, add, truediv_const.
  destruct b, a; try discriminate; reflexivity.
Qed.

Lemma kalshi_price_ints (x y : Z) :
  0 <= x <= 100 -> 0 <= y <= 100 ->
  kalshi_price (VInt x) (VInt y) = Ok (round64 ((x + y) # 200)).
Proof.
  intros Hx Hy. unfold kalshi_price, add, truediv_const.
  cbn [as_int res_bind].
  destruct (Z.ltb_spec (Z.abs (x + y)) (200 * FLOAT_LIMIT)) as [_|H];
    [reflexivity|].
  exfalso. pose proof FLOAT_LIMIT_large. lia.
Qed.

Lemma polymarket_dict_unfold d :
  normalize_polymarket_dict (VDict d) =
  res_bind (polymarket_price (field d "outcomePrices" (VList [VStr "0"])))
    (fun price =>
  res_bind (to_float (field d "volume" (VInt 0))) (fun volume_ =>
  Ok {| platform := "polymarket";
        external_id := field d "conditionId" (field d "id" (VStr ""));
        title := field d "question" (field d "title" (VStr ""));
        category := field d "category" (VStr "");
        close_time := field d "endDate" VNone;
        yes_price := price;
        volume := VFloat volume_;
        is_open := field d "active" (VBool false) |})).
Proof.
  unfold normalize_polymarket_dict, polymarket_price.
  repeat (rewrite get_dict; cbn [res_bind]).
  destruct (subscript0 _); reflexivity.
Qed.

(** [float(v)] on a value in range: a float, or the error of its kind. *)
Lemma to_float_convertible v :
  in_float_range v = true ->
  if float_convertible v then exists f, to_float v = Ok f
  else to_float v = Raise TypeError \/ to_float v = Raise ValueError.
Proof.
  destruct v; simpl; intros Hr; eauto.
  - unfold float_of_int.
    destruct (Z.abs z <? FLOAT_LIMIT); [eauto | discriminate].
  - destruct (parse_float s); eauto.
Qed.

Lemma to_float_not_convertible v :
  float_convertible v = false ->
  to_float v = Raise TypeError \/ to_float v = Raise ValueError.
Proof.
  destruct v; simpl; try discriminate; eauto.
  destruct (parse_float s); [discriminate | eauto].
Qed.

Lemma to_float_ok v f : to_float v = Ok f -> float_convertible v = true.
Proof.
  destruct v; simpl; try discriminate; try reflexivity.
  destruct (parse_float s); [reflexivity | discriminate].
Qed.

(** *** What the computations add to the trace *)

Definition is_commit (e : event) : Prop :=
  match e with Committed _ => True | _ => False end.

Definition is_upsert_call (e : event) : Prop :=
  match e with Call_upsert_market _ => True | _ => False end.

(** Neither a commit nor a call of [upsert_market]. *)
Definition silent (e : event) : Prop := ~ is_commit e /\ ~ is_upsert_call e.

Lemma adds_log P l : P (Logged l) -> adds P (log l).
Proof.
  intros H. unfold log. destruct (enabled l);
    [apply adds_emit; exact H | apply adds_ret].
Qed.

Lemma normalize_kalshi_silent raw : adds silent (normalize_kalshi raw).
Proof.
  apply adds_try_except.
  - apply adds_bind; [apply adds_lift | intros; apply adds_ret].
  - intros _. apply adds_bind; [|intros; apply adds_ret].
    apply adds_log. split; simpl; tauto.
Qed.

Lemma normalize_polymarket_silent raw : adds silent (normalize_polymarket raw).
Proof.
  apply adds_try_except.
  - apply adds_bind; [apply adds_lift | intros; apply adds_ret].
  - intros _. apply adds_bind; [|intros; apply adds_ret].
    apply adds_log. split; simpl; tauto.
Qed.

Lemma normalize_by_topic_silent topic raw :
  adds silent (normalize_by_topic topic raw).
Proof.
  unfold normalize_by_topic.
  destruct (String.eqb topic "kalshi.markets");
    [apply normalize_kalshi_silent|].
  destruct (String.eqb topic "polymarket.markets");
    [apply normalize_polymarket_silent | apply adds_ret].
Qed.

Lemma upsert_market_no_commit n : adds (fun e => ~ is_commit e) (upsert_market n).
Proof.
  apply adds_bind; [apply adds_emit; simpl; tauto|].
  intros _. apply adds_log. simpl. tauto.
Qed.

Lemma handle_no_commit msg raw : adds (fun e => ~ is_commit e) (handle msg raw).
Proof.
  apply adds_bind.
  - intros w. destruct (normalize_by_topic_silent (msg_topic msg) raw w)
      as (evs & H & HP).
    exists evs. split; [exact H|].
    eapply Forall_impl; [exact HP|]. intros e [He _]. exact He.
  - intros [n|]; [apply upsert_market_no_commit | apply adds_ret].
Qed.

(** [upsert_market] leaves the table as it found it. *)
Lemma upsert_market_table n (w : world) :
  table (after (upsert_market n) w) = table w.
Proof. reflexivity. Qed.

Lemma upsert_calls_app tr1 tr2 :
  upsert_calls (tr1 ++ tr2) = upsert_calls tr1 ++ upsert_calls tr2.
Proof. apply omap_app. Qed.

Lemma upsert_calls_silent evs : Forall silent evs -> upsert_calls evs = [].
Proof.
  induction 1 as [|e evs [_ He] _ IH]; [reflexivity|].
  destruct e; simpl in *; try exact IH. tauto.
Qed.

End MarketsConsumer.

(** ** news_consumer.py *)

Module NewsConsumer.
Import Py Kafka.

Definition TOPIC : string := "news.feed".
Definition GROUP_ID : string := "news-consumer".

(** [create_consumer] *)
Definition create_consumer (servers : string) : list (string * setting) :=
  [("bootstrap.servers", SStr servers);
   ("group.id", SStr GROUP_ID);
   ("auto.offset.reset", SStr "earliest");
   ("enable.auto.commit", SBool false)].

(** The dictionary [metadata] of [process_article], by key. *)
Record metadata := {
  meta_url : value;
  meta_title : value;
  meta_published_at : value;
  meta_source : value;
  meta_search_query : value
}.

(** What the process does to the outside, in order. [Call_embed_text] and
    [Call_store_chunk] mark entries into the functions of these names. *)
Inductive event :=
| Logged (l : level)
| Subscribed (topics : list string)
| Call_embed_text (text : string)
| Call_store_chunk (url : value) (chunk : string) (embedding : list pyfloat)
    (meta : metadata)
| Committed (msg : message)
| Closed.

(** [store_chunk] does not write yet: the consumer owns no table. *)
Abbreviation world := (Kafka.world unit event).

Definition log (l : level) : M world unit :=
  if enabled l then emit (Logged l) else mret tt.

(** [v[:n]], as it stands in the f-strings of the log calls. *)
Definition slice_prefix (v : value) (n : nat) : res value :=
  match v with
  | VStr s => Ok (VStr (String.substring 0 n s))
  | VList l => Ok (VList (take n l))
  | _ => Raise TypeError
  end.

(** ["\n\n"] *)
Definition blank_line : string :=
  String (ascii_of_nat 10) (String (ascii_of_nat 10) EmptyString).

Section Run.
(** [json.loads(bytes.decode("utf-8"))], of the standard library. *)
Variable decode_json : list Byte.byte -> res value.
(** [str(v)], as the f-string [f"{title}\n\n{content}"] applies it. *)
Variable py_str : value -> string.
(** The embedding provider: the vector for a text, or [None] when the
    request raises. *)
Variable openai_embedding : string -> option (list pyfloat).

(** [embed_text]: [try: ... return response.data[0].embedding
    except Exception as e: log.error(...); return None] *)
Definition embed_text (text : string) : M world (option (list pyfloat)) :=
  emit (Call_embed_text text);;
  match openai_embedding text with
  | Some v => mret (Some v)
  | None => log ERROR;; mret None
  end.

(** [store_chunk]: the body is the single call
    [log.debug(f"TODO: store chunk for {article_url[:60]}... dim=...")]. *)
Definition store_chunk (article_url : value) (chunk : string)
    (embedding : list pyfloat) (meta : metadata) : M world unit :=
  emit (Call_store_chunk article_url chunk embedding meta);;
  _ ← lift (slice_prefix article_url 60);
  log DEBUG.

(** [for chunk in chunks: embedding = embed_text(chunk);
     if embedding: store_chunk(url, chunk, embedding, metadata)] *)
Fixpoint embed_and_store (url : value) (meta : metadata)
    (chunks : list string) : M world unit :=
  match chunks with
  | [] => mret tt
  | chunk :: rest =>
      embedding ← embed_text chunk;
      match embedding with
      | Some (x :: v) => store_chunk url chunk (x :: v) meta
      | _ => mret tt
      end;;
      embed_and_store url meta rest
  end.

(** [process_article] *)
Definition process_article (article : value) : M world unit :=
  url ← lift (get article "url" (VStr ""));
  title ← lift (get article "title" (VStr ""));
  content0 ← lift (get article "content" (VStr ""));
  content ← (if truthy content0 then mret content0
             else lift (get article "description" (VStr "")));
  if negb (truthy content) then log DEBUG
  else
    let full_text := py_str title +:+ blank_line +:+ py_str content in
    let chunks :=
      map String.string_of_list_ascii
          (Chunker.chunk_text (String.list_ascii_of_string full_text)) in
    published_at ← lift (get article "publishedAt" VNone);
    source ← lift (get article "source" (VDict []));
    source_name ← lift (get source "name" VNone);
    search_query ← lift (get article "_search_query" VNone);
    let meta := {| meta_url := url; meta_title := title;
                   meta_published_at := published_at;
                   meta_source := source_name;
                   meta_search_query := search_query |} in
    embed_and_store url meta chunks;;
    _ ← lift (slice_prefix title 50);
    log INFO.

(** [consumer.commit(message=msg)]; the call is taken to return. *)
Definition commit (msg : message) : M world unit := emit (Committed msg).

(** [try: article = json.loads(...); process_article(article)
    except (json.JSONDecodeError, UnicodeDecodeError): log.error(...)] *)
Definition decode_and_process (msg : message) : M world unit :=
  try_except
    (article ← lift (decode_json (msg_value msg)); process_article article)
    [JSONDecodeError; UnicodeDecodeError]
    (fun _ => log ERROR).

(** One turn of [while running:], given what [consumer.poll] returned. *)
Definition iteration (polled : option message) : M world unit :=
  match polled with
  | None => mret tt
  | Some msg =>
      match msg_error msg with
      | Some code =>
          if code =? PARTITION_EOF then log DEBUG
          else raise KafkaException
      | None => decode_and_process msg;; commit msg
      end
  end.

Fixpoint loop (polls : list (option message)) : M world unit :=
  match polls with
  | [] => mret tt
  | p :: rest => iteration p;; loop rest
  end.

(** [run] *)
Definition run (polls : list (option message)) : M world unit :=
  emit (Subscribed [TOPIC]);;
  log INFO;;
  try_finally (loop polls) (emit Closed;; log INFO).

Definition is_commit (e : event) : Prop :=
  match e with Committed _ => True | _ => False end.






End Run.
End NewsConsumer.

(** ** kafka/producers *)

Module Producer.
Import Py Kafka.

(** What a producer process does to the outside, in order: log records,
    [producer.produce(topic, key, value)] (the key before its encoding, the
    value before [json.dumps]), [producer.flush(timeout)] and
    [time.sleep(seconds)]. The calls into the client library are taken to
    return: a full local queue or a broker error is not represented. *)
Inductive event :=
| Logged (l : level)
| Produced (topic key : string) (payload : value)
| Flushed (timeout : Z)
| Slept (seconds : Z).

Abbreviation world := (Kafka.world unit event).

Definition log (l : level) : M world unit :=
  if enabled l then emit (Logged l) else mret tt.

(** [s.encode("utf-8")]: only a [str] has the method. *)
Definition encode (v : value) : res string :=
  match v with
  | VStr s => Ok s
  | _ => Raise AttributeError
  end.

(** [d[k] = v] on a dictionary. *)
Fixpoint dict_set (d : list (string * value)) (k : string) (v : value)
  : list (string * value) :=
  match d with
  | [] => [(k, v)]
  | (k', v') :: d' =>
      if String.eqb k' k then (k, v) :: d' else (k', v') :: dict_set d' k v
  end.

(** [v[k] = x]: item assignment with a string key. *)
Definition setitem (v : value) (k : string) (x : value) : res value :=
  match v with
  | VDict d => Ok (VDict (dict_set d k x))
  | _ => Raise TypeError
  end.

(** The three handlers that close the [try] of a poll cycle:
    [except httpx.HTTPStatusError], [except KafkaException],
    [except Exception]; each logs. *)
Definition log_and_go_on (body : M world unit) : M world unit :=
  try_except body [HTTPStatusError; KafkaException; Exception]
    (fun e => log ERROR).

Definition is_produce (e : event) : Prop :=
  match e with Produced _ _ _ => True | _ => False end.

Definition is_flush (e : event) : Prop :=
  match e with Flushed _ => True | _ => False end.
End Producer.

Module KalshiProducer.
Import Py Kafka Producer.

Definition TOPIC : string := "kalshi.markets".

(** [create_producer]; [servers] is [KAFKA_BOOTSTRAP_SERVERS]. *)
Definition create_producer (servers : string) : list (string * setting) :=
  [("bootstrap.servers", SStr servers);
   ("acks", SStr "all");
   ("retries", SInt 5);
   ("retry.backoff.ms", SInt 500)].

(** [key = market.get("ticker", "unknown").encode("utf-8")] *)
Definition key_of (market : value) : res string :=
  res_bind (get market "ticker" (VStr "unknown")) encode.

(** [for market in markets: ... producer.produce(...)] *)
Fixpoint publish (markets : list value) : M world unit :=
  match markets with
  | [] => mret tt
  | market :: rest =>
      key ← lift (key_of market);
      emit (Produced TOPIC key market);;
      publish rest
  end.

(** One turn of [while True:] in [run]; [fetched] is what
    [fetch_kalshi_markets] returns or raises, [interval] is
    [POLL_INTERVAL_SECONDS]. *)
Definition cycle (interval : Z) (fetched : res (list value)) : M world unit :=
  log_and_go_on
    (markets ← lift fetched;
     log INFO;;
     publish markets;;
     emit (Flushed 10));;
  emit (Slept interval).
End KalshiProducer.

Module PolymarketProducer.
Import Py Kafka Producer.

Definition TOPIC : string := "polymarket.markets".

Definition create_producer (servers : string) : list (string * setting) :=
  [("bootstrap.servers", SStr servers);
   ("acks", SStr "all");
   ("retries", SInt 5);
   ("retry.backoff.ms", SInt 500)].

Section Run.
(** [str(v)] *)
Variable py_str : value -> string.

(** [key = str(market.get("conditionId", market.get("id", "unknown")))
           .encode("utf-8")] *)
Definition key_of (market : value) : res string :=
  res_bind (get market "id" (VStr "unknown")) (fun id_ =>
  res_bind (get market "conditionId" id_) (fun k => Ok (py_str k))).

Fixpoint publish (markets : list value) : M world unit :=
  match markets with
  | [] => mret tt
  | market :: rest =>
      key ← lift (key_of market);
      emit (Produced TOPIC key market);;
      publish rest
  end.

Definition cycle (interval : Z) (fetched : res (list value)) : M world unit :=
  log_and_go_on
    (markets ← lift fetched;
     log INFO;;
     publish markets;;
     emit (Flushed 10));;
  emit (Slept interval).
End Run.
End PolymarketProducer.

Module NewsProducer.
Import Py Kafka Producer.

Definition TOPIC : string := "news.feed".

Definition SEARCH_QUERIES : list string :=
  ["Federal Reserve interest rates"; "US election 2025";
   "cryptocurrency bitcoin"; "sports championship"; "geopolitics conflict"].

Definition create_producer (servers : string) : list (string * setting) :=
  [("bootstrap.servers", SStr servers);
   ("acks", SStr "all");
   ("retries", SInt 5)].

(** [key = article.get("url", "").encode("utf-8");
     article["_search_query"] = query; ... producer.produce(...)] *)
Fixpoint publish (query : string) (articles : list value) : M world unit :=
  match articles with
  | [] => mret tt
  | article :: rest =>
      key ← lift (res_bind (get article "url" (VStr "")) encode);
      tagged ← lift (setitem article "_search_query" (VStr query));
      emit (Produced TOPIC key tagged);;
      publish query rest
  end.

(** The body of [for query in SEARCH_QUERIES:]; [fetched] is what
    [fetch_articles(client, query)] returns or raises. *)
Definition query_cycle (query : string) (fetched : res (list value))
  : M world unit :=
  log_and_go_on
    (articles ← lift fetched;
     log INFO;;
     publish query articles;;
     emit (Flushed 10);;
     emit (Slept 1)).

Fixpoint queries (fetch : string -> res (list value)) (qs : list string)
  : M world unit :=
  match qs with
  | [] => mret tt
  | q :: rest => query_cycle q (fetch q);; queries fetch rest
  end.

(** One turn of [while True:] in [run]. *)
Definition cycle (interval : Z) (fetch : string -> res (list value))
  : M world unit :=
  queries fetch SEARCH_QUERIES;;
  emit (Slept interval).
End NewsProducer.

(** ** model/scripts/scrapeAllCategories.py: the series cache *)

Module Scraper.
Import Py.

Definition BASE_URL : string := "https://api.elections.kalshi.com/trade-api/v2".

(** [s.split("-")] *)
Fixpoint split_dash (s : string) : list string :=
  match s with
  | EmptyString => [EmptyString]
  | String c s' =>
      if Ascii.eqb c "-" then EmptyString :: split_dash s'
      else
        match split_dash s' with
        | part :: parts => String c part :: parts
        | [] => [String c EmptyString]
        end
  end.

(** ["-".join(parts)] *)
Fixpoint join_dash (parts : list string) : string :=
  match parts with
  | [] => EmptyString
  | [p] => p
  | p :: rest => p +:+ "-" +:+ join_dash rest
  end.

(** [c.isdigit()]: the digits 0 to 9 and, from 128 on, the superscripts
    two, three and one. *)
Definition is_digit (c : ascii) : bool :=
  let n := nat_of_ascii c in
  ((48 <=? n) && (n <=? 57) || (n =? 178) || (n =? 179) || (n =? 185))%nat.

(** [len(part) >= 2 and part[:2].isdigit()] *)
Definition starts_with_two_digits (part : string) : bool :=
  match part with
  | String a (String b _) => is_digit a && is_digit b
  | _ => false
  end.

(** [for part in parts: if ...: break; series_parts.append(part)] *)
Fixpoint series_parts (parts : list string) : list string :=
  match parts with
  | [] => []
  | part :: rest =>
      if starts_with_two_digits part then []
      else part :: series_parts rest
  end.

(** [extract_series_ticker] *)
Definition extract_series_ticker (event_ticker : string) : string :=
  if String.eqb event_ticker "" then ""
  else
    let parts := split_dash event_ticker in
    match series_parts parts with
    | [] => match parts with p :: _ => p | [] => "" end
    | sp => join_dash sp
    end.

(** What [_session.get] comes back with: an exception, or a response with
    its status code and what [resp.json()] returns or raises. *)
Inductive response :=
| Failed
| Response (status_code : Z) (json : res value).

(** The process state the lookups touch: the dictionary [_series_cache]
    and the requests sent so far, oldest first. *)
Record state := {
  series_cache : gmap string value;
  requests : list string
}.

(** The right-hand side of [cat = ...] with its [except Exception]. *)
Definition category_of (r : response) : value :=
  match r with
  | Failed => VStr "(none)"
  | Response status_code json =>
      if status_code =? 200 then
        match res_bind json (fun body =>
              res_bind (get body "series" (VDict [])) (fun series =>
              get series "category" (VStr "(none)"))) with
        | Ok cat => cat
        | Raise _ => VStr "(none)"
        end
      else VStr "(none)"
  end.

Section Lookup.
(** The series endpoint: its answer to a request for a URL, given the
    number of requests that came before. *)
Variable series_api : nat -> string -> response.

(** [get_category] *)
Definition get_category (event_ticker : string) (st : state) : value * state :=
  let series_ticker := extract_series_ticker event_ticker in
  if String.eqb series_ticker "" then (VStr "(none)", st)
  else
    match series_cache st !! series_ticker with
    | Some cat => (cat, st)
    | None =>
        let url := BASE_URL +:+ "/series/" +:+ series_ticker in
        let cat := category_of (series_api (length (requests st)) url) in
        (cat, {| series_cache := <[series_ticker := cat]> (series_cache st);
                 requests := requests st ++ [url] |})
    end.

(** The state after the lookups of a list of event tickers, in order. *)
Definition lookups (event_tickers : list string) (st : state) : state :=
  foldl (fun st ev => snd (get_category ev st)) st event_tickers.

(** A lookup leaves every entry of the cache as it is. *)
Lemma get_category_preserves ev st k v :
  series_cache st !! k = Some v ->
  series_cache (snd (get_category ev st)) !! k = Some v.
Proof.
  intros Hk. unfold get_category.
  destruct (String.eqb (extract_series_ticker ev) ""); [exact Hk|].
  destruct (series_cache st !! extract_series_ticker ev) eqn:Hs; [exact Hk|].
  simpl. rewrite lookup_insert_ne; [exact Hk|]. congruence.
Qed.

Lemma lookups_preserve evs st k v :
  series_cache st !! k = Some v ->
  series_cache (lookups evs st) !! k = Some v.
Proof.
  revert st. induction evs as [|ev evs IH]; intros st Hk; [exact Hk|].
  simpl. apply IH. apply get_category_preserves. exact Hk.
Qed.

(** A ticker found in the cache is answered from it: no request, no
    change of state. *)
Lemma get_category_hit ev st v :
  extract_series_ticker ev <> "" ->
  series_cache st !! extract_series_ticker ev = Some v ->
  get_category ev st = (v, st).
Proof.
  intros Hne Hs. unfold get_category.
  destruct (String.eqb_spec (extract_series_ticker ev) ""); [contradiction|].
  rewrite Hs. reflexivity.
Qed.

(** After a lookup the series ticker is in the cache with the value
    returned. *)
Lemma get_category_cached ev st :
  extract_series_ticker ev <> "" ->
  series_cache (snd (get_category ev st)) !! extract_series_ticker ev
    = Some (fst (get_category ev st)).
Proof.
  intros Hne. unfold get_category.
  destruct (String.eqb_spec (extract_series_ticker ev) ""); [contradiction|].
  destruct (series_cache st !! extract_series_ticker ev) eqn:Hs; simpl.
  - exact Hs.
  - apply lookup_insert_eq.
Qed.
End Lookup.
End Scraper.

(** ** model/scripts/scrapeAllCategories.py: slugs, the candle filter, the
    retrying request *)

Module ScraperTools.
Import Py.

Definition RETRY_SLEEP : Z := 30.

(** [s.replace(old, new)] for single characters. *)
Fixpoint replace_char (old new : ascii) (s : string) : string :=
  match s with
  | EmptyString => EmptyString
  | String c s' =>
      String (if Ascii.eqb c old then new else c) (replace_char old new s')
  end.

(** [s.lower()] *)
Fixpoint lower_string (s : string) : string :=
  match s with
  | EmptyString => EmptyString
  | String c s' => String (lower c) (lower_string s')
  end.

(** [category_slug]: [cat.lower().replace(" ", "_").replace("/", "_")] *)
Definition category_slug (cat : string) : string :=
  replace_char "/" "_" (replace_char " " "_" (lower_string cat)).

(** [x is None] *)
Definition is_none (v : value) : bool :=
  match v with VNone => true | _ => false end.

(** [MAX_BID_ASK_SPREAD = 0.40] *)
Definition MAX_BID_ASK_SPREAD : pyfloat := round64 (40 # 100).

(** [candle_passes] *)
Definition candle_passes (c : value) : res bool :=
  res_bind (get c "volume" VNone) (fun volume =>
  res_bind (to_float (py_or volume (VInt 0))) (fun vol =>
  if negb (truthy (VFloat vol)) then Ok false
  else
  res_bind (get c "price" VNone) (fun price0 =>
  let price := py_or price0 (VDict []) in
  res_bind (get price "close" VNone) (fun price_close =>
  if is_none price_close then Ok false
  else
  res_bind (get c "yes_bid" VNone) (fun yes_bid0 =>
  let yes_bid := py_or yes_bid0 (VDict []) in
  res_bind (get c "yes_ask" VNone) (fun yes_ask0 =>
  let yes_ask := py_or yes_ask0 (VDict []) in
  res_bind (get yes_bid "close" VNone) (fun bid_close =>
  res_bind (get yes_ask "close" VNone) (fun ask_close =>
  if is_none bid_close || is_none ask_close then Ok false
  else
  res_bind (to_float ask_close) (fun ask =>
  res_bind (to_float bid_close) (fun bid =>
  let spread := float_sub ask bid in
  Ok (float_le spread MAX_BID_ASK_SPREAD))))))))))).

(** What one request comes to: an exception, or a response with its status
    code and what [resp.json()] gives. *)
Inductive attempt :=
| Raised (e : exn_class)
| Answered (status_code : Z) (json : res value).

(** What [get_with_retry] does to the outside, in order. *)
Inductive retry_event :=
| Requested (url : string)
| Logged_line
| Slept (seconds : Z).

Section Retry.
(** The answers of the server to the successive requests. *)
Variable attempts : nat -> attempt.

(** [get_with_retry], with fuel for the turns of [while True:]; [n] is the
    number of requests made before, [tr] the trace so far. A 429 and a
    [requests.RequestException] are logged and slept on, then the request is
    made again; any other response is returned, any other exception
    raised. *)
Fixpoint get_with_retry_from (fuel : nat) (url : string) (n : nat)
    (tr : list retry_event) : option (res (Z * res value) * list retry_event) :=
  match fuel with
  | O => None
  | S fuel' =>
      let tr1 := tr ++ [Requested url] in
      match attempts n with
      | Answered status_code json =>
          if status_code =? 429 then
            get_with_retry_from fuel' url (S n)
              (tr1 ++ [Logged_line; Slept RETRY_SLEEP])
          else Some (Ok (status_code, json), tr1)
      | Raised e =>
          if caught_by [RequestException] e then
            get_with_retry_from fuel' url (S n)
              (tr1 ++ [Logged_line; Slept RETRY_SLEEP])
          else Some (Raise e, tr1)
      end
  end.

Definition get_with_retry (fuel : nat) (url : string)
  : option (res (Z * res value) * list retry_event) :=
  get_with_retry_from fuel url 0 [].

(** The request [n] is answered with a 429 or fails with a
    [RequestException]. *)
Definition retried (n : nat) : bool :=
  match attempts n with
  | Answered status_code _ => status_code =? 429
  | Raised e => caught_by [RequestException] e
  end.
End Retry.
End ScraperTools.

(** ** model/scripts/scrapeAllCategories.py: the CSV writers *)

Module Writers.
Import Py.

Definition DATA_DIR : string := "data".

(** [os.path.join(DATA_DIR, f"kalshi_{slug}_{suffix}.csv")], with the
    separator of POSIX. *)
Definition csv_path (slug suffix : string) : string :=
  DATA_DIR +:+ "/" +:+ "kalshi_" +:+ slug +:+ "_" +:+ suffix +:+ ".csv".

(** What the writers do to the file system and the log, in order.
    [Opened] is [open(path, "w", ...)], which creates the file or empties
    it. *)
Inductive file_event :=
| Opened (path : string)
| Header_written (path : string)
| Logged_new_file (path : string)
| File_closed (path : string).

(** A dictionary of writers, in insertion order: the slug and the path of
    the file that the entry holds open. *)
Definition writers := list (string * string).

(** [writers[slug]], if [slug in writers]. *)
Fixpoint writer_of (ws : writers) (slug : string) : option string :=
  match ws with
  | [] => None
  | (k, path) :: rest =>
      if String.eqb k slug then Some path else writer_of rest slug
  end.

(** [get_writer]; the writer returned is named by the path of its file.
    [open], [writeheader] and [log] are taken to return. *)
Definition get_writer (ws : writers) (slug suffix : string)
    (tr : list file_event) : string * writers * list file_event :=
  match writer_of ws slug with
  | Some path => (path, ws, tr)
  | None =>
      let path := csv_path slug suffix in
      (path, ws ++ [(slug, path)],
       tr ++ [Opened path; Header_written path; Logged_new_file path])
  end.

(** The module state of the writers: [writers_1d], [writers_1h] and the
    events so far. *)
Record files := {
  writers_1d : writers;
  writers_1h : writers;
  file_events : list file_event
}.

(** [writers_1d = {}], [writers_1h = {}] *)
Definition no_files : files :=
  {| writers_1d := []; writers_1h := []; file_events := [] |}.

(** The two call sites in [main]: [writers_1d] goes with ["candles_1d"],
    [writers_1h] with ["candles_1h"]. *)
Inductive period := Daily | Hourly.

Definition suffix_of (p : period) : string :=
  match p with Daily => "candles_1d" | Hourly => "candles_1h" end.

(** [get_writer(writers, slug, suffix)] as [fetch_and_write_candles] calls
    it for the dictionary it was given. *)
Definition writer_call (p : period) (slug : string) (st : files)
  : string * files :=
  match p with
  | Daily =>
      let '(w, ws, tr) :=
        get_writer (writers_1d st) slug (suffix_of Daily) (file_events st) in
      (w, {| writers_1d := ws; writers_1h := writers_1h st; file_events := tr |})
  | Hourly =>
      let '(w, ws, tr) :=
        get_writer (writers_1h st) slug (suffix_of Hourly) (file_events st) in
      (w, {| writers_1d := writers_1d st; writers_1h := ws; file_events := tr |})
  end.

(** The state after a run of such calls. *)
Definition writer_calls (calls : list (period * string)) (st : files) : files :=
  foldl (fun st call => snd (writer_call (fst call) (snd call) st)) st calls.

(** [close_all_writers] *)
Definition close_all_writers (st : files) : files :=
  {| writers_1d := writers_1d st;
     writers_1h := writers_1h st;
     file_events :=
       file_events st
       ++ map (fun entry => File_closed (snd entry)) (writers_1d st)
       ++ map (fun entry => File_closed (snd entry)) (writers_1h st) |}.

(** The files opened, the files whose header was written and the files
    closed in a trace, in order. *)
Definition opened (tr : list file_event) : list string :=
  omap (fun e => match e with Opened p => Some p | _ => None end) tr.

Definition headers (tr : list file_event) : list string :=
  omap (fun e => match e with Header_written p => Some p | _ => None end) tr.

Definition closed (tr : list file_event) : list string :=
  omap (fun e => match e with File_closed p => Some p | _ => None end) tr.
End Writers.

(** ** Edge detection *)

Module EdgeDetector.
Import Models.

Local Open Scope Q_scope.

(** Modelled from the spec: the edge detector of section 4.6, of which the
    repository has the [Edge] model only. The system-wide floor, whose
    default is 0.05. *)
Definition EDGE_FLOOR : Q := 5 # 100.

(** Modelled from the spec: section 4.6. Given the market's [yes_price] and
    the model's probability, compute
    [edge_magnitude = model_probability - yes_price]; when its absolute
    value is at or above the floor, the new [Edge] row, with direction
    ["YES"] if the magnitude is positive and ["NO"] otherwise and
    [alert_sent] left at the default of the column; below the floor, no
    row. Probabilities are rationals. *)
Definition detect_edge (market : Z) (yes_price model_prob : Q) : option Edge :=
  let magnitude := model_prob - yes_price in
  if Qle_bool EDGE_FLOOR (Qabs magnitude) then
    Some {| edge_market_id := market;
            market_probability := yes_price;
            model_probability := model_prob;
            edge_magnitude := magnitude;
            direction := if Qle_bool magnitude 0 then "NO" else "YES";
            alert_sent := alert_sent_default |}
  else None.
End EdgeDetector.
(** * The claims of the specification *)

Section ChunkingClaims.
Import PySlice Chunker.
Context {A : Type}.
Implicit Types (text : list A).

(** C4 (as the code has it). On a text of 4500 characters
    [chunk_text(text, 2000)] returns exactly three chunks, of lengths 2000,
    2000 and 900 (the stride is [chunk_size - overlap = 1800], so the third
    chunk starts at 3600), and [chunk[i][-200:] == chunk[i+1][:200]] holds
    for both consecutive pairs. *)
Theorem chunk_text_4500 text :
  length text = 4500%nat ->
  exists c0 c1 c2,
    chunk_text_returns text CHUNK_SIZE [c0; c1; c2] /\
    length c0 = 2000%nat /\ length c1 = 2000%nat /\ length c2 = 900%nat /\
    py_slice_from c0 (- overlap) = py_slice_to c1 overlap /\
    py_slice_from c1 (- overlap) = py_slice_to c2 overlap.
Proof.
  intros Hlen.
  assert (len text = 4500) as HL by (unfold len; lia).
  pose proof (chunk_text_closed_form text CHUNK_SIZE ltac:(reflexivity)) as Hcf.
  assert (chunk_text_returns text CHUNK_SIZE
            (map (chunk_at text CHUNK_SIZE 0)
                 (seq 0 (iterations text CHUNK_SIZE 0)))) as Hr
    by (eexists; exact Hcf).
  pose proof (chunk_text_4500_shape text _ Hlen Hr) as Hshape.
  rewrite Hshape in Hr.
  exists (py_slice text 0 2000), (py_slice text 1800 3800),
         (py_slice text 3600 4500).
  assert (forall s e, 0 <= s -> s <= e -> e <= 4500 ->
            length (py_slice text s e) = Z.to_nat (e - s)) as Hlength.
  { intros s e Hs Hse He.
    pose proof (py_slice_length text s e Hs Hse ltac:(lia)) as H.
    unfold len in H. lia. }
  split; [exact Hr|].
  rewrite !Hlength by lia.
  repeat split; try reflexivity.
  - pose proof (chunk_at_overlap text CHUNK_SIZE 0 ltac:(reflexivity)) as Ho.
    unfold chunk_at, CHUNK_SIZE, overlap in Ho. rewrite HL in Ho.
    simpl in Ho. specialize (Ho ltac:(lia)).
    rewrite py_slice_length in Ho by lia. exact Ho.
  - pose proof (chunk_at_overlap text CHUNK_SIZE 1 ltac:(reflexivity)) as Ho.
    unfold chunk_at, CHUNK_SIZE, overlap in Ho. rewrite HL in Ho.
    simpl in Ho. specialize (Ho ltac:(lia)).
    rewrite py_slice_length in Ho by lia. exact Ho.
Qed.

(** C5 (as the code has it). For every text, [chunk_text(text)] returns; its
    [i]-th chunk is the substring [text[1800*i : min(1800*i + 2000, len)]],
    non-empty and of length at most 2000; of two consecutive chunks the second
    one starts with the last [min(200, len(second))] characters of the first,
    so [chunk[i][-200:] == chunk[i+1][:200]] whenever the second chunk has at
    least 200 characters. *)
Theorem chunk_text_chunks text :
  exists r,
    chunk_text_returns text CHUNK_SIZE r /\
    (forall (i : nat) c, r !! i = Some c ->
       c = py_slice text (1800 * Z.of_nat i)
                    (Z.min (1800 * Z.of_nat i + CHUNK_SIZE) (len text)) /\
       0 < len c <= CHUNK_SIZE /\
       exists pre post, text = pre ++ c ++ post) /\
    (forall (i : nat) c c', r !! i = Some c -> r !! S i = Some c' ->
       py_slice_from c (- Z.min overlap (len c')) = py_slice_to c' overlap /\
       (overlap <= len c' ->
        py_slice_from c (- overlap) = py_slice_to c' overlap)).
Proof.
  assert (overlap < CHUNK_SIZE) as Hd by reflexivity.
  eexists. split; [eexists; apply chunk_text_closed_form; exact Hd|].
  set (r := map _ _).
  assert (chunk_text_returns text CHUNK_SIZE r) as Hr
    by (eexists; apply chunk_text_closed_form; exact Hd).
  split.
  - intros i c Hi.
    destruct (chunk_text_lookup text CHUNK_SIZE r i c Hd Hr Hi) as [-> Hlt].
    pose proof (chunk_at_length text CHUNK_SIZE i Hd Hlt) as Hlen.
    unfold CHUNK_SIZE, overlap in *.
    split; [|split].
    + unfold chunk_at, overlap. f_equal; [|f_equal]; lia.
    + lia.
    + apply py_slice_substring.
  - intros i c c' Hi Hi'.
    destruct (chunk_text_lookup text CHUNK_SIZE r i c Hd Hr Hi) as [-> _].
    destruct (chunk_text_lookup text CHUNK_SIZE r (S i) c' Hd Hr Hi')
      as [-> Hlt].
    pose proof (chunk_at_overlap text CHUNK_SIZE i Hd Hlt) as Ho.
    simpl in Ho. split; [exact Ho|].
    intros Hbig. rewrite Z.min_l in Ho by exact Hbig. exact Ho.
Qed.

(** C10. [chunk_text(text, chunk_size)] returns for every text when
    [chunk_size > 200]: each iteration moves [start] forward by
    [chunk_size - 200 > 0], and [length text + 1] tests of the guard are
    enough. On the empty text it returns the empty list whatever the chunk
    size. With [chunk_size <= 200] and a non-empty text the loop never
    ends. *)
Theorem chunk_text_termination text (chunk_size : Z) :
  (overlap < chunk_size ->
     (exists r, chunk_text_fuel (S (length text)) text chunk_size = Some r) /\
     (forall st : loop_state,
        start (loop_body text chunk_size st)
          = start st + (chunk_size - overlap) /\
        start st < start (loop_body text chunk_size st))) /\
  chunk_text_fuel 1 (@nil A) chunk_size = Some [] /\
  (chunk_size <= overlap -> text <> [] ->
     chunk_text_diverges text chunk_size).
Proof.
  split; [|split].
  - intros Hd. split.
    + eexists.
      eapply chunk_loop_more_fuel;
        [apply chunk_text_closed_form; exact Hd|].
      pose proof (iterations_bound text chunk_size 0 Hd ltac:(lia)). lia.
    + intros st. simpl. lia.
  - reflexivity.
  - intros Hcs Hne fuel. apply chunk_loop_stuck; simpl; try lia.
    destruct text; [congruence|]. unfold len. simpl. lia.
Qed.
End ChunkingClaims.

(** C4, witness: a text of 4500 characters. *)
Lemma chunk_text_4500_witness :
  exists c0 c1 c2 : list ascii,
    Chunker.chunk_text_returns (replicate 4500 "a"%char) Chunker.CHUNK_SIZE
      [c0; c1; c2] /\
    length c0 = 2000%nat /\ length c1 = 2000%nat /\ length c2 = 900%nat /\
    PySlice.py_slice_from c0 (- Chunker.overlap)
      = PySlice.py_slice_to c1 Chunker.overlap /\
    PySlice.py_slice_from c1 (- Chunker.overlap)
      = PySlice.py_slice_to c2 Chunker.overlap.
Proof.
  apply (chunk_text_4500 (replicate 4500 "a"%char)).
  apply length_replicate.
Defined.

(** C4, counterexample: on 4500 characters the third chunk has 900
    characters, not 500. *)
Lemma chunk_text_4500_not_500 :
  exists r : list (list ascii),
    Chunker.chunk_text_returns (replicate 4500 "a"%char) Chunker.CHUNK_SIZE r /\
    map length r = [2000; 2000; 900]%nat /\
    map length r <> [2000; 2000; 500]%nat.
Proof.
  exists (map (Chunker.chunk_at (replicate 4500 "a"%char) Chunker.CHUNK_SIZE 0)
              (seq 0 3)).
  split; [exists 4%nat; vm_compute; reflexivity|].
  split; [vm_compute; reflexivity|].
  vm_compute. intros H. discriminate H.
Qed.

(** C5, counterexample: on 1900 characters there are two chunks, of 1900 and
    100 characters; the last 200 characters of the first are not the first
    200 (that is, all 100) of the second. *)
Lemma chunk_text_1900_overlap_100 :
  exists c c' : list ascii,
    Chunker.chunk_text_returns (replicate 1900 "a"%char) Chunker.CHUNK_SIZE
      [c; c'] /\
    length c = 1900%nat /\ length c' = 100%nat /\
    PySlice.py_slice_from c (- 200) <> PySlice.py_slice_to c' 200.
Proof.
  exists (replicate 1900 "a"%char), (replicate 100 "a"%char).
  split; [exists 3%nat; vm_compute; reflexivity|].
  split; [apply length_replicate|].
  split; [apply length_replicate|].
  intros H. apply (f_equal length) in H. vm_compute in H. discriminate H.
Qed.

(** C5, witness: 2500 characters give chunks of 2000 and 700 characters
    that share 200 characters. *)
Lemma chunk_text_chunks_witness :
  exists c c' : list ascii,
    Chunker.chunk_text_returns (replicate 2500 "a"%char) Chunker.CHUNK_SIZE
      [c; c'] /\
    length c = 2000%nat /\ length c' = 700%nat /\
    PySlice.py_slice_from c (- 200) = PySlice.py_slice_to c' 200.
Proof.
  destruct (chunk_text_chunks (replicate 2500 "a"%char))
    as (r & Hr & _ & Hov).
  assert (Chunker.chunk_text_returns (replicate 2500 "a"%char)
            Chunker.CHUNK_SIZE
            [replicate 2000 "a"%char; replicate 700 "a"%char]) as Hr'
    by (exists 3%nat; vm_compute; reflexivity).
  pose proof (Chunker.chunk_text_returns_unique _ _ _ _ Hr Hr') as ->.
  exists (replicate 2000 "a"%char), (replicate 700 "a"%char).
  split; [exact Hr'|].
  split; [apply length_replicate|].
  split; [apply length_replicate|].
  apply (Hov 0%nat _ _ eq_refl eq_refl). vm_compute. discriminate.
Defined.

(** C10, witness: a size above the overlap returns, a size at the overlap
    does not. *)
Lemma chunk_text_termination_witness :
  (exists r, Chunker.chunk_text_fuel 4 ["a"; "b"; "c"]%char 201 = Some r) /\
  Chunker.chunk_text_diverges ["a"; "b"; "c"]%char 200.
Proof.
  pose proof (chunk_text_termination ["a"; "b"; "c"]%char 201) as [H1 _].
  pose proof (chunk_text_termination ["a"; "b"; "c"]%char 200) as [_ [_ H2]].
  split.
  - apply H1. reflexivity.
  - apply H2; [vm_compute; discriminate | discriminate].
Defined.

(** ** Normalisation and persistence of markets *)

Module MarketExamples.
Import Py Kafka MarketsConsumer.

(** An empty table and an empty trace. *)
Definition w0 : world := World [] [].

(** [{"ticker": "FED-25JUL", "yes_bid": 44, "yes_ask": 46, "status": "open"}] *)
Definition kalshi_fed_fields : list (string * value) :=
  [("ticker", VStr "FED-25JUL"); ("yes_bid", VInt 44);
   ("yes_ask", VInt 46); ("status", VStr "open")].

Definition kalshi_fed : value := VDict kalshi_fed_fields.

(** What [normalize_kalshi] makes of it. *)
Definition kalshi_fed_normalized : normalized :=
  {| platform := "kalshi";
     external_id := VStr "FED-25JUL";
     title := VStr "";
     category := VStr "";
     close_time := VNone;
     yes_price := round64 (90 # 200);
     volume := VInt 0;
     is_open := VBool true |}.

(** [{"ticker": "T", "yes_bid": 150, "yes_ask": 160}] *)
Definition kalshi_above_100 : value :=
  VDict [("ticker", VStr "T"); ("yes_bid", VInt 150); ("yes_ask", VInt 160)].

(** [{"question": "Rain tomorrow?", "outcomePrices": ["0.62", "0.38"],
      "volume": "1000"}]: neither [conditionId] nor [id]. *)
Definition poly_no_id : value :=
  VDict [("question", VStr "Rain tomorrow?");
         ("outcomePrices", VList [VStr "0.62"; VStr "0.38"]);
         ("volume", VStr "1000")].

(** [{"conditionId": "0xabc", "outcomePrices": []}] *)
Definition poly_empty_prices : value :=
  VDict [("conditionId", VStr "0xabc"); ("outcomePrices", VList [])].

(** [{"conditionId": "0xabc", "outcomePrices": ["0.62"], "volume": "n/a"}] *)
Definition poly_bad_volume : value :=
  VDict [("conditionId", VStr "0xabc");
         ("outcomePrices", VList [VStr "0.62"]); ("volume", VStr "n/a")].

(** [{"conditionId": "0xabc", "outcomePrices": ["1.5", "-0.5"]}] *)
Definition poly_above_one : value :=
  VDict [("conditionId", VStr "0xabc");
         ("outcomePrices", VList [VStr "1.5"; VStr "-0.5"])].

(** [{"conditionId": "0xabc", "outcomePrices": ["1.0000000000000000001"]}]:
    the price string denotes a number above 1. *)
Definition poly_just_above_one : value :=
  VDict [("conditionId", VStr "0xabc");
         ("outcomePrices", VList [VStr "1.0000000000000000001"])].

(** A message on the Polymarket topic; its bytes are immaterial to
    [handle]. *)
Definition poly_msg : message :=
  {| msg_topic := "polymarket.markets"; msg_partition := 0; msg_offset := 7;
     msg_value := []; msg_error := None |}.

(** A decoder that reads the empty object from the bytes ["{}"] and fails
    on the empty input. *)
Definition decode_stub (bytes : list Byte.byte) : res value :=
  match bytes with
  | [] => Raise JSONDecodeError
  | _ => Ok (VDict [])
  end.
End MarketExamples.

Section MarketClaims.
Import Py FloatFacts Kafka MarketsConsumer MarketExamples.

(** C1 (the code at the failing input). [upsert_market] only logs at debug
    level: calling it twice leaves the table [markets] as it was, so on an
    empty table no row keyed by the market's [external_id] exists
    afterwards, where the claim asks for exactly one. *)
Theorem upsert_market_writes_no_row :
  (forall n (w : world),
     table (after (upsert_market n;; upsert_market n) w) = table w) /\
  (forall n key,
     rows_keyed key (after (upsert_market n;; upsert_market n) w0) = []) /\
  (exists n,
     result (normalize_kalshi kalshi_fed) w0 = Ok (Some n) /\
     external_id n = VStr "FED-25JUL" /\
     length (rows_keyed "FED-25JUL"
               (after (upsert_market n;; upsert_market n) w0)) <> 1%nat).
Proof.
  split; [|split].
  - intros n w. reflexivity.
  - intros n key. reflexivity.
  - eexists. split; [vm_compute; reflexivity|].
    split; [reflexivity|]. simpl. discriminate.
Qed.

(** C3, counterexample. A Polymarket payload without identifier is not
    rejected: it is normalised with [external_id = ""] and handed to
    [upsert_market]; an empty [outcomePrices] list raises [IndexError] out of
    [normalize_polymarket]; a payload with identifier and a price that
    parses is rejected for its volume. *)
Lemma normalize_polymarket_not_as_claimed :
  (exists n,
     result (normalize_polymarket poly_no_id) w0 = Ok (Some n) /\
     external_id n = VStr "" /\
     upsert_calls (trace (after (handle poly_msg poly_no_id) w0)) = [n]) /\
  result (normalize_polymarket poly_empty_prices) w0 = Raise IndexError /\
  result (normalize_polymarket poly_bad_volume) w0 = Ok None.
Proof.
  split; [|split].
  - eexists. split; [vm_compute; reflexivity|].
    split; vm_compute; reflexivity.
  - vm_compute. reflexivity.
  - vm_compute. reflexivity.
Qed.

(** C3 (as the code has it). [normalize_kalshi] returns [None] exactly when
    the payload is not a dictionary, or has no [ticker], or [yes_bid] and
    [yes_ask] are not both numbers; with numbers in the range of floats it
    does not raise. [normalize_polymarket] raises [AttributeError] on a
    payload that is not a dictionary and does not reject a missing
    identifier ([external_id] falls back to [id] and then to [""]). On a
    dictionary it returns [None] when [outcomePrices] is a dictionary, a
    number, a boolean or null; it raises [IndexError] when [outcomePrices]
    is an empty list or an empty string; and when [outcomePrices] has a first
    element (of a list, or the first character of a string), with numbers in
    the range of floats, it does not raise and returns [None] exactly when
    [float()] fails on that element or on the volume. In [run], a payload
    normalised to [None] adds no call of [upsert_market]. *)
Theorem normalize_rejections (decode_json : list Byte.byte -> res value) :
  (forall raw w, (forall d, raw <> VDict d) ->
     result (normalize_kalshi raw) w = Ok None /\
     result (normalize_polymarket raw) w = Raise AttributeError) /\
  (forall d w,
     let bid := field d "yes_bid" (VInt 0) in
     let ask := field d "yes_ask" (VInt 0) in
     (result (normalize_kalshi (VDict d)) w = Ok None <->
        dict_get d "ticker" = None \/ is_number bid && is_number ask = false) /\
     (in_float_range bid = true -> in_float_range ask = true ->
      forall e, result (normalize_kalshi (VDict d)) w <> Raise e)) /\
  (forall d w,
     match field d "outcomePrices" (VList [VStr "0"]) with
     | VList [] | VStr EmptyString =>
         result (normalize_polymarket (VDict d)) w = Raise IndexError
     | VDict _ | VNone | VBool _ | VInt _ | VFloat _ =>
         result (normalize_polymarket (VDict d)) w = Ok None
     | VList (_ :: _) | VStr (String _ _) => True
     end) /\
  (forall d first w,
     let vol := field d "volume" (VInt 0) in
     subscript0 (field d "outcomePrices" (VList [VStr "0"])) = Ok first ->
     in_float_range first = true -> in_float_range vol = true ->
     (result (normalize_polymarket (VDict d)) w = Ok None <->
        float_convertible first && float_convertible vol = false) /\
     (forall e, result (normalize_polymarket (VDict d)) w <> Raise e) /\
     (forall n, result (normalize_polymarket (VDict d)) w = Ok (Some n) ->
        external_id n = field d "conditionId" (field d "id" (VStr "")))) /\
  (forall msg raw w,
     msg_error msg = None -> decode_json (msg_value msg) = Ok raw ->
     result (normalize_by_topic (msg_topic msg) raw) w = Ok None ->
     upsert_calls (trace (after (iteration decode_json (Some msg)) w))
       = upsert_calls (trace w)).
Proof.
  split; [|split; [|split; [|split]]].
  - intros raw w Hnd. split.
    + rewrite normalize_kalshi_result.
      rewrite normalize_kalshi_not_dict by exact Hnd. reflexivity.
    + rewrite normalize_polymarket_result.
      destruct raw; try reflexivity. exfalso. eapply Hnd. reflexivity.
  - intros d w bid ask. rewrite normalize_kalshi_result.
    rewrite normalize_kalshi_dict_unfold. fold bid ask.
    destruct (dict_get d "ticker") as [t|].
    + destruct (is_number bid && is_number ask) eqn:Hnum.
      * apply andb_true_iff in Hnum as [Hb Ha]. split.
        -- destruct (kalshi_price_numbers bid ask Hb Ha) as [[f ->] | ->];
             simpl; split; try discriminate; intros [H|H]; discriminate.
        -- intros Hrb Hra e.
           destruct (kalshi_price_in_range bid ask Hb Ha Hrb Hra) as [f ->].
           simpl. discriminate.
      * rewrite (kalshi_price_not_numbers bid ask Hnum). simpl.
        split; [split; auto | intros _ _ e; discriminate].
    + simpl. split; [split; auto | intros _ _ e; discriminate].
  - intros d w.
    rewrite normalize_polymarket_result, polymarket_dict_unfold.
    unfold polymarket_price.
    destruct (field d "outcomePrices" (VList [VStr "0"])) as [|b|z|f|s|l|d'];
      try reflexivity.
    + destruct s; [reflexivity | exact I].
    + destruct l; [reflexivity | exact I].
  - intros d first w vol Hprices Hrf Hrv.
    rewrite normalize_polymarket_result, polymarket_dict_unfold.
    unfold polymarket_price. rewrite Hprices. fold vol. cbn [res_bind].
    pose proof (to_float_convertible first Hrf) as Hf.
    pose proof (to_float_convertible vol Hrv) as Hv.
    destruct (float_convertible first).
    + destruct Hf as [f ->]. cbn [res_bind].
      destruct (float_convertible vol).
      * destruct Hv as [g ->]. cbn [res_bind andb].
        split; [split; discriminate|].
        split; [intros e; discriminate|].
        intros n Hn. injection Hn as <-. reflexivity.
      * cbn [andb].
        destruct Hv as [-> | ->]; cbn [res_bind];
          (split; [split; reflexivity|]);
          (split; [intros e; discriminate|]);
          intros n Hn; discriminate.
    + cbn [andb].
      destruct Hf as [-> | ->]; cbn [res_bind];
        (split; [split; reflexivity|]);
        (split; [intros e; discriminate|]);
        intros n Hn; discriminate.
  - intros msg raw w Herr Hdec Hnone.
    unfold iteration. rewrite Herr, Hdec.
    unfold process, handle, after, result in *.
    destruct (normalize_by_topic_silent (msg_topic msg) raw w)
      as (evs & Hevs & Hsilent).
    unfold after in Hevs.
    unfold mbind, M_bind, bind.
    destruct (normalize_by_topic (msg_topic msg) raw w) as [r w1].
    simpl in Hnone, Hevs. subst r w1. simpl.
    rewrite !upsert_calls_app, (upsert_calls_silent evs Hsilent).
    simpl. rewrite !app_nil_r. reflexivity.
Qed.

(** C6, counterexample. Prices above 100 cents, or a price string above 1,
    are normalised to a [yes_price] outside [0, 1]; and a price string that
    denotes a number above 1 can still give a [yes_price] in [0, 1], because
    [float()] rounds. *)
Lemma yes_price_outside_unit_interval :
  (exists n,
     result (normalize_kalshi kalshi_above_100) w0 = Ok (Some n) /\
     yes_price n = round64 (310 # 200) /\
     in_unit_interval (yes_price n) = false) /\
  (exists n,
     result (normalize_polymarket poly_above_one) w0 = Ok (Some n) /\
     yes_price n = FNum (3 # 2) /\
     in_unit_interval (yes_price n) = false) /\
  (exists n,
     result (normalize_polymarket poly_just_above_one) w0 = Ok (Some n) /\
     read_float "1.0000000000000000001"
       = Some (LNum (10000000000000000001 # 10000000000000000000)) /\
     yes_price n = FNum 1 /\
     in_unit_interval (yes_price n) = true).
Proof.
  split; [|split]; eexists; (split; [vm_compute; reflexivity|]);
    repeat split; vm_compute; reflexivity.
Qed.

(** C6 (as the code has it). When [normalize_kalshi] succeeds on integer
    [yes_bid] and [yes_ask], [yes_price] is [(yes_bid + yes_ask) / 200]
    rounded to a float, and it lies in [0, 1] exactly when
    [0 <= yes_bid + yes_ask <= 200]. When [normalize_polymarket] succeeds
    on a list whose first element is a string, the string is well formed
    and [yes_price] is the float nearest to what it denotes (["0"] when
    [outcomePrices] is absent): in [0, 1] whenever the number denoted is,
    outside whenever that number is at least [1 + 2^-52] or at most
    [-2^-1074], and outside for an infinity or [nan]. Whatever the first
    element of [outcomePrices] is, [yes_price] is what [float()] returns for
    it. Neither normaliser checks or clamps the range. *)
Theorem yes_price_value :
  (forall d n w (x y : Z),
     result (normalize_kalshi (VDict d)) w = Ok (Some n) ->
     field d "yes_bid" (VInt 0) = VInt x ->
     field d "yes_ask" (VInt 0) = VInt y ->
     yes_price n = round64 ((x + y) # 200) /\
     (in_unit_interval (yes_price n) = true <-> 0 <= x + y <= 200)) /\
  (forall d n w s rest,
     result (normalize_polymarket (VDict d)) w = Ok (Some n) ->
     field d "outcomePrices" (VList [VStr "0"]) = VList (VStr s :: rest) ->
     exists l,
       read_float s = Some l /\
       yes_price n = float_of_literal l /\
       match l with
       | LNum q =>
           ((0 <= q <= 1)%Q -> in_unit_interval (yes_price n) = true) /\
           ((q <= - MIN_SUBNORMAL \/ ONE_PLUS_ULP <= q)%Q ->
            in_unit_interval (yes_price n) = false)
       | LInf _ | LNan => in_unit_interval (yes_price n) = false
       end) /\
  (forall d n w first,
     result (normalize_polymarket (VDict d)) w = Ok (Some n) ->
     subscript0 (field d "outcomePrices" (VList [VStr "0"])) = Ok first ->
     to_float first = Ok (yes_price n)).
Proof.
  split; [|split].
  - intros d n w x y Hres Hb Ha.
    rewrite normalize_kalshi_result, normalize_kalshi_dict_unfold in Hres.
    destruct (dict_get d "ticker") as [t|]; [|discriminate].
    rewrite Hb, Ha in Hres.
    unfold kalshi_price, add, truediv_const in Hres.
    cbn [as_int res_bind] in Hres.
    destruct (Z.abs (x + y) <? 200 * FLOAT_LIMIT); [|discriminate].
    cbn [res_bind] in Hres. injection Hres as <-. cbn [yes_price].
    split; [reflexivity|]. split.
    + intros Hin.
      destruct (Z.lt_ge_cases (x + y) 0) as [Hneg|Hpos].
      * rewrite round64_not_unit in Hin; [discriminate|]. left.
        apply Qle_trans with (- (1 # 200))%Q; [|vm_compute; discriminate].
        unfold Qle. simpl. lia.
      * destruct (Z.le_gt_cases (x + y) 200) as [Hle|Hgt]; [lia|].
        rewrite round64_not_unit in Hin; [discriminate|]. right.
        apply Qle_trans with (201 # 200)%Q; [vm_compute; discriminate|].
        unfold Qle. simpl. lia.
    + intros Hrange. apply round64_unit. unfold Qle. simpl. lia.
  - intros d n w s rest Hres Hp.
    rewrite normalize_polymarket_result, polymarket_dict_unfold in Hres.
    rewrite Hp in Hres. unfold polymarket_price in Hres.
    cbn [subscript0 res_bind to_float] in Hres. unfold parse_float in Hres.
    destruct (read_float s) as [l|]; [|discriminate].
    cbn [option_map res_bind] in Hres.
    assert (yes_price n = float_of_literal l) as Hprice.
    { destruct (to_float (field d "volume" (VInt 0))); cbn [res_bind] in Hres.
      - injection Hres as <-. reflexivity.
      - destruct (caught_by _ e); discriminate. }
    exists l. split; [reflexivity|]. split; [exact Hprice|].
    rewrite Hprice. destruct l as [q| |]; cbn [float_of_literal];
      [|reflexivity | reflexivity].
    split; [apply round64_unit | apply round64_not_unit].
  - intros d n w first Hres Hp.
    rewrite normalize_polymarket_result, polymarket_dict_unfold in Hres.
    unfold polymarket_price in Hres. rewrite Hp in Hres.
    cbn [res_bind] in Hres.
    destruct (to_float first) as [f|e]; cbn [res_bind] in Hres.
    + destruct (to_float (field d "volume" (VInt 0))); cbn [res_bind] in Hres.
      * injection Hres as <-. reflexivity.
      * destruct (caught_by _ e); discriminate.
    + destruct (caught_by _ e); discriminate.
Qed.

(** C3, witness: a Polymarket message whose volume does not parse, and a
    Kalshi message without ticker. *)
Lemma normalize_rejections_witness :
  result
    (normalize_polymarket poly_bad_volume)
    w0 = Ok None /\
  upsert_calls
    (trace
       (after
          (iteration decode_stub
             (Some {| msg_topic := "kalshi.markets";
                      msg_partition := 0; msg_offset := 3;
                      msg_value := [Byte.x7b; Byte.x7d];
                      msg_error := None |}))
          w0)) = [].
Proof.
  pose proof (normalize_rejections decode_stub)
    as (_ & _ & _ & Hpoly & Hrun).
  split.
  - apply (Hpoly _ (VStr "0.62") w0);
      vm_compute; reflexivity.
  - apply (Hrun _ (VDict []) w0); vm_compute; reflexivity.
Defined.

(** C6, witness: the Kalshi example at 44 and 46 cents. *)
Lemma yes_price_value_witness :
  result (normalize_kalshi kalshi_fed) w0 = Ok (Some kalshi_fed_normalized) /\
  yes_price kalshi_fed_normalized = round64 (90 # 200) /\
  in_unit_interval (yes_price kalshi_fed_normalized) = true.
Proof.
  assert (result (normalize_kalshi kalshi_fed) w0
          = Ok (Some kalshi_fed_normalized)) as Hres
    by (vm_compute; reflexivity).
  split; [exact Hres|].
  pose proof yes_price_value as [Hk _].
  destruct (Hk kalshi_fed_fields kalshi_fed_normalized w0 44 46
              Hres eq_refl eq_refl) as [Hv Hr].
  split; [exact Hv|]. apply Hr. lia.
Defined.
End MarketClaims.

(** ** The consumer loops *)

Module ConsumerExamples.
Import Py Kafka.


(** A message with the payload ["{}"]. *)
Definition good_msg : message :=
  {| msg_topic := "kalshi.markets"; msg_partition := 0; msg_offset := 42;
     msg_value := [Byte.x7b; Byte.x7d]; msg_error := None |}.

(** [str] on strings. *)
Definition str_stub (v : value) : string :=
  match v with VStr s => s | _ => "" end.

End ConsumerExamples.

Section ConsumerClaims.
Import Py Kafka ConsumerExamples.


End ConsumerClaims.

(** ** The producers *)

Module ProducerFacts.
Import Py Kafka Producer.

(** A world with an empty trace. *)
Definition w0 : world := World tt [].

(** Every exception is caught by the handlers of a poll cycle. *)
Lemma caught_by_Exception handled e :
  caught_by (handled ++ [Exception]) e = true.
Proof.
  unfold caught_by. rewrite existsb_app. apply orb_true_iff. right.
  destruct e; reflexivity.
Qed.

(** A body that returns is followed by no handler. *)
Lemma log_and_go_on_ok (body : M world unit) w w' :
  body w = (Ok tt, w') -> log_and_go_on body w = (Ok tt, w').
Proof. intros H. unfold log_and_go_on, try_except. rewrite H. reflexivity. Qed.

(** A body that raises is followed by the log record of its handler. *)
Lemma log_and_go_on_raise (body : M world unit) w w' e :
  body w = (Raise e, w') ->
  log_and_go_on body w = (Ok tt, extend w' [Logged ERROR]).
Proof.
  intros H. unfold log_and_go_on, try_except. rewrite H.
  change [HTTPStatusError; KafkaException; Exception]
    with ([HTTPStatusError; KafkaException] ++ [Exception]).
  rewrite caught_by_Exception. reflexivity.
Qed.

(** The loop over the records, when every record yields a key. *)
Lemma kalshi_publish_ok markets keys (w : world) :
  Forall2 (fun m k => KalshiProducer.key_of m = Ok k) markets keys ->
  KalshiProducer.publish markets w =
    (Ok tt, extend w (zip_with (Produced KalshiProducer.TOPIC) keys markets)).
Proof.
  intros H. revert w. induction H as [|m k markets keys Hk _ IH]; intros w.
  - simpl. rewrite extend_nil. reflexivity.
  - simpl. unfold mbind, M_bind, bind, lift, emit. rewrite Hk.
    rewrite IH, extend_extend. reflexivity.
Qed.

Lemma polymarket_publish_ok py_str markets keys (w : world) :
  Forall2 (fun m k => PolymarketProducer.key_of py_str m = Ok k) markets keys ->
  PolymarketProducer.publish py_str markets w =
    (Ok tt,
     extend w (zip_with (Produced PolymarketProducer.TOPIC) keys markets)).
Proof.
  intros H. revert w. induction H as [|m k markets keys Hk _ IH]; intros w.
  - simpl. rewrite extend_nil. reflexivity.
  - simpl. unfold mbind, M_bind, bind, lift, emit. rewrite Hk.
    rewrite IH, extend_extend. reflexivity.
Qed.

(** The article as it is published: tagged with its query. *)
Definition tagged (query : string) (article : value) : value :=
  match article with
  | VDict d => VDict (dict_set d "_search_query" (VStr query))
  | _ => article
  end.

(** [article.get("url", "").encode("utf-8")] *)
Definition url_key (article : value) : res string :=
  res_bind (get article "url" (VStr "")) encode.

Lemma news_publish_ok query articles keys (w : world) :
  Forall2 (fun a k => url_key a = Ok k) articles keys ->
  NewsProducer.publish query articles w =
    (Ok tt,
     extend w (zip_with (fun k a => Produced NewsProducer.TOPIC k (tagged query a))
                        keys articles)).
Proof.
  intros H. revert w. induction H as [|a k articles keys Hk _ IH]; intros w.
  - simpl. rewrite extend_nil. reflexivity.
  - simpl. unfold mbind, M_bind, bind, lift, emit. unfold url_key in Hk.
    rewrite Hk. destruct a; try discriminate Hk. simpl.
    rewrite IH, extend_extend. reflexivity.
Qed.

(** The turn of a news query whose fetch raises: the error is logged and
    the pause is skipped. *)
Lemma news_query_cycle_raise query e (w : world) :
  NewsProducer.query_cycle query (Raise e) w = (Ok tt, extend w [Logged ERROR]).
Proof.
  unfold NewsProducer.query_cycle.
  apply (log_and_go_on_raise _ w w e). reflexivity.
Qed.

(** The turns of the queries when every fetch raises. *)
Lemma news_queries_raise fetch qs (w : world) :
  (forall q, exists e, fetch q = Raise e) ->
  NewsProducer.queries fetch qs w
  = (Ok tt, extend w (map (fun _ => Logged ERROR) qs)).
Proof.
  intros Hfetch. revert w. induction qs as [|q qs IH]; intros w.
  - simpl. rewrite extend_nil. reflexivity.
  - destruct (Hfetch q) as [e He]. cbn [NewsProducer.queries map].
    unfold mbind at 1, M_bind at 1, bind at 1.
    rewrite He, news_query_cycle_raise, IH, extend_extend. reflexivity.
Qed.

(** [{"ticker": "A"}] and [{"ticker": 5}] *)
Definition market_a : value := VDict [("ticker", VStr "A")].
Definition market_5 : value := VDict [("ticker", VInt 5)].
End ProducerFacts.

Section ProducerClaims.
Import Py Kafka Producer ProducerFacts.

(** C8, counterexample. A Kalshi poll returns [{"ticker": "A"}] and
    [{"ticker": 5}]: the first record is produced, the key of the second
    raises [AttributeError] ([int] has no [encode]), the handler logs, and
    the process sleeps without having called [flush]. *)
Lemma kalshi_cycle_without_flush :
  KalshiProducer.cycle 60 (Ok [market_a; market_5]) w0 =
    (Ok tt, World tt [Logged INFO;
                      Produced "kalshi.markets" "A" market_a;
                      Logged ERROR;
                      Slept 60]) /\
  Forall (fun e => ~ is_flush e)
    (trace (after (KalshiProducer.cycle 60 (Ok [market_a; market_5])) w0)).
Proof.
  split; [vm_compute; reflexivity|].
  vm_compute. repeat constructor; intros H; exact H.
Qed.

(** C8 (as the code has it). The three producers are configured with
    [acks = "all"] and [retries = 5]. In a poll cycle (for the news
    producer: in the turn of one query) whose fetch returns and whose
    records all yield a key, the records are produced in order, then
    [flush(timeout=10)] is called, and only then does the process sleep
    (the calls into the client library being taken to return). A Kalshi or
    Polymarket cycle whose fetch raises produces nothing, logs the error
    and sleeps; the turn of a news query whose fetch raises produces
    nothing and logs the error without the pause of one second, and a news
    cycle all of whose fetches raise logs one error for each query and then
    sleeps. *)
Theorem producers_acks_and_flush (servers : string) (interval : Z)
    (py_str : value -> string) :
  (forall conf,
     In conf [KalshiProducer.create_producer servers;
              PolymarketProducer.create_producer servers;
              NewsProducer.create_producer servers] ->
     setting_of conf "acks" = Some (SStr "all") /\
     setting_of conf "retries" = Some (SInt 5)) /\
  (forall markets keys (w : world),
     Forall2 (fun m k => KalshiProducer.key_of m = Ok k) markets keys ->
     KalshiProducer.cycle interval (Ok markets) w =
       (Ok tt,
        extend w ([Logged INFO]
                  ++ zip_with (Produced KalshiProducer.TOPIC) keys markets
                  ++ [Flushed 10; Slept interval]))) /\
  (forall markets keys (w : world),
     Forall2 (fun m k => PolymarketProducer.key_of py_str m = Ok k)
       markets keys ->
     PolymarketProducer.cycle py_str interval (Ok markets) w =
       (Ok tt,
        extend w ([Logged INFO]
                  ++ zip_with (Produced PolymarketProducer.TOPIC) keys markets
                  ++ [Flushed 10; Slept interval]))) /\
  (forall query articles keys (w : world),
     Forall2 (fun a k => url_key a = Ok k) articles keys ->
     NewsProducer.query_cycle query (Ok articles) w =
       (Ok tt,
        extend w ([Logged INFO]
                  ++ zip_with (fun k a => Produced NewsProducer.TOPIC k
                                            (tagged query a)) keys articles
                  ++ [Flushed 10; Slept 1]))) /\
  (forall e (w : world),
     KalshiProducer.cycle interval (Raise e) w =
       (Ok tt, extend w [Logged ERROR; Slept interval]) /\
     PolymarketProducer.cycle py_str interval (Raise e) w =
       (Ok tt, extend w [Logged ERROR; Slept interval]) /\
     (forall query,
        NewsProducer.query_cycle query (Raise e) w =
          (Ok tt, extend w [Logged ERROR]))) /\
  (forall fetch (w : world),
     (forall query, exists e, fetch query = Raise e) ->
     NewsProducer.cycle interval fetch w =
       (Ok tt,
        extend w (map (fun _ => Logged ERROR) NewsProducer.SEARCH_QUERIES
                  ++ [Slept interval]))).
Proof.
  split; [|split; [|split; [|split; [|split]]]].
  - intros conf Hin. simpl in Hin.
    destruct Hin as [<- | [<- | [<- | []]]]; split; reflexivity.
  - intros markets keys w Hkeys.
    unfold KalshiProducer.cycle.
    unfold mbind at 1, M_bind at 1, bind at 1.
    rewrite (log_and_go_on_ok _ w
               (extend w ([Logged INFO]
                  ++ zip_with (Produced KalshiProducer.TOPIC) keys markets
                  ++ [Flushed 10]))).
    + unfold emit. rewrite extend_extend, <- !app_assoc. reflexivity.
    + unfold mbind, M_bind, bind, lift, log, emit. simpl.
      rewrite (kalshi_publish_ok _ _ _ Hkeys), !extend_extend. reflexivity.
  - intros markets keys w Hkeys.
    unfold PolymarketProducer.cycle.
    unfold mbind at 1, M_bind at 1, bind at 1.
    rewrite (log_and_go_on_ok _ w
               (extend w ([Logged INFO]
                  ++ zip_with (Produced PolymarketProducer.TOPIC) keys markets
                  ++ [Flushed 10]))).
    + unfold emit. rewrite extend_extend, <- !app_assoc. reflexivity.
    + unfold mbind, M_bind, bind, lift, log, emit. simpl.
      rewrite (polymarket_publish_ok _ _ _ _ Hkeys), !extend_extend.
      reflexivity.
  - intros query articles keys w Hkeys.
    unfold NewsProducer.query_cycle.
    apply log_and_go_on_ok.
    unfold mbind, M_bind, bind, lift, log, emit. simpl.
    rewrite (news_publish_ok _ _ _ _ Hkeys), !extend_extend. reflexivity.
  - intros e w. split; [|split].
    + unfold KalshiProducer.cycle.
      unfold mbind at 1, M_bind at 1, bind at 1.
      rewrite (log_and_go_on_raise _ w w e) by reflexivity.
      unfold emit. rewrite extend_extend. reflexivity.
    + unfold PolymarketProducer.cycle.
      unfold mbind at 1, M_bind at 1, bind at 1.
      rewrite (log_and_go_on_raise _ w w e) by reflexivity.
      unfold emit. rewrite extend_extend. reflexivity.
    + intros query. apply news_query_cycle_raise.
  - intros fetch w Hfetch. unfold NewsProducer.cycle.
    unfold mbind at 1, M_bind at 1, bind at 1.
    rewrite (news_queries_raise fetch _ w Hfetch).
    unfold emit. rewrite extend_extend. reflexivity.
Qed.

(** C8, witness: a Kalshi poll that returns [{"ticker": "A"}]. *)
Lemma producers_acks_and_flush_witness :
  setting_of (NewsProducer.create_producer "localhost:29092") "acks"
    = Some (SStr "all") /\
  KalshiProducer.cycle 60 (Ok [market_a]) w0 =
    (Ok tt, World tt [Logged INFO;
                      Produced "kalshi.markets" "A" market_a;
                      Flushed 10; Slept 60]).
Proof.
  pose proof (producers_acks_and_flush "localhost:29092" 60
                ConsumerExamples.str_stub) as (Hconf & Hk & _).
  split.
  - apply (Hconf (NewsProducer.create_producer "localhost:29092")).
    simpl. auto.
  - apply (Hk [market_a] ["A"%string] w0).
    repeat constructor.
Defined.
End ProducerClaims.

(** ** The series cache of the scraper *)

Module ScraperExamples.
Import Py Scraper.

(** An endpoint that answers every request with the category
    ["Economics"]. *)
Definition economics_api (n : nat) (url : string) : response :=
  Response 200
    (Ok (VDict [("series", VDict [("category", VStr "Economics")])])).

Definition empty_state : state := {| series_cache := ∅; requests := [] |}.
End ScraperExamples.

Section ScraperClaims.
Import Py Scraper ScraperExamples.

(** C9. Once [get_category] has been called for an event ticker, every
    later call for an event ticker with the same series ticker, whatever
    lookups come in between, returns the value of the first call and
    leaves the state as it is: it sends no request. No call removes or
    changes an entry of [_series_cache]. *)
Theorem series_cache_never_invalidated (series_api : nat -> string -> response) :
  (forall ev ev' between st,
     extract_series_ticker ev' = extract_series_ticker ev ->
     let first := get_category series_api ev st in
     let later := lookups series_api between (snd first) in
     get_category series_api ev' later = (fst first, later)) /\
  (forall ev st k v,
     series_cache st !! k = Some v ->
     series_cache (snd (get_category series_api ev st)) !! k = Some v).
Proof.
  split.
  - intros ev ev' between st Hsame first later.
    destruct (String.eqb_spec (extract_series_ticker ev) "") as [Hempty|Hne].
    + unfold get_category in *. subst first.
      rewrite Hsame, Hempty. reflexivity.
    + apply get_category_hit; [congruence|].
      rewrite Hsame. apply lookups_preserve.
      apply get_category_cached. exact Hne.
  - intros ev st k v. apply get_category_preserves.
Qed.

(** C9, witness: two events of the series [KXFED], with a lookup of
    another series in between; one request per series is sent. *)
Lemma series_cache_never_invalidated_witness :
  let first := get_category economics_api "KXFED-25JUL" empty_state in
  let later := lookups economics_api ["KXCPI-25AUG"] (snd first) in
  get_category economics_api "KXFED-25SEP-T4" later
    = (VStr "Economics", later) /\
  length (requests later) = 2%nat.
Proof.
  split; [|reflexivity].
  apply (proj1 (series_cache_never_invalidated economics_api)
           "KXFED-25JUL" "KXFED-25SEP-T4" ["KXCPI-25AUG"] empty_state).
  reflexivity.
Defined.
End ScraperClaims.

(** ** Edge detection *)

Section EdgeClaims.
Import Models EdgeDetector.
Local Open Scope Q_scope.

(** C2. With [edge_magnitude = q - p], an [Edge] row is created exactly
    when [abs(q - p) >= 0.05], the bound included; the row records [p], [q]
    and the magnitude, its direction is ["YES"] when the magnitude is
    positive and ["NO"] otherwise, and [alert_sent] is false; below the floor
    the detector returns no row (and, being a function, no error). *)
Theorem edge_detection (market : Z) (p q : Q) :
  (EDGE_FLOOR <= Qabs (q - p) ->
     exists e, detect_edge market p q = Some e /\
       edge_market_id e = market /\
       market_probability e = p /\ model_probability e = q /\
       edge_magnitude e = q - p /\
       (0 < q - p -> direction e = "YES"%string) /\
       (q - p <= 0 -> direction e = "NO"%string) /\
       alert_sent e = false) /\
  (Qabs (q - p) < EDGE_FLOOR -> detect_edge market p q = None) /\
  (forall e, detect_edge market p q = Some e -> EDGE_FLOOR <= Qabs (q - p)).
Proof.
  unfold detect_edge.
  destruct (Qle_bool EDGE_FLOOR (Qabs (q - p))) eqn:Hfloor.
  - apply Qle_bool_iff in Hfloor. split; [|split].
    + intros _. eexists. split; [reflexivity|]. simpl.
      repeat split.
      * intros Hpos. destruct (Qle_bool (q - p) 0) eqn:Hle; [|reflexivity].
        apply Qle_bool_iff in Hle. exfalso.
        exact (Qlt_not_le _ _ Hpos Hle).
      * intros Hle. apply Qle_bool_iff in Hle. rewrite Hle. reflexivity.
    + intros Hlt. exfalso. exact (Qlt_not_le _ _ Hlt Hfloor).
    + intros e _. exact Hfloor.
  - split; [|split].
    + intros Hle. apply Qle_bool_iff in Hle. congruence.
    + reflexivity.
    + intros e He. discriminate He.
Qed.

(** C2, witness: the examples of the specification. A market at 0.45
    with a model at 0.62 gives an edge of 0.17, ["YES"]; at 0.45 and 0.50 the
    magnitude is the floor itself and the edge is created; at 0.45 and 0.48
    (magnitude 0.03) there is none. *)
Lemma edge_detection_witness :
  (exists e, detect_edge 1 (45 # 100) (62 # 100) = Some e /\
     edge_magnitude e == 17 # 100 /\ direction e = "YES"%string /\
     alert_sent e = false) /\
  (exists e, detect_edge 1 (45 # 100) (50 # 100) = Some e) /\
  detect_edge 1 (45 # 100) (48 # 100) = None.
Proof.
  destruct (edge_detection 1 (45 # 100) (62 # 100)) as [H17 _].
  destruct (edge_detection 1 (45 # 100) (50 # 100)) as [H05 _].
  destruct (edge_detection 1 (45 # 100) (48 # 100)) as [_ [H03 _]].
  split; [|split].
  - destruct (H17 ltac:(vm_compute; discriminate))
      as (e & He & _ & _ & _ & Hmag & Hyes & _ & Hsent).
    exists e. split; [exact He|]. split; [rewrite Hmag; reflexivity|].
    split; [apply Hyes; reflexivity | exact Hsent].
  - destruct (H05 ltac:(vm_compute; discriminate)) as (e & He & _).
    exists e. exact He.
  - apply H03. reflexivity.
Defined.
End EdgeClaims.

(** * Further properties of the code *)

(** ** chunk_text: nothing is lost, and how many chunks there are *)

Module ChunkerFacts.
Import PySlice Chunker.

Section Reassemble.
Context {A : Type}.
Implicit Types (text : list A).

(** [c[k:]] is the list without its first [k] elements. *)
Lemma py_slice_from_drop (c : list A) (k : Z) :
  0 <= k -> py_slice_from c k = drop (Z.to_nat k) c.
Proof.
  intros Hk. unfold py_slice_from, py_slice. pose proof (len_nonneg c).
  rewrite (slice_index_id (len c) (len c)) by lia.
  unfold slice_index. destruct (Z.ltb_spec k 0); [lia|].
  destruct (Z.le_gt_cases k (len c)).
  - rewrite Z.min_l by lia. apply take_ge.
    rewrite length_drop. unfold len in *. lia.
  - rewrite Z.min_r by lia. replace (len c - len c) with 0 by lia.
    simpl. symmetry. rewrite !drop_ge; unfold len in *; try lia. reflexivity.
Qed.

(** The chunk [k] without its first [overlap] characters continues the text
    where the chunk [k - 1] stopped. *)
Lemma chunk_at_continues text chunk_size (k : nat) :
  overlap < chunk_size ->
  Z.of_nat (S k) * (chunk_size - overlap) < len text ->
  let stop i := Z.to_nat (Z.min (Z.of_nat i * (chunk_size - overlap) + chunk_size)
                                (len text)) in
  take (stop k) text ++ py_slice_from (chunk_at text chunk_size 0 (S k)) overlap
    = take (stop (S k)) text.
Proof.
  intros Hd Hlt stop. unfold overlap in *.
  rewrite py_slice_from_drop by lia. unfold chunk_at, overlap.
  set (d := chunk_size - 200) in *.
  set (s := Z.of_nat (S k) * d) in *.
  assert (0 <= s) as Hs0 by (unfold s, d; nia).
  assert (Z.of_nat k * d + chunk_size = s + 200) as Hprev by (unfold s, d; lia).
  rewrite py_slice_inner by lia.
  subst stop. cbv beta. rewrite Hprev. rewrite !Z.add_0_l.
  set (e := Z.min (s + chunk_size) (len text)).
  set (a := Z.min (s + 200) (len text)).
  assert (s <= a /\ a <= e /\ e <= len text) as (Hsa & Hae & He)
    by (unfold a, e; lia).
  assert (drop (Z.to_nat 200) (take (Z.to_nat (e - s)) (drop (Z.to_nat s) text))
          = take (Z.to_nat (e - a)) (drop (Z.to_nat a) text)) as ->.
  { apply list_eq. intros i.
    rewrite lookup_drop, !lookup_take, !lookup_drop.
    unfold a, e in *. repeat case_decide; try lia; try reflexivity.
    f_equal. lia. }
  rewrite take_take_drop. f_equal. lia.
Qed.

(** The first [k + 1] chunks, each after the first cut by [overlap]
    characters, make up the text up to the end of the chunk [k]. *)
Lemma chunks_reassemble_prefix text chunk_size (k : nat) :
  overlap < chunk_size ->
  Z.of_nat k * (chunk_size - overlap) < len text ->
  chunk_at text chunk_size 0 0
    ++ concat (map (fun i => py_slice_from (chunk_at text chunk_size 0 i) overlap)
                   (seq 1 k))
  = take (Z.to_nat (Z.min (Z.of_nat k * (chunk_size - overlap) + chunk_size)
                          (len text))) text.
Proof.
  intros Hd. induction k as [|k IH]; intros Hlt.
  - simpl. rewrite app_nil_r. unfold chunk_at. simpl.
    pose proof (len_nonneg text). unfold overlap in *.
    rewrite py_slice_inner by lia. rewrite drop_0. f_equal. lia.
  - rewrite seq_S, map_app, concat_app, app_assoc.
    rewrite IH by nia. simpl concat. rewrite app_nil_r.
    apply (chunk_at_continues text chunk_size k Hd Hlt).
Qed.
End Reassemble.
End ChunkerFacts.

Section ChunkerExtras.
Import PySlice Chunker ChunkerFacts.
Context {A : Type}.
Implicit Types (text : list A).

(** X1. No character is lost or duplicated beyond the overlap: the first
    chunk followed by every later chunk without its first 200 characters,
    [chunks[0] + "".join(c[200:] for c in chunks[1:])], is the text itself
    (for any chunk size above the overlap). *)
Theorem chunk_text_reassembles text (chunk_size : Z) r :
  overlap < chunk_size ->
  chunk_text_returns text chunk_size r ->
  match r with
  | [] => text = []
  | c :: rest =>
      c ++ concat (map (fun c' => py_slice_from c' overlap) rest) = text
  end.
Proof.
  intros Hd Hr.
  apply chunk_text_returns_closed_form in Hr; [|exact Hd]. subst r.
  pose proof (iterations_stop text chunk_size 0 Hd) as Hstop.
  pose proof (iterations_last text chunk_size 0 Hd) as Hlast.
  destruct (iterations text chunk_size 0) as [|n] eqn:Hn.
  - simpl. destruct text; [reflexivity|]. unfold len in Hstop. simpl in Hstop.
    lia.
  - destruct Hlast as [H0|Hlast]; [discriminate|].
    change (seq 0 (S n)) with (0%nat :: seq 1 n). cbn [map].
    rewrite <- seq_shift, !map_map.
    pose proof (chunks_reassemble_prefix text chunk_size n Hd) as Hpre.
    rewrite <- seq_shift, map_map in Hpre.
    rewrite Hpre by lia.
    apply take_ge. unfold len, overlap in *. lia.
Qed.

(** X2. The number of chunks is [len(text)] divided by the stride
    [chunk_size - 200], rounded up; a non-empty text no longer than the
    stride comes back as the single chunk [text]. *)
Theorem chunk_text_count text (chunk_size : Z) r :
  overlap < chunk_size ->
  chunk_text_returns text chunk_size r ->
  Z.of_nat (length r)
    = (len text + (chunk_size - overlap) - 1) / (chunk_size - overlap) /\
  (0 < len text <= chunk_size - overlap -> r = [text]).
Proof.
  intros Hd Hr.
  apply chunk_text_returns_closed_form in Hr; [|exact Hd]. subst r.
  rewrite length_map, length_seq. unfold iterations.
  pose proof (len_nonneg text) as HL.
  set (d := chunk_size - overlap) in *.
  assert (0 < d) as Hdpos by (unfold d; lia).
  split.
  - destruct (Z.ltb_spec 0 (len text)) as [Hpos|Hzero].
    + rewrite Z.sub_0_r. rewrite Z2Nat.id; [reflexivity|].
      apply Z.div_pos; lia.
    + replace (len text) with 0 by lia. simpl.
      symmetry. apply Z.div_small. lia.
  - intros [Hpos Hshort].
    destruct (Z.ltb_spec 0 (len text)) as [_|]; [|lia].
    rewrite Z.sub_0_r.
    assert ((len text + d - 1) / d = 1) as ->.
    { symmetry. apply (Z.div_unique _ _ 1 (len text - 1)); lia. }
    simpl. f_equal. unfold chunk_at. simpl.
    unfold overlap in *. rewrite py_slice_inner by lia.
    rewrite drop_0. apply take_ge. unfold len in *. lia.
Qed.
End ChunkerExtras.

(** X1, witness: 4500 characters, three chunks. *)
Lemma chunk_text_reassembles_witness :
  let text := replicate 4500 "a"%char in
  exists c0 c1 c2,
    Chunker.chunk_text_returns text Chunker.CHUNK_SIZE [c0; c1; c2] /\
    c0 ++ PySlice.py_slice_from c1 200 ++ PySlice.py_slice_from c2 200 = text.
Proof.
  intros text.
  assert (Chunker.chunk_text_returns text Chunker.CHUNK_SIZE
            [replicate 2000 "a"%char; replicate 2000 "a"%char;
             replicate 900 "a"%char]) as Hr
    by (exists 4%nat; vm_compute; reflexivity).
  do 3 eexists. split; [exact Hr|].
  pose proof (chunk_text_reassembles text Chunker.CHUNK_SIZE _ eq_refl Hr) as H.
  cbn [map concat] in H. rewrite app_nil_r in H. exact H.
Defined.

(** X2, witness: 1500 characters, one chunk. *)
Lemma chunk_text_count_witness :
  Chunker.chunk_text_returns (replicate 1500 "a"%char) Chunker.CHUNK_SIZE
    [replicate 1500 "a"%char].
Proof.
  assert (Chunker.chunk_text_returns (replicate 1500 "a"%char)
            Chunker.CHUNK_SIZE (Chunker.chunk_text (replicate 1500 "a"%char)))
    as Hr by apply Chunker.chunk_text_returns_default.
  destruct (chunk_text_count (replicate 1500 "a"%char) Chunker.CHUNK_SIZE _
              eq_refl Hr) as [_ Hone].
  rewrite Hone in Hr; [exact Hr|].
  unfold PySlice.len. rewrite length_replicate. vm_compute.
  split; [reflexivity | discriminate].
Defined.

(** ** The markets consumer: logging, traces, commits, shutdown *)

Module ConsumerFacts.
Import Py Kafka MarketsConsumer.

(** The committed messages of a trace, in order. *)
Definition commits (tr : list event) : list message :=
  omap (fun e => match e with Committed m => Some m | _ => None end) tr.

(** The polled messages that carry no error code, in order. *)
Definition without_error (polls : list (option message)) : list message :=
  omap (fun p => match p with
                 | Some m => match msg_error m with
                             | None => Some m
                             | Some _ => None
                             end
                 | None => None
                 end) polls.

(** The topic is one of [TOPICS]. *)
Definition known_topic (topic : string) : bool :=
  existsb (String.eqb topic) TOPICS.

(** What a normaliser does, given what its dictionary display gives. *)
Lemma try_normalize_run (r : res normalized) handled (w : world) :
  try_except (n ← lift r; mret (Some n)) handled
    (fun _ => log WARNING;; mret None) w =
  match r with
  | Ok n => (Ok (Some n), w)
  | Raise e =>
      if caught_by handled e then (Ok None, extend w [Logged WARNING])
      else (Raise e, w)
  end.
Proof.
  unfold try_except, mbind, M_bind, bind, lift, mret, M_ret, ret.
  destruct r as [n|e]; [reflexivity|].
  destruct (caught_by handled e); reflexivity.
Qed.

(** A normaliser either returns a record and adds nothing to the trace, or
    returns [None] and adds one warning, or raises and adds nothing. *)
Definition normaliser_outcome (m : M world (option normalized)) (w : world)
  : Prop :=
  match result m w with
  | Ok (Some _) => after m w = w
  | Ok None => after m w = extend w [Logged WARNING]
  | Raise _ => after m w = w
  end.

Lemma try_normalize_outcome (r : res normalized) handled w :
  normaliser_outcome
    (try_except (n ← lift r; mret (Some n)) handled
       (fun _ => log WARNING;; mret None)) w.
Proof.
  unfold normaliser_outcome, result, after. rewrite try_normalize_run.
  destruct r as [n|e]; [reflexivity|].
  destruct (caught_by handled e); reflexivity.
Qed.

Lemma commits_app tr1 tr2 : commits (tr1 ++ tr2) = commits tr1 ++ commits tr2.
Proof. apply omap_app. Qed.

Lemma commits_none evs : Forall (fun e => ~ is_commit e) evs -> commits evs = [].
Proof.
  induction 1 as [|e evs He _ IH]; [reflexivity|].
  destruct e; simpl in *; try exact IH. tauto.
Qed.

Section Loop.
Variable decode_json : list Byte.byte -> res value.

(** What one turn of the loop commits: the message, when it carries no
    error code and the turn returns. *)
Lemma iteration_commits p (w : world) :
  commits (trace (after (iteration decode_json p) w)) =
  commits (trace w) ++
  match result (iteration decode_json p) w with
  | Ok _ => without_error [p]
  | Raise _ => []
  end.
Proof.
  destruct p as [msg|]; [|simpl; rewrite app_nil_r; reflexivity].
  unfold iteration, without_error. simpl omap.
  destruct (msg_error msg) as [code|].
  - destruct (code =? PARTITION_EOF); simpl; rewrite app_nil_r; reflexivity.
  - destruct (decode_json (msg_value msg)) as [raw|e].
    + destruct (adds_then _ (handle msg raw) (Committed msg)
                  (handle_no_commit msg raw) w)
        as (proc & Hproc & [[Hres Haft] | [e [Hres Haft]]]);
        unfold process, commit; rewrite Hres, Haft; simpl;
        rewrite !commits_app, (commits_none proc Hproc); reflexivity.
    + destruct (caught_by [JSONDecodeError; UnicodeDecodeError] e).
      * unfold result, after, mbind, M_bind, bind, log, commit, emit. simpl.
        rewrite !commits_app. simpl. rewrite app_nil_r. reflexivity.
      * simpl. rewrite app_nil_r. reflexivity.
Qed.

(** The commits of the loop: the error-free messages polled up to the
    point where the loop stops. *)
Lemma loop_commits polls : forall w : world,
  exists done rest,
    without_error polls = done ++ rest /\
    commits (trace (after (loop decode_json polls) w))
      = commits (trace w) ++ done /\
    (result (loop decode_json polls) w = Ok tt -> rest = []).
Proof.
  induction polls as [|p polls IH]; intros w.
  - exists [], []. simpl. rewrite app_nil_r. auto.
  - pose proof (iteration_commits p w) as Hit.
    change (loop decode_json (p :: polls))
      with (iteration decode_json p;; loop decode_json polls).
    unfold result, after, mbind, M_bind, bind in *.
    destruct (iteration decode_json p w) as [[[]|e] w1]; simpl in Hit.
    + destruct (IH w1) as (done & rest & Hsplit & Hc & Hok).
      exists (without_error [p] ++ done), rest.
      change (p :: polls) with ([p] ++ polls).
      unfold without_error in *. rewrite omap_app, Hsplit, Hc, Hit.
      rewrite <- !app_assoc. auto.
    + exists [], (without_error (p :: polls)). simpl.
      rewrite Hit. split; [reflexivity|]. split; [reflexivity|].
      intros H. discriminate H.
Qed.

(** The part of a turn after decoding, given what normalisation does. *)
Lemma process_run msg raw (w : world) :
  process msg raw w =
  match normalize_by_topic (msg_topic msg) raw w with
  | (Ok (Some n), w') =>
      (Ok tt, extend w' [Call_upsert_market n; Committed msg])
  | (Ok None, w') => (Ok tt, extend w' [Committed msg])
  | (Raise e, w') => (Raise e, w')
  end.
Proof.
  unfold process, handle, mbind, M_bind, bind.
  destruct (normalize_by_topic (msg_topic msg) raw w) as [[[n|]|e] w'];
    try reflexivity.
  unfold upsert_market, commit, emit, log, mbind, M_bind, bind. simpl.
  rewrite extend_extend. reflexivity.
Qed.

(** Every computation of the loop only adds to the trace. *)
Lemma iteration_adds p : adds (fun _ => True) (iteration decode_json p).
Proof.
  destruct p as [msg|]; [|apply adds_ret]. unfold iteration.
  destruct (msg_error msg) as [code|].
  - destruct (code =? PARTITION_EOF); [apply adds_log; exact I | apply adds_raise].
  - destruct (decode_json (msg_value msg)) as [raw|e].
    + apply adds_bind; [|intros _; apply adds_emit; exact I].
      intros w. destruct (handle_no_commit msg raw w) as (evs & H & _).
      exists evs. split; [exact H|]. apply Forall_forall. auto.
    + destruct (caught_by _ e); [|apply adds_raise].
      apply adds_bind; [apply adds_log; exact I|].
      intros _. apply adds_emit. exact I.
Qed.

Lemma loop_adds polls : adds (fun _ => True) (loop decode_json polls).
Proof.
  induction polls as [|p polls IH]; [apply adds_ret|].
  simpl. apply adds_bind; [apply iteration_adds | intros _; exact IH].
Qed.

(** The loop over two lists of polls, when the first one goes through. *)
Lemma loop_app pre post (w : world) :
  result (loop decode_json pre) w = Ok tt ->
  loop decode_json (pre ++ post) w
    = loop decode_json post (after (loop decode_json pre) w).
Proof.
  revert w. induction pre as [|p pre IH]; intros w Hok; [reflexivity|].
  change (loop decode_json ((p :: pre) ++ post))
    with (iteration decode_json p;; loop decode_json (pre ++ post)).
  change (loop decode_json (p :: pre))
    with (iteration decode_json p;; loop decode_json pre) in *.
  unfold result, after, mbind, M_bind, bind in *.
  destruct (iteration decode_json p w) as [[[]|e] w1]; [|discriminate Hok].
  apply IH. exact Hok.
Qed.
End Loop.
End ConsumerFacts.

Section MarketsConsumerExtras.
Import Py Kafka MarketsConsumer ConsumerFacts.

(** X3. Rejections are reported and nothing else is: a normaliser that
    returns [None] adds exactly one warning to the log; one that returns a
    record, or raises, adds nothing; the table is never touched. *)
Theorem normalize_reports_rejection (raw : value) (w : world) :
  normaliser_outcome (normalize_kalshi raw) w /\
  normaliser_outcome (normalize_polymarket raw) w /\
  table (after (normalize_kalshi raw) w) = table w /\
  table (after (normalize_polymarket raw) w) = table w.
Proof.
  split; [apply try_normalize_outcome|].
  split; [apply try_normalize_outcome|].
  unfold after, normalize_kalshi, normalize_polymarket.
  rewrite !try_normalize_run. split.
  - destruct (normalize_kalshi_dict raw) as [n|e]; [reflexivity|].
    destruct (caught_by _ e); reflexivity.
  - destruct (normalize_polymarket_dict raw) as [n|e]; [reflexivity|].
    destruct (caught_by _ e); reflexivity.
Qed.

(** X4. What one turn of the loop does with a message that decodes: a
    payload normalised to a record gives one call of [upsert_market] with
    that record, then the commit; a rejected payload gives its warning, then
    the commit; a message of another topic is committed and nothing else;
    when the normaliser raises, the turn raises and adds nothing. *)
Theorem iteration_trace (decode_json : list Byte.byte -> res value)
    (msg : message) (raw : value) (w : world) :
  msg_error msg = None ->
  decode_json (msg_value msg) = Ok raw ->
  match result (normalize_by_topic (msg_topic msg) raw) w with
  | Ok (Some n) =>
      iteration decode_json (Some msg) w
        = (Ok tt, extend w [Call_upsert_market n; Committed msg])
  | Ok None =>
      iteration decode_json (Some msg) w
        = (Ok tt, extend w ((if known_topic (msg_topic msg)
                             then [Logged WARNING] else [])
                            ++ [Committed msg]))
  | Raise e => iteration decode_json (Some msg) w = (Raise e, w)
  end.
Proof.
  intros Herr Hdec. unfold iteration. rewrite Herr, Hdec.
  rewrite process_run.
  unfold result, normalize_by_topic, known_topic, TOPICS. simpl existsb.
  destruct (String.eqb (msg_topic msg) "kalshi.markets").
  - unfold normalize_kalshi. rewrite try_normalize_run.
    destruct (normalize_kalshi_dict raw) as [n|e]; [reflexivity|].
    destruct (caught_by _ e); simpl; [|reflexivity].
    rewrite extend_extend. reflexivity.
  - destruct (String.eqb (msg_topic msg) "polymarket.markets").
    + unfold normalize_polymarket. rewrite try_normalize_run.
      destruct (normalize_polymarket_dict raw) as [n|e]; [reflexivity|].
      destruct (caught_by _ e); simpl; [|reflexivity].
      rewrite extend_extend. reflexivity.
    + reflexivity.
Qed.

(** X5. The offsets the loop commits: when the loop returns, the committed
    messages are exactly the polled messages that carry no error code, each
    once and in the order polled; when it raises, they are a prefix of
    these. *)
Theorem loop_commits_polled (decode_json : list Byte.byte -> res value)
    (polls : list (option message)) (w : world) :
  exists done rest,
    without_error polls = done ++ rest /\
    commits (trace (after (loop decode_json polls) w))
      = commits (trace w) ++ done /\
    (result (loop decode_json polls) w = Ok tt -> rest = []).
Proof. apply loop_commits. Qed.

(** X6. A message with an error code other than [_PARTITION_EOF] raises
    [KafkaException] out of the loop: the polls after it are not read and
    nothing is committed or logged for it. An end-of-partition message is
    passed over and the loop goes on. *)
Theorem loop_stops_at_error (decode_json : list Byte.byte -> res value)
    (pre post : list (option message)) (msg : message) (code : Z)
    (w : world) :
  result (loop decode_json pre) w = Ok tt ->
  msg_error msg = Some code ->
  (code <> PARTITION_EOF ->
     loop decode_json (pre ++ Some msg :: post) w
       = (Raise KafkaException, after (loop decode_json pre) w)) /\
  (code = PARTITION_EOF ->
     loop decode_json (pre ++ Some msg :: post) w
       = loop decode_json (pre ++ post) w).
Proof.
  intros Hpre Herr. rewrite !loop_app by exact Hpre.
  set (w1 := after (loop decode_json pre) w).
  change (loop decode_json (Some msg :: post))
    with (iteration decode_json (Some msg);; loop decode_json post).
  unfold mbind, M_bind, bind, iteration. rewrite Herr. split; intros Hcode.
  - destruct (Z.eqb_spec code PARTITION_EOF); [contradiction|]. reflexivity.
  - subst code. reflexivity.
Qed.

(** X7. [run] always closes the consumer: whatever is polled, and also when
    the loop raises, the trace of [run] starts with the subscription and ends
    with the close and its log line; [run] returns or raises as the loop
    does, and leaves the table as it was. *)
Theorem run_always_closes (decode_json : list Byte.byte -> res value)
    (polls : list (option message)) (w : world) :
  let w1 := extend w [Subscribed TOPICS; Logged INFO] in
  exists evs,
    after (run decode_json polls) w
      = extend w ([Subscribed TOPICS; Logged INFO] ++ evs
                  ++ [Closed; Logged INFO]) /\
    after (loop decode_json polls) w1 = extend w1 evs /\
    result (run decode_json polls) w = result (loop decode_json polls) w1 /\
    table (after (run decode_json polls) w) = table w.
Proof.
  intros w1. destruct (loop_adds decode_json polls w1) as (evs & Hevs & _).
  exists evs.
  assert (run decode_json polls w
          = (result (loop decode_json polls) w1,
             extend (after (loop decode_json polls) w1) [Closed; Logged INFO]))
    as Hrun.
  { unfold run, result, after, mbind, M_bind, bind, try_finally, emit, log.
    simpl. rewrite extend_extend. simpl app. fold w1.
    destruct (loop decode_json polls w1) as [r w2]. simpl.
    rewrite extend_extend. reflexivity. }
  assert (after (run decode_json polls) w
          = extend (after (loop decode_json polls) w1) [Closed; Logged INFO])
    as Hafter by (unfold after at 1; rewrite Hrun; reflexivity).
  assert (result (run decode_json polls) w
          = result (loop decode_json polls) w1)
    as Hres by (unfold result at 1; rewrite Hrun; reflexivity).
  rewrite Hafter, Hres, Hevs. unfold w1. rewrite !extend_extend. auto.
Qed.
End MarketsConsumerExtras.

Module MarketsConsumerWitnesses.
Import Py Kafka MarketsConsumer ConsumerFacts MarketExamples ConsumerExamples.

(** A decoder that reads the Kalshi example from any non-empty payload. *)
Definition decode_fed (bytes : list Byte.byte) : res value :=
  match bytes with
  | [] => Raise JSONDecodeError
  | _ => Ok kalshi_fed
  end.

(** A message that carries an error code other than end of partition. *)
Definition broken_msg : message :=
  {| msg_topic := "kalshi.markets"; msg_partition := 0; msg_offset := 43;
     msg_value := []; msg_error := Some (-1) |}.
End MarketsConsumerWitnesses.

Section MarketsConsumerExtraWitnesses.
Import Py Kafka MarketsConsumer ConsumerFacts MarketExamples ConsumerExamples
  MarketsConsumerWitnesses.

(** X4, witness: the Kalshi example is upserted, then committed. *)
Lemma iteration_trace_witness :
  iteration decode_fed (Some good_msg) w0
    = (Ok tt, World [] [Call_upsert_market kalshi_fed_normalized;
                        Committed good_msg]).
Proof.
  pose proof (iteration_trace decode_fed good_msg kalshi_fed w0
                eq_refl eq_refl) as H.
  assert (result (normalize_by_topic (msg_topic good_msg) kalshi_fed) w0
          = Ok (Some kalshi_fed_normalized)) as Hres
    by (vm_compute; reflexivity).
  rewrite Hres in H. exact H.
Defined.

(** X6, witness: a good message, a broken one, a good one: the loop raises
    after the first. *)
Lemma loop_stops_at_error_witness :
  loop decode_fed [Some good_msg; Some broken_msg; Some good_msg] w0
    = (Raise KafkaException,
       World [] [Call_upsert_market kalshi_fed_normalized;
                 Committed good_msg]).
Proof.
  destruct (loop_stops_at_error decode_fed [Some good_msg] [Some good_msg]
              broken_msg (-1) w0) as [H _].
  - vm_compute. reflexivity.
  - reflexivity.
  - specialize (H ltac:(discriminate)). cbn [app] in H.
    rewrite H. vm_compute. reflexivity.
Defined.
End MarketsConsumerExtraWitnesses.

(** ** The news consumer: what an article leaves in the trace *)

Module NewsFacts.
Import Py Kafka NewsConsumer.

(** The value a key has in a dictionary, or a default. *)
Definition entry (d : list (string * value)) (k : string) (default : value)
  : value :=
  match dict_get d k with
  | Some x => x
  | None => default
  end.

Lemma get_entry d k default : get (VDict d) k default = Ok (entry d k default).
Proof. unfold get, entry. destruct (dict_get d k); reflexivity. Qed.

(** [article.get("content", "") or article.get("description", "")] *)
Definition content_of (d : list (string * value)) : value :=
  py_or (entry d "content" (VStr "")) (entry d "description" (VStr "")).

Section Provider.
Variable py_str : value -> string.
Variable openai_embedding : string -> option (list pyfloat).

(** What the loop over the chunks does for one chunk: the request, then the
    call of [store_chunk] for a non-empty vector, nothing for an empty one,
    the error line of [embed_text] when the provider failed. *)
Definition chunk_events (url : value) (meta : metadata) (chunk : string)
  : list event :=
  Call_embed_text chunk ::
  match openai_embedding chunk with
  | Some (x :: v) => [Call_store_chunk url chunk (x :: v) meta]
  | Some [] => []
  | None => [Logged ERROR]
  end.

(** The chunks of [f"{title}\n\n{content}"]. *)
Definition chunks_of (title content : value) : list string :=
  map String.string_of_list_ascii
    (Chunker.chunk_text
       (String.list_ascii_of_string
          (py_str title +:+ blank_line +:+ py_str content))).

Lemma embed_and_store_run (u : string) meta chunks : forall w : world,
  embed_and_store openai_embedding (VStr u) meta chunks w =
    (Ok tt, extend w (flat_map (chunk_events (VStr u) meta) chunks)).
Proof.
  induction chunks as [|c chunks IH]; intros w.
  - simpl. rewrite extend_nil. reflexivity.
  - cbn [embed_and_store flat_map].
    unfold mbind, M_bind, bind, embed_text, store_chunk, chunk_events, emit,
      lift, log in *.
    destruct (openai_embedding c) as [[|x v]|]; simpl;
      rewrite IH, ?extend_extend; reflexivity.
Qed.

(** [process_article] on a dictionary, after its reads. *)
Lemma process_article_dict d (w : world) :
  process_article py_str openai_embedding (VDict d) w =
  if truthy (content_of d) then
    (meta_source_ ← lift (get (entry d "source" (VDict [])) "name" VNone);
     let meta := {| meta_url := entry d "url" (VStr "");
                    meta_title := entry d "title" (VStr "");
                    meta_published_at := entry d "publishedAt" VNone;
                    meta_source := meta_source_;
                    meta_search_query := entry d "_search_query" VNone |} in
     embed_and_store openai_embedding (entry d "url" (VStr "")) meta
       (chunks_of (entry d "title" (VStr "")) (content_of d));;
     _ ← lift (slice_prefix (entry d "title" (VStr "")) 50);
     log INFO) w
  else (Ok tt, w).
Proof.
  unfold process_article, content_of, py_or, chunks_of.
  unfold mbind, M_bind, bind, lift, mret, M_ret, ret, log.
  rewrite !get_entry.
  destruct (truthy (entry d "content" (VStr ""))) eqn:Hc.
  - rewrite ?Hc. reflexivity.
  - destruct (truthy (entry d "description" (VStr ""))); reflexivity.
Qed.
End Provider.
End NewsFacts.

Section NewsConsumerExtras.
Import Py Kafka NewsConsumer NewsFacts.
Variable decode_json : list Byte.byte -> res value.
Variable py_str : value -> string.
Variable openai_embedding : string -> option (list pyfloat).

(** X8. An article without text is passed over: when [content] is missing,
    null or empty and [description] is too, [process_article] returns
    without a request to the embedding provider, without a call of
    [store_chunk] and without a log line at [INFO] or above. *)
Theorem process_article_skips_empty d (w : world) :
  truthy (entry d "content" (VStr "")) = false ->
  truthy (entry d "description" (VStr "")) = false ->
  process_article py_str openai_embedding (VDict d) w = (Ok tt, w).
Proof.
  intros Hc Hd. rewrite process_article_dict.
  unfold content_of, py_or. rewrite Hc, Hd. reflexivity.
Qed.

(** X9. The loop over the chunks never stops early: with a string [url],
    every chunk is sent to the provider, in order; a chunk is stored exactly
    when its vector is non-empty; a failure of the provider for one chunk
    costs that chunk only (one error line), and the loop returns. *)
Theorem embed_and_store_trace (u : string) meta chunks (w : world) :
  embed_and_store openai_embedding (VStr u) meta chunks w =
    (Ok tt,
     extend w (flat_map (chunk_events openai_embedding (VStr u) meta) chunks)).
Proof. apply embed_and_store_run. Qed.

(** X10. A well-formed article (string [url] and [title], [source] a
    dictionary or absent) with text: [content] is used, and [description]
    only when [content] is missing, null or empty; the chunks are those of
    the title, a blank line and the text; after the chunks one line is
    logged and the function returns. *)
Theorem process_article_trace d (u t : string) sd (w : world) :
  entry d "url" (VStr "") = VStr u ->
  entry d "title" (VStr "") = VStr t ->
  entry d "source" (VDict []) = VDict sd ->
  truthy (content_of d) = true ->
  let meta := {| meta_url := VStr u; meta_title := VStr t;
                 meta_published_at := entry d "publishedAt" VNone;
                 meta_source := entry sd "name" VNone;
                 meta_search_query := entry d "_search_query" VNone |} in
  (truthy (entry d "content" (VStr "")) = true ->
     content_of d = entry d "content" (VStr "")) /\
  (truthy (entry d "content" (VStr "")) = false ->
     content_of d = entry d "description" (VStr "")) /\
  process_article py_str openai_embedding (VDict d) w =
    (Ok tt,
     extend w
       (flat_map (chunk_events openai_embedding (VStr u) meta)
                 (chunks_of py_str (VStr t) (content_of d))
        ++ [Logged INFO])).
Proof.
  intros Hu Ht Hs Hc meta.
  split; [|split].
  - intros H. unfold content_of, py_or. rewrite H. reflexivity.
  - intros H. unfold content_of, py_or. rewrite H. reflexivity.
  - rewrite process_article_dict, Hc, Hu, Ht, Hs.
    unfold mbind, M_bind, bind, lift. rewrite get_entry.
    rewrite embed_and_store_run. simpl.
    unfold log, emit. simpl. rewrite extend_extend. reflexivity.
Qed.

(** X11. A null title loses the work and the commit: for an article with
    text whose [title] is null, every chunk is embedded and stored, and then
    [title[:50]] in the closing log line raises [TypeError]; the handler of
    the loop does not catch it, so the turn raises and the message is not
    committed. *)
Theorem null_title_not_committed (msg : message) d (u : string) sd (w : world) :
  msg_error msg = None ->
  decode_json (msg_value msg) = Ok (VDict d) ->
  entry d "url" (VStr "") = VStr u ->
  entry d "title" (VStr "") = VNone ->
  entry d "source" (VDict []) = VDict sd ->
  truthy (content_of d) = true ->
  let meta := {| meta_url := VStr u; meta_title := VNone;
                 meta_published_at := entry d "publishedAt" VNone;
                 meta_source := entry sd "name" VNone;
                 meta_search_query := entry d "_search_query" VNone |} in
  iteration decode_json py_str openai_embedding (Some msg) w =
    (Raise TypeError,
     extend w (flat_map (chunk_events openai_embedding (VStr u) meta)
                        (chunks_of py_str VNone (content_of d)))).
Proof.
  intros Herr Hdec Hu Ht Hs Hc meta.
  unfold iteration. rewrite Herr.
  unfold decode_and_process, try_except.
  unfold mbind at 1 2, M_bind at 1 2, bind at 1 2, lift at 1.
  rewrite Hdec.
  rewrite process_article_dict, Hc, Hu, Ht, Hs.
  unfold mbind, M_bind, bind, lift. rewrite get_entry.
  rewrite embed_and_store_run. reflexivity.
Qed.
End NewsConsumerExtras.

Module NewsWitnesses.
Import Py Kafka NewsConsumer NewsFacts.

(** [{"url": "https://example.org/a", "title": "Fed holds rates",
      "content": "No change.", "description": "unused"}] *)
Definition article_fields : list (string * value) :=
  [("url", VStr "https://example.org/a"); ("title", VStr "Fed holds rates");
   ("content", VStr "No change."); ("description", VStr "unused")].

(** The same article with a null title. *)
Definition untitled_fields : list (string * value) :=
  [("url", VStr "https://example.org/a"); ("title", VNone);
   ("content", VStr "No change.")].

(** [{"url": "https://example.org/b", "content": "", "description": null}] *)
Definition empty_fields : list (string * value) :=
  [("url", VStr "https://example.org/b"); ("content", VStr "");
   ("description", VNone)].

(** A provider that answers every text with the vector [[0.5]]. *)
Definition embedding_half (text : string) : option (list pyfloat) :=
  Some [FNum (1 # 2)].

(** A decoder that reads the untitled article from any non-empty payload. *)
Definition decode_untitled (bytes : list Byte.byte) : res value :=
  match bytes with
  | [] => Raise JSONDecodeError
  | _ => Ok (VDict untitled_fields)
  end.

Definition news_msg : message :=
  {| msg_topic := "news.feed"; msg_partition := 0; msg_offset := 5;
     msg_value := [Byte.x7b; Byte.x7d]; msg_error := None |}.

Definition w0 : world := World tt [].
End NewsWitnesses.

Section NewsConsumerExtraWitnesses.
Import Py Kafka NewsConsumer NewsFacts NewsWitnesses ConsumerExamples.

(** X8, witness: an empty content and a null description. *)
Lemma process_article_skips_empty_witness :
  process_article str_stub embedding_half (VDict empty_fields) w0 = (Ok tt, w0).
Proof.
  apply (process_article_skips_empty str_stub embedding_half empty_fields w0);
    reflexivity.
Defined.

(** X10, witness: one chunk, embedded and stored, then the log line. *)
Lemma process_article_trace_witness :
  exists chunk meta,
    process_article str_stub embedding_half (VDict article_fields) w0 =
      (Ok tt,
       World tt [Call_embed_text chunk;
                 Call_store_chunk (VStr "https://example.org/a") chunk
                   [FNum (1 # 2)] meta;
                 Logged INFO]) /\
    String.length chunk = 27%nat.
Proof.
  destruct (process_article_trace str_stub embedding_half article_fields
              "https://example.org/a" "Fed holds rates" [] w0
              eq_refl eq_refl eq_refl eq_refl) as (_ & _ & H).
  do 2 eexists. split; [rewrite H; vm_compute; reflexivity|].
  vm_compute. reflexivity.
Defined.

(** X11, witness: the untitled article is embedded and stored, and the
    turn raises without a commit. *)
Lemma null_title_not_committed_witness :
  exists chunk meta,
    iteration decode_untitled str_stub embedding_half (Some news_msg) w0 =
      (Raise TypeError,
       World tt [Call_embed_text chunk;
                 Call_store_chunk (VStr "https://example.org/a") chunk
                   [FNum (1 # 2)] meta]).
Proof.
  do 2 eexists.
  rewrite (null_title_not_committed decode_untitled str_stub embedding_half
             news_msg untitled_fields "https://example.org/a" [] w0
             eq_refl eq_refl eq_refl eq_refl eq_refl eq_refl).
  vm_compute. reflexivity.
Defined.
End NewsConsumerExtraWitnesses.

(** ** The producers: a poll cycle never raises, and what a bad record costs *)

Module ProducerCycleFacts.
Import Py Kafka Producer ProducerFacts.

(** A handled body returns whatever the body does, and only adds to the
    trace. *)
Lemma log_and_go_on_returns (body : M world unit) :
  adds (fun _ => True) body ->
  forall w, exists evs, log_and_go_on body w = (Ok tt, extend w evs).
Proof.
  intros Hb w. destruct (Hb w) as (evs & Hevs & _). unfold after in Hevs.
  destruct (body w) as [[[]|e] w1] eqn:Hbody; simpl in Hevs; subst w1.
  - exists evs. apply log_and_go_on_ok. exact Hbody.
  - exists (evs ++ [Logged ERROR]).
    rewrite (log_and_go_on_raise _ _ _ _ Hbody), extend_extend. reflexivity.
Qed.

Lemma adds_any_log l : adds (fun _ : event => True) (log l).
Proof.
  unfold log. destruct (enabled l); [apply adds_emit; exact I | apply adds_ret].
Qed.

Lemma kalshi_publish_adds markets :
  adds (fun _ => True) (KalshiProducer.publish markets).
Proof.
  induction markets as [|m markets IH]; [apply adds_ret|]. simpl.
  apply adds_bind; [apply adds_lift|]. intros k.
  apply adds_bind; [apply adds_emit; exact I | intros _; exact IH].
Qed.

Lemma polymarket_publish_adds py_str markets :
  adds (fun _ => True) (PolymarketProducer.publish py_str markets).
Proof.
  induction markets as [|m markets IH]; [apply adds_ret|]. simpl.
  apply adds_bind; [apply adds_lift|]. intros k.
  apply adds_bind; [apply adds_emit; exact I | intros _; exact IH].
Qed.

Lemma news_publish_adds query articles :
  adds (fun _ => True) (NewsProducer.publish query articles).
Proof.
  induction articles as [|a articles IH]; [apply adds_ret|]. simpl.
  apply adds_bind; [apply adds_lift|]. intros k.
  apply adds_bind; [apply adds_lift|]. intros t.
  apply adds_bind; [apply adds_emit; exact I | intros _; exact IH].
Qed.

Lemma news_queries_return fetch qs : forall w : world,
  exists evs, NewsProducer.queries fetch qs w = (Ok tt, extend w evs).
Proof.
  induction qs as [|q qs IH]; intros w.
  - exists []. simpl. rewrite extend_nil. reflexivity.
  - simpl. unfold mbind, M_bind, bind, NewsProducer.query_cycle.
    edestruct (log_and_go_on_returns) as (e1 & ->).
    2:{ destruct (IH (extend w e1)) as (e2 & ->).
        exists (e1 ++ e2). rewrite extend_extend. reflexivity. }
    apply adds_bind; [apply adds_lift|]. intros articles.
    apply adds_bind; [apply adds_any_log|]. intros _.
    apply adds_bind; [apply news_publish_adds|]. intros _.
    apply adds_bind; apply adds_emit || (intros _; apply adds_emit); exact I.
Qed.

(** The loop over the records stops at the first record without a key:
    the records before it are produced, it and the ones after it are not. *)
Lemma kalshi_publish_stops good keys bad rest e (w : world) :
  Forall2 (fun m k => KalshiProducer.key_of m = Ok k) good keys ->
  KalshiProducer.key_of bad = Raise e ->
  KalshiProducer.publish (good ++ bad :: rest) w =
    (Raise e, extend w (zip_with (Produced KalshiProducer.TOPIC) keys good)).
Proof.
  intros H Hbad. revert w. induction H as [|m k good keys Hk _ IH]; intros w.
  - simpl. unfold mbind, M_bind, bind, lift. rewrite Hbad, extend_nil.
    reflexivity.
  - simpl. unfold mbind, M_bind, bind, lift, emit. rewrite Hk.
    rewrite IH, extend_extend. reflexivity.
Qed.

Lemma polymarket_publish_stops py_str good keys bad rest e (w : world) :
  Forall2 (fun m k => PolymarketProducer.key_of py_str m = Ok k) good keys ->
  PolymarketProducer.key_of py_str bad = Raise e ->
  PolymarketProducer.publish py_str (good ++ bad :: rest) w =
    (Raise e,
     extend w (zip_with (Produced PolymarketProducer.TOPIC) keys good)).
Proof.
  intros H Hbad. revert w. induction H as [|m k good keys Hk _ IH]; intros w.
  - simpl. unfold mbind, M_bind, bind, lift. rewrite Hbad, extend_nil.
    reflexivity.
  - simpl. unfold mbind, M_bind, bind, lift, emit. rewrite Hk.
    rewrite IH, extend_extend. reflexivity.
Qed.

Lemma news_publish_stops query good keys bad rest e (w : world) :
  Forall2 (fun a k => url_key a = Ok k) good keys ->
  url_key bad = Raise e ->
  NewsProducer.publish query (good ++ bad :: rest) w =
    (Raise e,
     extend w (zip_with (fun k a => Produced NewsProducer.TOPIC k
                                      (tagged query a)) keys good)).
Proof.
  intros H Hbad. revert w. induction H as [|a k good keys Hk _ IH]; intros w.
  - simpl. unfold mbind, M_bind, bind, lift. unfold url_key in Hbad.
    rewrite Hbad, extend_nil. reflexivity.
  - simpl. unfold mbind, M_bind, bind, lift, emit. unfold url_key in Hk.
    rewrite Hk. destruct a; try discriminate Hk. simpl.
    rewrite IH, extend_extend. reflexivity.
Qed.
End ProducerCycleFacts.

Section ProducerExtras.
Import Py Kafka Producer ProducerFacts ProducerCycleFacts.

(** X12. A poll cycle never raises: whatever the fetch returns or raises
    and whatever the records are, the cycle of each producer returns, and
    the last thing it does is to sleep for the poll interval. *)
Theorem cycle_always_sleeps (interval : Z) (py_str : value -> string)
    (fetched : res (list value)) (fetch : string -> res (list value))
    (w : world) :
  (exists evs, KalshiProducer.cycle interval fetched w
               = (Ok tt, extend w (evs ++ [Slept interval]))) /\
  (exists evs, PolymarketProducer.cycle py_str interval fetched w
               = (Ok tt, extend w (evs ++ [Slept interval]))) /\
  (exists evs, NewsProducer.cycle interval fetch w
               = (Ok tt, extend w (evs ++ [Slept interval]))).
Proof.
  split; [|split].
  - unfold KalshiProducer.cycle, mbind at 1, M_bind at 1, bind at 1.
    edestruct log_and_go_on_returns as (evs & ->).
    2:{ exists evs. unfold emit. rewrite extend_extend. reflexivity. }
    apply adds_bind; [apply adds_lift|]. intros markets.
    apply adds_bind; [apply adds_any_log|]. intros _.
    apply adds_bind; [apply kalshi_publish_adds|]. intros _.
    apply adds_emit. exact I.
  - unfold PolymarketProducer.cycle, mbind at 1, M_bind at 1, bind at 1.
    edestruct log_and_go_on_returns as (evs & ->).
    2:{ exists evs. unfold emit. rewrite extend_extend. reflexivity. }
    apply adds_bind; [apply adds_lift|]. intros markets.
    apply adds_bind; [apply adds_any_log|]. intros _.
    apply adds_bind; [apply polymarket_publish_adds|]. intros _.
    apply adds_emit. exact I.
  - unfold NewsProducer.cycle, mbind, M_bind, bind.
    destruct (news_queries_return fetch NewsProducer.SEARCH_QUERIES w)
      as (evs & ->).
    exists evs. unfold emit. rewrite extend_extend. reflexivity.
Qed.

(** X13. One bad record costs the rest of the batch: when a record yields
    no message key (its key raises), the records before it are produced,
    that record and all records after it are not, [flush] is not called, the
    error is logged and the cycle (for the news producer: the turn of the
    query, which also skips its pause) goes on to its end. *)
Theorem bad_record_drops_rest (interval : Z) (py_str : value -> string)
    (good : list value) (keys : list string) (bad : value)
    (rest : list value) (e : exn_class) (w : world) :
  (Forall2 (fun m k => KalshiProducer.key_of m = Ok k) good keys ->
   KalshiProducer.key_of bad = Raise e ->
   KalshiProducer.cycle interval (Ok (good ++ bad :: rest)) w =
     (Ok tt,
      extend w ([Logged INFO]
                ++ zip_with (Produced KalshiProducer.TOPIC) keys good
                ++ [Logged ERROR; Slept interval]))) /\
  (Forall2 (fun m k => PolymarketProducer.key_of py_str m = Ok k) good keys ->
   PolymarketProducer.key_of py_str bad = Raise e ->
   PolymarketProducer.cycle py_str interval (Ok (good ++ bad :: rest)) w =
     (Ok tt,
      extend w ([Logged INFO]
                ++ zip_with (Produced PolymarketProducer.TOPIC) keys good
                ++ [Logged ERROR; Slept interval]))) /\
  (forall query,
   Forall2 (fun a k => url_key a = Ok k) good keys ->
   url_key bad = Raise e ->
   NewsProducer.query_cycle query (Ok (good ++ bad :: rest)) w =
     (Ok tt,
      extend w ([Logged INFO]
                ++ zip_with (fun k a => Produced NewsProducer.TOPIC k
                                          (tagged query a)) keys good
                ++ [Logged ERROR]))).
Proof.
  split; [|split].
  - intros Hgood Hbad. unfold KalshiProducer.cycle.
    unfold mbind at 1, M_bind at 1, bind at 1.
    rewrite (log_and_go_on_raise _ w
               (extend w ([Logged INFO]
                  ++ zip_with (Produced KalshiProducer.TOPIC) keys good)) e).
    + unfold emit. rewrite !extend_extend, <- !app_assoc. reflexivity.
    + unfold mbind, M_bind, bind, lift, log, emit. simpl.
      rewrite (kalshi_publish_stops _ _ _ _ _ _ Hgood Hbad), extend_extend.
      reflexivity.
  - intros Hgood Hbad. unfold PolymarketProducer.cycle.
    unfold mbind at 1, M_bind at 1, bind at 1.
    rewrite (log_and_go_on_raise _ w
               (extend w ([Logged INFO]
                  ++ zip_with (Produced PolymarketProducer.TOPIC) keys good)) e).
    + unfold emit. rewrite !extend_extend, <- !app_assoc. reflexivity.
    + unfold mbind, M_bind, bind, lift, log, emit. simpl.
      rewrite (polymarket_publish_stops _ _ _ _ _ _ _ Hgood Hbad),
        extend_extend.
      reflexivity.
  - intros query Hgood Hbad. unfold NewsProducer.query_cycle.
    rewrite (log_and_go_on_raise _ w
               (extend w ([Logged INFO]
                  ++ zip_with (fun k a => Produced NewsProducer.TOPIC k
                                            (tagged query a)) keys good)) e).
    + rewrite !extend_extend, <- !app_assoc. reflexivity.
    + unfold mbind, M_bind, bind, lift, log, emit. simpl.
      rewrite (news_publish_stops _ _ _ _ _ _ _ Hgood Hbad), extend_extend.
      reflexivity.
Qed.

(** X13, witness: a Kalshi batch of three records whose second has a
    number for ticker. *)
Lemma bad_record_drops_rest_witness :
  KalshiProducer.cycle 60 (Ok [market_a; market_5; market_a]) w0 =
    (Ok tt, World tt [Logged INFO;
                      Produced "kalshi.markets" "A" market_a;
                      Logged ERROR; Slept 60]).
Proof.
  destruct (bad_record_drops_rest 60 ConsumerExamples.str_stub [market_a]
              ["A"%string] market_5 [market_a] AttributeError w0) as [H _].
  apply H; [repeat constructor | reflexivity].
Defined.
End ProducerExtras.

(** ** The scraper: series tickers, the cache, slugs, candles, retries *)

Module TickerFacts.
Import Py Scraper.

(** The string has no ["-"]. *)
Fixpoint dash_free (s : string) : bool :=
  match s with
  | EmptyString => true
  | String c s' => negb (Ascii.eqb c "-") && dash_free s'
  end.

Lemma split_dash_not_nil s : split_dash s <> [].
Proof.
  destruct s as [|c s]; simpl; [discriminate|].
  destruct (Ascii.eqb c "-"); [discriminate|].
  destruct (split_dash s); discriminate.
Qed.

Lemma join_dash_cons_char c p ps :
  join_dash (String c p :: ps) = String c (join_dash (p :: ps)).
Proof. destruct ps; reflexivity. Qed.

(** Joining what was split gives the string back. *)
Lemma join_split s : join_dash (split_dash s) = s.
Proof.
  induction s as [|c s IH]; [reflexivity|]. simpl.
  destruct (Ascii.eqb_spec c "-") as [->|Hc].
  - pose proof (split_dash_not_nil s) as Hne.
    destruct (split_dash s) as [|p ps]; [contradiction|].
    change (join_dash (EmptyString :: p :: ps))
      with (EmptyString +:+ "-" +:+ join_dash (p :: ps)).
    rewrite IH. reflexivity.
  - destruct (split_dash s) as [|p ps] eqn:Hs.
    + exfalso. exact (split_dash_not_nil s Hs).
    + rewrite join_dash_cons_char, IH. reflexivity.
Qed.

Lemma split_dash_parts_dash_free s : Forall (fun p => dash_free p = true) (split_dash s).
Proof.
  induction s as [|c s IH]; simpl; [repeat constructor|].
  destruct (Ascii.eqb c "-") eqn:Hc.
  - constructor; [reflexivity | exact IH].
  - destruct (split_dash s) as [|p ps]; [repeat constructor; simpl; rewrite Hc; reflexivity|].
    inversion IH as [|? ? Hp Hps]; subst.
    constructor; [simpl; rewrite Hc, Hp; reflexivity | exact Hps].
Qed.

Lemma split_dash_single p : dash_free p = true -> split_dash p = [p].
Proof.
  induction p as [|c p IH]; [reflexivity|]. simpl.
  intros H. apply andb_true_iff in H as [Hc Hp].
  apply negb_true_iff in Hc. rewrite Hc, (IH Hp). reflexivity.
Qed.

Lemma split_dash_append p s :
  dash_free p = true ->
  split_dash (p +:+ "-" +:+ s) = p :: split_dash s.
Proof.
  induction p as [|c p IH]; [reflexivity|]. simpl.
  intros H. apply andb_true_iff in H as [Hc Hp].
  apply negb_true_iff in Hc. rewrite Hc, (IH Hp). reflexivity.
Qed.

(** Splitting what was joined gives the parts back, when no part has a
    dash. *)
Lemma split_join parts :
  parts <> [] -> Forall (fun p => dash_free p = true) parts ->
  split_dash (join_dash parts) = parts.
Proof.
  induction parts as [|p ps IH]; [congruence|]. intros _ H.
  inversion H as [|? ? Hp Hps]; subst.
  destruct ps as [|q ps]; [apply split_dash_single; exact Hp|].
  change (join_dash (p :: q :: ps)) with (p +:+ "-" +:+ join_dash (q :: ps)).
  rewrite split_dash_append by exact Hp.
  rewrite IH; [reflexivity | discriminate | exact Hps].
Qed.

(** The parts kept are the parts before the first one that starts with two
    digits. *)
Lemma series_parts_before kept date rest :
  Forall (fun p => starts_with_two_digits p = false) kept ->
  starts_with_two_digits date = true ->
  series_parts (kept ++ date :: rest) = kept.
Proof.
  induction 1 as [|p kept Hp _ IH]; intros Hd; simpl.
  - rewrite Hd. reflexivity.
  - rewrite Hp, IH by exact Hd. reflexivity.
Qed.

Lemma series_parts_all parts :
  Forall (fun p => starts_with_two_digits p = false) parts ->
  series_parts parts = parts.
Proof.
  induction 1 as [|p parts Hp _ IH]; simpl; [reflexivity|].
  rewrite Hp, IH. reflexivity.
Qed.

Lemma series_parts_kept parts :
  Forall (fun p => starts_with_two_digits p = false) (series_parts parts).
Proof.
  induction parts as [|p parts IH]; simpl; [constructor|].
  destruct (starts_with_two_digits p) eqn:Hp; constructor; assumption.
Qed.

Lemma series_parts_prefix parts :
  exists rest, parts = series_parts parts ++ rest.
Proof.
  induction parts as [|p parts [rest IH]]; simpl; [exists []; reflexivity|].
  destruct (starts_with_two_digits p).
  - exists (p :: parts). reflexivity.
  - exists rest. simpl. rewrite <- IH. reflexivity.
Qed.

Lemma append_assoc (a b c : string) : (a +:+ b) +:+ c = a +:+ (b +:+ c).
Proof.
  induction a as [|x a IH]; [reflexivity|].
  change (String x ((a +:+ b) +:+ c) = String x (a +:+ (b +:+ c))).
  rewrite IH. reflexivity.
Qed.

(** The join of the first parts is a prefix of the join of all. *)
Lemma join_dash_app_prefix l1 l2 :
  exists rest, join_dash (l1 ++ l2) = join_dash l1 +:+ rest.
Proof.
  induction l1 as [|p l1 [rest IH]]; [exists (join_dash l2); reflexivity|].
  destruct l1 as [|q l1].
  - destruct l2 as [|q l2].
    + exists ""%string. simpl. clear.
      induction p as [|c p IH]; [reflexivity|].
      change (String c p = String c (p +:+ "")). rewrite <- IH. reflexivity.
    + exists ("-" +:+ join_dash (q :: l2))%string. reflexivity.
  - exists rest.
    change (join_dash ((p :: q :: l1) ++ l2))
      with (p +:+ "-" +:+ join_dash ((q :: l1) ++ l2)).
    rewrite IH.
    change (join_dash (p :: q :: l1)) with (p +:+ "-" +:+ join_dash (q :: l1)).
    rewrite !append_assoc. reflexivity.
Qed.

Lemma two_digits_not_empty p : starts_with_two_digits p = true -> p <> ""%string.
Proof. destruct p; [discriminate | congruence]. Qed.

Lemma extract_of_parts ev :
  ev <> ""%string ->
  extract_series_ticker ev =
  match series_parts (split_dash ev) with
  | [] => match split_dash ev with p :: _ => p | [] => ""%string end
  | sp => join_dash sp
  end.
Proof.
  intros Hne. unfold extract_series_ticker.
  destruct (String.eqb_spec ev ""); [contradiction | reflexivity].
Qed.
End TickerFacts.

Section TickerExtras.
Import Py Scraper TickerFacts.

(** X14. [extract_series_ticker] strips the date suffix: for an event
    ticker made of parts joined by ["-"], the result is the join of the parts
    before the first part that starts with two digits; that part and all
    parts after it are dropped. *)
Theorem extract_series_ticker_strips_date
    (series : list string) (date : string) (tail : list string) :
  series <> [] ->
  Forall (fun p => dash_free p = true) (series ++ date :: tail) ->
  Forall (fun p => starts_with_two_digits p = false) series ->
  starts_with_two_digits date = true ->
  extract_series_ticker (join_dash (series ++ date :: tail))
    = join_dash series.
Proof.
  intros Hne Hfree Hkeep Hdate.
  assert (series ++ date :: tail <> []) as Hne' by (destruct series; discriminate).
  pose proof (split_join _ Hne' Hfree) as Hsplit.
  rewrite extract_of_parts.
  - rewrite Hsplit, series_parts_before by assumption.
    destruct series; [contradiction | reflexivity].
  - intros Hempty. rewrite Hempty in Hsplit. simpl in Hsplit.
    destruct series as [|p [|q series]]; try discriminate; contradiction.
Qed.

(** X15. The series ticker is always a prefix of the event ticker, and an
    event ticker none of whose parts starts with two digits is returned
    as it is. *)
Theorem extract_series_ticker_prefix (event_ticker : string) :
  (exists rest, event_ticker = extract_series_ticker event_ticker +:+ rest) /\
  (Forall (fun p => starts_with_two_digits p = false) (split_dash event_ticker) ->
   extract_series_ticker event_ticker = event_ticker).
Proof.
  destruct (String.eqb_spec event_ticker "") as [->|Hne].
  - split; [exists ""%string; reflexivity | reflexivity].
  - rewrite extract_of_parts by exact Hne. split.
    + destruct (series_parts_prefix (split_dash event_ticker)) as [rest Hrest].
      destruct (series_parts (split_dash event_ticker)) as [|p sp] eqn:Hsp.
      * destruct (split_dash event_ticker) as [|p ps] eqn:Hs;
          [exfalso; exact (split_dash_not_nil _ Hs)|].
        destruct (join_dash_app_prefix [p] ps) as [r Hr].
        exists r. rewrite <- (join_split event_ticker), Hs. exact Hr.
      * destruct (join_dash_app_prefix (p :: sp) rest) as [r Hr].
        exists r. rewrite <- Hr, <- Hrest. symmetry. apply join_split.
    + intros Hall. rewrite series_parts_all by exact Hall.
      pose proof (split_dash_not_nil event_ticker) as Hnil.
      destruct (split_dash event_ticker) eqn:Hs; [contradiction|].
      rewrite <- Hs. apply join_split.
Qed.

(** X16. [extract_series_ticker] is idempotent: a series ticker is its own
    series ticker. *)
Theorem extract_series_ticker_idempotent (event_ticker : string) :
  extract_series_ticker (extract_series_ticker event_ticker)
    = extract_series_ticker event_ticker.
Proof.
  destruct (String.eqb_spec event_ticker "") as [->|Hne]; [reflexivity|].
  destruct (String.eqb_spec (extract_series_ticker event_ticker) "")
    as [->|Hne2]; [reflexivity|].
  rewrite (extract_of_parts (extract_series_ticker event_ticker) Hne2).
  rewrite (extract_of_parts event_ticker Hne) in *.
  pose proof (split_dash_parts_dash_free event_ticker) as Hfree.
  pose proof (series_parts_kept (split_dash event_ticker)) as Hkept.
  destruct (series_parts_prefix (split_dash event_ticker)) as [rest Hrest].
  destruct (series_parts (split_dash event_ticker)) as [|p sp] eqn:Hsp.
  - destruct (split_dash event_ticker) as [|p ps] eqn:Hs;
      [exfalso; exact (split_dash_not_nil _ Hs)|].
    inversion Hfree as [|? ? Hp _]; subst.
    rewrite (split_dash_single p Hp).
    simpl in Hsp. simpl.
    destruct (starts_with_two_digits p); [reflexivity | discriminate].
  - assert (Forall (fun q => dash_free q = true) (p :: sp)) as Hfree'.
    { rewrite Hrest in Hfree. apply Forall_app in Hfree as [H _]. exact H. }
    rewrite split_join; [|discriminate | exact Hfree'].
    rewrite series_parts_all by exact Hkept. reflexivity.
Qed.

(** X14, witness: [KXFED-25JUL-T4.25] belongs to the series [KXFED]. *)
Lemma extract_series_ticker_strips_date_witness :
  extract_series_ticker "KXFED-25JUL-T4.25" = "KXFED"%string.
Proof.
  apply (extract_series_ticker_strips_date ["KXFED"%string] "25JUL"
           ["T4.25"%string]).
  - discriminate.
  - repeat constructor.
  - repeat constructor.
  - reflexivity.
Defined.
End TickerExtras.

Module CacheFacts.
Import Py Scraper.

(** [f"{BASE_URL}/series/{series_ticker}"] *)
Definition series_url (series_ticker : string) : string :=
  BASE_URL +:+ "/series/" +:+ series_ticker.

(** The state at import: [_series_cache = {}] and no request sent. *)
Definition initial_state : state := {| series_cache := ∅; requests := [] |}.

(** The lookup gets no category from the endpoint: the request raises, the
    status is not 200, or the body cannot be read. *)
Definition unanswered (r : response) : bool :=
  match r with
  | Failed => true
  | Response status_code json =>
      negb (status_code =? 200) ||
      match json with Raise _ => true | Ok _ => false end
  end.

Lemma unanswered_none r : unanswered r = true -> category_of r = VStr "(none)".
Proof.
  destruct r as [|sc json]; [reflexivity|]. simpl.
  destruct (sc =? 200); [|reflexivity]. simpl.
  destruct json; [discriminate | reflexivity].
Qed.

Lemma series_url_inj : Inj (=) (=) series_url.
Proof.
  intros a b H. unfold series_url in H.
  apply (inj (String.append BASE_URL)) in H.
  apply (inj (String.append "/series/")) in H. exact H.
Qed.

(** The requests sent are those for the series in the cache, one each. *)
Definition one_each (st : state) : Prop :=
  exists series : list string,
    NoDup series /\
    requests st = map series_url series /\
    forall k, k ∈ series <-> is_Some (series_cache st !! k).

Lemma one_each_initial : one_each initial_state.
Proof.
  exists []. split; [constructor|]. split; [reflexivity|].
  intros k. simpl. rewrite lookup_empty. split.
  - intros H. inversion H.
  - intros [x Hx]. discriminate.
Qed.

Lemma get_category_one_each series_api ev st :
  one_each st -> one_each (snd (get_category series_api ev st)).
Proof.
  intros (series & Hnd & Hreq & Hin). unfold get_category.
  destruct (String.eqb (extract_series_ticker ev) "");
    [exists series; auto|].
  destruct (series_cache st !! extract_series_ticker ev) eqn:Hs;
    [exists series; auto|].
  exists (series ++ [extract_series_ticker ev]). simpl. split; [|split].
  - apply NoDup_app. split; [exact Hnd|]. split; [|apply NoDup_singleton].
    intros k Hk Hk'. apply list_elem_of_singleton in Hk'. subst k.
    apply Hin in Hk. rewrite Hs in Hk. destruct Hk; discriminate.
  - rewrite Hreq, map_app. reflexivity.
  - intros k. rewrite elem_of_app, list_elem_of_singleton, Hin.
    destruct (decide (k = extract_series_ticker ev)) as [->|Hne].
    + rewrite lookup_insert_eq. split; [eauto | auto].
    + rewrite lookup_insert_ne by congruence. split; [|auto].
      intros [H|H]; [exact H | contradiction].
Qed.

Lemma lookups_one_each series_api evs st :
  one_each st -> one_each (lookups series_api evs st).
Proof.
  revert st. induction evs as [|ev evs IH]; intros st H; [exact H|].
  simpl. apply IH. apply get_category_one_each. exact H.
Qed.

Lemma one_each_size st series :
  NoDup series ->
  (forall k, k ∈ series <-> is_Some (series_cache st !! k)) ->
  length series = size (series_cache st).
Proof.
  intros Hnd Hin.
  rewrite <- size_dom, <- (size_list_to_set (C := gset string) series Hnd).
  f_equal. apply set_eq. intros k.
  rewrite elem_of_list_to_set, elem_of_dom. apply Hin.
Qed.
End CacheFacts.

Section CacheExtras.
Import Py Scraper CacheFacts.
Variable series_api : nat -> string -> response.

(** X17. A lookup that fails is cached and never made again: when the
    request for a series not yet in the cache raises, is answered with a
    status other than 200 or with a body that cannot be read, [get_category]
    returns ["(none)"], and after any further lookups the same event ticker
    is still answered ["(none)"] with no request and no change of state,
    whatever the endpoint would answer by then. *)
Theorem failed_lookup_never_retried (ev : string) (evs : list string) (st : state) :
  extract_series_ticker ev <> ""%string ->
  series_cache st !! extract_series_ticker ev = None ->
  unanswered (series_api (length (requests st))
                (series_url (extract_series_ticker ev))) = true ->
  fst (get_category series_api ev st) = VStr "(none)" /\
  get_category series_api ev
    (lookups series_api evs (snd (get_category series_api ev st)))
  = (VStr "(none)",
     lookups series_api evs (snd (get_category series_api ev st))).
Proof.
  intros Hne Hmiss Hfail.
  assert (fst (get_category series_api ev st) = VStr "(none)") as Hfst.
  { unfold get_category.
    destruct (String.eqb_spec (extract_series_ticker ev) ""); [contradiction|].
    rewrite Hmiss. simpl. apply unanswered_none. exact Hfail. }
  split; [exact Hfst|].
  apply get_category_hit; [exact Hne|].
  apply lookups_preserve. rewrite <- Hfst. apply get_category_cached. exact Hne.
Qed.

(** X18. One request per series: starting from the empty cache, after the
    lookups of any list of event tickers no URL has been requested twice,
    the number of requests sent is the number of series in the cache, and
    every request is the series URL of a ticker in the cache. *)
Theorem one_request_per_series (event_tickers : list string) :
  NoDup (requests (lookups series_api event_tickers initial_state)) /\
  length (requests (lookups series_api event_tickers initial_state))
    = size (series_cache (lookups series_api event_tickers initial_state)) /\
  Forall (fun url => exists k, url = series_url k /\
            is_Some (series_cache
                       (lookups series_api event_tickers initial_state) !! k))
    (requests (lookups series_api event_tickers initial_state)).
Proof.
  destruct (lookups_one_each series_api event_tickers initial_state
              one_each_initial) as (series & Hnd & Hreq & Hin).
  rewrite Hreq. split; [|split].
  - apply (NoDup_fmap_2 _ (Inj0 := series_url_inj)). exact Hnd.
  - rewrite length_map. apply one_each_size; assumption.
  - apply Forall_forall. intros url Hurl.
    apply list_elem_of_fmap in Hurl as (k & -> & Hk).
    exists k. split; [reflexivity | apply Hin; exact Hk].
Qed.
End CacheExtras.

Module CacheWitnesses.
Import Py Scraper.

(** An endpoint that is down at the first request and up afterwards. *)
Definition down_then_up (n : nat) (url : string) : response :=
  match n with
  | O => Failed
  | _ => Response 200
           (Ok (VDict [("series", VDict [("category", VStr "Economics")])]))
  end.
End CacheWitnesses.

Section CacheExtrasWitnesses.
Import Py Scraper CacheFacts CacheWitnesses.

(** X17, witness: the endpoint is down at the first lookup of [KXFED]. *)
Lemma failed_lookup_never_retried_witness :
  fst (get_category down_then_up "KXFED-25JUL" initial_state) = VStr "(none)" /\
  get_category down_then_up "KXFED-25JUL"
    (lookups down_then_up ["KXCPI-25JUL"; "KXFED-25SEP"]
       (snd (get_category down_then_up "KXFED-25JUL" initial_state)))
  = (VStr "(none)",
     lookups down_then_up ["KXCPI-25JUL"; "KXFED-25SEP"]
       (snd (get_category down_then_up "KXFED-25JUL" initial_state))).
Proof.
  apply (failed_lookup_never_retried down_then_up "KXFED-25JUL"
           ["KXCPI-25JUL"; "KXFED-25SEP"]%string initial_state).
  - vm_compute. discriminate.
  - reflexivity.
  - reflexivity.
Defined.
End CacheExtrasWitnesses.

(** ** The scraper: slugs, the candle filter, the retrying request *)

Module ToolFacts.
Import Py FloatFacts ScraperTools.

(** [c in s] for a character. *)
Fixpoint contains (c : ascii) (s : string) : bool :=
  match s with
  | EmptyString => false
  | String x s' => Ascii.eqb x c || contains c s'
  end.

(** What [category_slug] does to one character. *)
Definition slug_char (c : ascii) : ascii :=
  let l := lower c in
  let r := if Ascii.eqb l " " then "_"%char else l in
  if Ascii.eqb r "/" then "_"%char else r.

Lemma category_slug_cons c s :
  category_slug (String c s) = String (slug_char c) (category_slug s).
Proof. reflexivity. Qed.

Lemma slug_char_facts c :
  Ascii.eqb (slug_char c) " " = false /\
  Ascii.eqb (slug_char c) "/" = false /\
  slug_char (slug_char c) = slug_char c.
Proof.
  destruct c as [[|] [|] [|] [|] [|] [|] [|] [|]];
    vm_compute; repeat split; reflexivity.
Qed.

(** [(c.get(k) or {}).get("close")] *)
Definition close_of (c : value) (k : string) : res value :=
  res_bind (get c k VNone) (fun x => get (py_or x (VDict [])) "close" VNone).

Lemma is_none_false v : is_none v = false -> v <> VNone.
Proof. intros H ->. discriminate. Qed.

(** The least float above [0.40], which is [0.40] and one unit in its
    last place. *)
Definition ABOVE_MAX_SPREAD : Q := 7205759403792795 # 18014398509481984.

Lemma round64_above_max_spread :
  round64 ABOVE_MAX_SPREAD = FNum ABOVE_MAX_SPREAD.
Proof. vm_compute. reflexivity. Qed.

Lemma max_spread_below :
  float_le (FNum ABOVE_MAX_SPREAD) MAX_BID_ASK_SPREAD = false.
Proof. vm_compute. reflexivity. Qed.

(** A rounded number that is at most [0.40] comes from a number below the
    next float. *)
Lemma within_max_spread q :
  float_le (round64 q) MAX_BID_ASK_SPREAD = true -> (q < ABOVE_MAX_SPREAD)%Q.
Proof.
  intros Hle. apply Qnot_le_lt. intros Hge.
  pose proof (round64_mono _ _ Hge) as Hm.
  rewrite round64_above_max_spread in Hm.
  pose proof max_spread_below as Hb.
  unfold MAX_BID_ASK_SPREAD in *.
  destruct (round64 q) as [r|[|]|], (round64 (40 # 100)) as [m|[|]|];
    cbn in *; try discriminate.
  apply Qle_bool_iff in Hle, Hm.
  assert (Qle_bool ABOVE_MAX_SPREAD m = true) as H
    by (apply Qle_bool_iff; lra).
  congruence.
Qed.

(** What [get_with_retry] hands back for an attempt that ends the loop. *)
Definition outcome (a : attempt) : res (Z * res value) :=
  match a with
  | Answered status_code json => Ok (status_code, json)
  | Raised e => Raise e
  end.

(** The trace of one turn that is tried again. *)
Definition retry_round (url : string) : list retry_event :=
  [Requested url; Logged_line; Slept RETRY_SLEEP].

Lemma get_with_retry_from_retried attempts fuel url n tr :
  retried attempts n = true ->
  get_with_retry_from attempts (S fuel) url n tr
  = get_with_retry_from attempts fuel url (S n) (tr ++ retry_round url).
Proof.
  unfold retried. intros H. cbn [get_with_retry_from]. unfold retry_round.
  destruct (attempts n) as [e|sc json]; rewrite H, <- app_assoc; reflexivity.
Qed.

Lemma get_with_retry_from_done attempts fuel url n tr :
  retried attempts n = false ->
  get_with_retry_from attempts (S fuel) url n tr
  = Some (outcome (attempts n), tr ++ [Requested url]).
Proof.
  unfold retried. intros H. cbn [get_with_retry_from].
  destruct (attempts n) as [e|sc json]; rewrite H; reflexivity.
Qed.

Lemma get_with_retry_from_returns attempts url k :
  forall fuel n tr,
  (forall i, (i < k)%nat -> retried attempts (n + i) = true) ->
  retried attempts (n + k) = false ->
  (k < fuel)%nat ->
  get_with_retry_from attempts fuel url n tr
  = Some (outcome (attempts (n + k)%nat),
          tr ++ concat (replicate k (retry_round url)) ++ [Requested url]).
Proof.
  induction k as [|k IH]; intros fuel n tr Hretry Hdone Hfuel;
    (destruct fuel as [|fuel]; [lia|]).
  - rewrite Nat.add_0_r in *. rewrite get_with_retry_from_done by exact Hdone.
    reflexivity.
  - rewrite get_with_retry_from_retried
      by (rewrite <- (Nat.add_0_r n); apply Hretry; lia).
    rewrite (IH fuel (S n) (tr ++ retry_round url)).
    + replace (S n + k)%nat with (n + S k)%nat by lia.
      cbn [replicate concat]. rewrite <- !app_assoc. reflexivity.
    + intros i Hi. replace (S n + i)%nat with (n + S i)%nat by lia.
      apply Hretry. lia.
    + replace (S n + k)%nat with (n + S k)%nat by lia. exact Hdone.
    + lia.
Qed.

Lemma get_with_retry_from_pending attempts url fuel :
  forall n tr,
  (forall i, (i < fuel)%nat -> retried attempts (n + i) = true) ->
  get_with_retry_from attempts fuel url n tr = None.
Proof.
  induction fuel as [|fuel IH]; intros n tr Hretry; [reflexivity|].
  rewrite get_with_retry_from_retried
    by (rewrite <- (Nat.add_0_r n); apply Hretry; lia).
  apply IH. intros i Hi. replace (S n + i)%nat with (n + S i)%nat by lia.
  apply Hretry. lia.
Qed.
End ToolFacts.

Section ToolExtras.
Import Py ScraperTools ToolFacts.

(** X19. A category slug has no space and no slash, so that it names a
    file and not a path, and taking the slug of a slug changes nothing. *)
Theorem category_slug_clean (cat : string) :
  contains " " (category_slug cat) = false /\
  contains "/" (category_slug cat) = false /\
  category_slug (category_slug cat) = category_slug cat.
Proof.
  induction cat as [|c cat (IH1 & IH2 & IH3)]; [repeat split|].
  destruct (slug_char_facts c) as (H1 & H2 & H3).
  rewrite !category_slug_cons. cbn [contains].
  rewrite H1, H2, H3, IH1, IH2, IH3. repeat split.
Qed.

(** X20. A candle that passes the filter has everything the filter asks
    for: a volume that is true as an object and non-zero as a float, a
    price close, a bid close and an ask close that are not [None], both of
    the latter readable as floats, and a spread, the float difference of ask
    and bid, of at most [0.40]; for finite closes the difference of the two
    numbers is then below the least float above [0.40]. *)
Theorem candle_passes_true (c : value) :
  candle_passes c = Ok true ->
  exists volume vol price_close bid_close ask_close bid ask,
    get c "volume" VNone = Ok volume /\
    truthy volume = true /\
    to_float volume = Ok vol /\
    truthy (VFloat vol) = true /\
    close_of c "price" = Ok price_close /\ price_close <> VNone /\
    close_of c "yes_bid" = Ok bid_close /\ bid_close <> VNone /\
    close_of c "yes_ask" = Ok ask_close /\ ask_close <> VNone /\
    to_float bid_close = Ok bid /\
    to_float ask_close = Ok ask /\
    float_le (float_sub ask bid) MAX_BID_ASK_SPREAD = true /\
    forall qa qb, ask = FNum qa -> bid = FNum qb ->
      (qa - qb < ABOVE_MAX_SPREAD)%Q.
Proof.
  unfold candle_passes, close_of. intros H.
  destruct (get c "volume" VNone) as [volume|e] eqn:Hvolume;
    cbn [res_bind] in H; [|discriminate].
  unfold py_or in H at 1.
  destruct (truthy volume) eqn:Htrue.
  2:{ exfalso. cbn in H. discriminate. }
  destruct (to_float volume) as [vol|e] eqn:Hvol; cbn [res_bind] in H;
    [|discriminate].
  destruct (truthy (VFloat vol)) eqn:Hnonzero; cbn [negb] in H; [|discriminate].
  destruct (get c "price" VNone) as [price0|e]; cbn [res_bind] in *;
    [|discriminate].
  destruct (get (py_or price0 (VDict [])) "close" VNone) as [price_close|e];
    cbn [res_bind] in *; [|discriminate].
  destruct (is_none price_close) eqn:Hprice; [discriminate|].
  destruct (get c "yes_bid" VNone) as [yes_bid0|e]; cbn [res_bind] in *;
    [|discriminate].
  destruct (get c "yes_ask" VNone) as [yes_ask0|e]; cbn [res_bind] in *;
    [|discriminate].
  destruct (get (py_or yes_bid0 (VDict [])) "close" VNone) as [bid_close|e];
    cbn [res_bind] in *; [|discriminate].
  destruct (get (py_or yes_ask0 (VDict [])) "close" VNone) as [ask_close|e];
    cbn [res_bind] in *; [|discriminate].
  destruct (is_none bid_close) eqn:Hbid; [discriminate|].
  destruct (is_none ask_close) eqn:Hask; [discriminate|]. cbn [orb] in H.
  destruct (to_float ask_close) as [ask|e] eqn:Hfa; cbn [res_bind] in *;
    [|discriminate].
  destruct (to_float bid_close) as [bid|e] eqn:Hfb; cbn [res_bind] in *;
    [|discriminate].
  injection H as Hspread.
  exists volume, vol, price_close, bid_close, ask_close, bid, ask.
  repeat split; auto using is_none_false.
  intros qa qb -> ->. apply within_max_spread. exact Hspread.
Qed.

Variable attempts : nat -> attempt.

(** X21. [get_with_retry] returns the first attempt that is neither a 429
    nor a [RequestException]: when the attempts before the one numbered [n]
    are all of these and that one is not, the call comes back with its
    response, or raises its exception, after [n] turns of request, log line
    and sleep of [RETRY_SLEEP] seconds and one last request; the response
    it returns is never a 429. *)
Theorem get_with_retry_first_final (url : string) (n fuel : nat) :
  (forall i, (i < n)%nat -> retried attempts i = true) ->
  retried attempts n = false ->
  (n < fuel)%nat ->
  get_with_retry attempts fuel url
  = Some (outcome (attempts n),
          concat (replicate n (retry_round url)) ++ [Requested url]) /\
  forall json, outcome (attempts n) <> Ok (429, json).
Proof.
  intros Hretry Hdone Hfuel. split.
  - unfold get_with_retry.
    rewrite (get_with_retry_from_returns attempts url n fuel 0%nat [])
      by assumption.
    reflexivity.
  - intros json Hout. unfold retried in Hdone.
    destruct (attempts n) as [e|sc j]; [discriminate|].
    injection Hout as -> _. discriminate.
Qed.

(** X22. [get_with_retry] never gives up: while every attempt is a 429 or
    a [RequestException] the call has not come back, however many turns it
    has made. *)
Theorem get_with_retry_never_gives_up (url : string) (fuel : nat) :
  (forall i, (i < fuel)%nat -> retried attempts i = true) ->
  get_with_retry attempts fuel url = None.
Proof.
  intros Hretry. unfold get_with_retry.
  apply get_with_retry_from_pending. exact Hretry.
Qed.
End ToolExtras.

Module ToolWitnesses.
Import Py ScraperTools.

Definition candle : value :=
  VDict [("volume", VInt 12);
         ("price", VDict [("close", VStr "0.50")]);
         ("yes_bid", VDict [("close", VStr "0.25")]);
         ("yes_ask", VDict [("close", VStr "0.50")])].

(** Two rate-limited answers, then the page. *)
Definition limited_twice (n : nat) : attempt :=
  if (n <? 2)%nat then Answered 429 (Raise JSONDecodeError)
  else Answered 200 (Ok (VDict [])).

(** A server that cannot be reached. *)
Definition unreachable (n : nat) : attempt := Raised RequestException.
End ToolWitnesses.

Section ToolExtrasWitnesses.
Import Py ScraperTools ToolFacts ToolWitnesses.

(** X20, witness: a candle that passes. *)
Lemma candle_passes_true_witness :
  exists volume vol price_close bid_close ask_close bid ask,
    get candle "volume" VNone = Ok volume /\
    truthy volume = true /\
    to_float volume = Ok vol /\
    truthy (VFloat vol) = true /\
    close_of candle "price" = Ok price_close /\ price_close <> VNone /\
    close_of candle "yes_bid" = Ok bid_close /\ bid_close <> VNone /\
    close_of candle "yes_ask" = Ok ask_close /\ ask_close <> VNone /\
    to_float bid_close = Ok bid /\
    to_float ask_close = Ok ask /\
    float_le (float_sub ask bid) MAX_BID_ASK_SPREAD = true /\
    forall qa qb, ask = FNum qa -> bid = FNum qb ->
      (qa - qb < ABOVE_MAX_SPREAD)%Q.
Proof.
  apply (candle_passes_true candle). vm_compute. reflexivity.
Defined.

(** X21, witness: the third request is answered. *)
Lemma get_with_retry_first_final_witness :
  get_with_retry limited_twice 3 "u"
  = Some (Ok (200, Ok (VDict [])),
          [Requested "u"; Logged_line; Slept 30;
           Requested "u"; Logged_line; Slept 30;
           Requested "u"]) /\
  forall json, outcome (limited_twice 2) <> Ok (429, json).
Proof.
  apply (get_with_retry_first_final limited_twice "u" 2 3).
  - intros i Hi. destruct i as [|[|i]]; [reflexivity | reflexivity | lia].
  - reflexivity.
  - lia.
Defined.

(** X22, witness: five turns against a server that cannot be reached. *)
Lemma get_with_retry_never_gives_up_witness :
  get_with_retry unreachable 5 "u" = None.
Proof.
  apply (get_with_retry_never_gives_up unreachable "u" 5).
  intros i _. reflexivity.
Defined.
End ToolExtrasWitnesses.

(** ** The scraper: every file is opened once and closed *)

Module WriterFacts.
Import Py Writers.

Lemma string_length_append (a b : string) :
  String.length (a +:+ b) = (String.length a + String.length b)%nat.
Proof.
  induction a as [|c a IH]; [reflexivity|].
  change (S (String.length (a +:+ b)) = S (String.length a + String.length b)).
  rewrite IH. reflexivity.
Qed.

(** Strings that end in tails of one length are equal part by part. *)
Lemma append_inj_tail (a b x y : string) :
  String.length x = String.length y ->
  a +:+ x = b +:+ y -> a = b /\ x = y.
Proof.
  intros Hlen. revert b.
  induction a as [|c a IH]; intros [|d b] H.
  - split; [reflexivity | exact H].
  - exfalso. change (x = String d (b +:+ y)) in H. rewrite H in Hlen.
    cbn [String.length] in Hlen. rewrite string_length_append in Hlen. lia.
  - exfalso. change (String c (a +:+ x) = y) in H. rewrite <- H in Hlen.
    cbn [String.length] in Hlen. rewrite string_length_append in Hlen. lia.
  - change (String c (a +:+ x) = String d (b +:+ y)) in H.
    injection H as -> H. destruct (IH b H) as [-> ->]. split; reflexivity.
Qed.

(** A path names its slug and its dictionary. *)
Lemma csv_path_inj p q s t :
  csv_path s (suffix_of p) = csv_path t (suffix_of q) -> s = t /\ p = q.
Proof.
  unfold csv_path. intros H.
  apply (inj (String.append DATA_DIR)) in H.
  apply (inj (String.append "/")) in H.
  apply (inj (String.append "kalshi_")) in H.
  apply append_inj_tail in H; [|destruct p, q; reflexivity].
  destruct H as [-> H]. split; [reflexivity|].
  destruct p, q; [reflexivity | discriminate | discriminate | reflexivity].
Qed.

(** The entries of a dictionary filled by [get_writer] for one call site:
    distinct slugs, each with its path. *)
Definition filled (p : period) (ws : writers) : Prop :=
  exists slugs, NoDup slugs /\
    ws = map (fun s => (s, csv_path s (suffix_of p))) slugs.

Lemma writer_of_filled p slugs slug :
  writer_of (map (fun s => (s, csv_path s (suffix_of p))) slugs) slug
  = if decide (slug ∈ slugs) then Some (csv_path slug (suffix_of p)) else None.
Proof.
  induction slugs as [|s slugs IH]; [reflexivity|]. cbn [map writer_of].
  destruct (String.eqb_spec s slug) as [->|Hne].
  - rewrite decide_True by (left). reflexivity.
  - rewrite IH. destruct (decide (slug ∈ slugs)) as [Hin|Hin].
    + rewrite decide_True by (right; exact Hin). reflexivity.
    + rewrite decide_False; [reflexivity|].
      intros H. apply elem_of_cons in H as [->|H]; [congruence | contradiction].
Qed.

Lemma opened_app tr1 tr2 : opened (tr1 ++ tr2) = opened tr1 ++ opened tr2.
Proof. apply omap_app. Qed.

Lemma headers_app tr1 tr2 : headers (tr1 ++ tr2) = headers tr1 ++ headers tr2.
Proof. apply omap_app. Qed.

Lemma closed_app tr1 tr2 : closed (tr1 ++ tr2) = closed tr1 ++ closed tr2.
Proof. apply omap_app. Qed.

Lemma closed_closes (ws : writers) :
  closed (map (fun entry => File_closed (snd entry)) ws) = map snd ws.
Proof. induction ws as [|[k p] ws IH]; [reflexivity|]. cbn. f_equal. exact IH. Qed.

(** What holds of the state between calls. *)
Record consistent (st : files) : Prop := {
  consistent_1d : filled Daily (writers_1d st);
  consistent_1h : filled Hourly (writers_1h st);
  consistent_opened :
    opened (file_events st) ≡ₚ map snd (writers_1d st) ++ map snd (writers_1h st);
  consistent_headers : headers (file_events st) = opened (file_events st);
  consistent_closed : closed (file_events st) = []
}.

Lemma consistent_no_files : consistent no_files.
Proof.
  split; try reflexivity; exists []; split; try constructor; reflexivity.
Qed.

Lemma get_writer_filled p ws slug tr :
  filled p ws ->
  let '(w, ws', tr') := get_writer ws slug (suffix_of p) tr in
  w = csv_path slug (suffix_of p) /\
  filled p ws' /\
  ((ws' = ws /\ tr' = tr) \/
   (ws' = ws ++ [(slug, w)] /\
    tr' = tr ++ [Opened w; Header_written w; Logged_new_file w])).
Proof.
  intros (slugs & Hnd & ->). unfold get_writer.
  rewrite writer_of_filled.
  destruct (decide (slug ∈ slugs)) as [Hin|Hin].
  - split; [reflexivity|]. split; [exists slugs; auto | left; auto].
  - split; [reflexivity|]. split; [|right; auto].
    exists (slugs ++ [slug]). split.
    + apply NoDup_app. split; [exact Hnd|]. split; [|apply NoDup_singleton].
      intros k Hk Hk'. apply list_elem_of_singleton in Hk'. subst k. contradiction.
    + rewrite map_app. reflexivity.
Qed.

Lemma writer_call_consistent p slug st :
  consistent st -> consistent (snd (writer_call p slug st)).
Proof.
  intros [H1d H1h Hop Hhd Hcl]. destruct p; unfold writer_call.
  - pose proof (get_writer_filled Daily (writers_1d st) slug (file_events st) H1d)
      as H.
    destruct (get_writer (writers_1d st) slug (suffix_of Daily) (file_events st))
      as [[w ws'] tr'].
    destruct H as (Hw & Hfilled & [[-> ->]|[-> ->]]); cbn [snd].
    + split; assumption.
    + split; cbn [writers_1d writers_1h file_events]; try assumption.
      * rewrite opened_app, map_app, Hop. cbn.
        rewrite <- !app_assoc. apply Permutation_app_head.
        apply Permutation_app_comm.
      * rewrite headers_app, opened_app, Hhd. reflexivity.
      * rewrite closed_app, Hcl. reflexivity.
  - pose proof (get_writer_filled Hourly (writers_1h st) slug (file_events st) H1h)
      as H.
    destruct (get_writer (writers_1h st) slug (suffix_of Hourly) (file_events st))
      as [[w ws'] tr'].
    destruct H as (Hw & Hfilled & [[-> ->]|[-> ->]]); cbn [snd].
    + split; assumption.
    + split; cbn [writers_1d writers_1h file_events]; try assumption.
      * rewrite opened_app, map_app, Hop. cbn.
        rewrite !app_assoc. reflexivity.
      * rewrite headers_app, opened_app, Hhd. reflexivity.
      * rewrite closed_app, Hcl. reflexivity.
Qed.

Lemma writer_calls_consistent calls st :
  consistent st -> consistent (writer_calls calls st).
Proof.
  revert st. induction calls as [|[p slug] calls IH]; intros st H; [exact H|].
  cbn. apply IH. apply writer_call_consistent. exact H.
Qed.

(** The paths of two dictionaries filled at the two call sites are all
    different. *)
Lemma filled_paths_NoDup ws1 ws2 :
  filled Daily ws1 -> filled Hourly ws2 ->
  NoDup (map snd ws1 ++ map snd ws2).
Proof.
  intros (s1 & Hnd1 & ->) (s2 & Hnd2 & ->).
  rewrite !map_map. cbn [snd].
  assert (forall p, Inj (=) (=) (fun s => csv_path s (suffix_of p))) as Hinj.
  { intros p a b H. apply csv_path_inj in H as [H _]. exact H. }
  apply NoDup_app. split; [|split].
  - apply (NoDup_fmap_2 _ (Inj0 := Hinj Daily)). exact Hnd1.
  - intros path H1 H2.
    apply list_elem_of_fmap in H1 as (a & -> & _).
    apply list_elem_of_fmap in H2 as (b & H & _).
    apply csv_path_inj in H as [_ H]. discriminate.
  - apply (NoDup_fmap_2 _ (Inj0 := Hinj Hourly)). exact Hnd2.
Qed.
End WriterFacts.

Section WriterExtras.
Import Py Writers WriterFacts.

(** X23. Every file is opened once and closed: starting with no writers,
    after any run of calls of [get_writer] from the two call sites no path
    has been opened twice, so that no file is emptied after rows went into
    it; a header was written for each file opened and for nothing else; and
    [close_all_writers] closes the files that were opened, each once. *)
Theorem files_opened_once_then_closed (calls : list (period * string)) :
  NoDup (opened (file_events (writer_calls calls no_files))) /\
  headers (file_events (writer_calls calls no_files))
    = opened (file_events (writer_calls calls no_files)) /\
  closed (file_events (close_all_writers (writer_calls calls no_files)))
    ≡ₚ opened (file_events (writer_calls calls no_files)).
Proof.
  destruct (writer_calls_consistent calls no_files consistent_no_files)
    as [H1d H1h Hop Hhd Hcl].
  split; [|split].
  - rewrite Hop. apply filled_paths_NoDup; assumption.
  - exact Hhd.
  - unfold close_all_writers. cbn [file_events].
    rewrite !closed_app, Hcl, !closed_closes, Hop. reflexivity.
Qed.
End WriterExtras.
